(** * AutomatedThrustTester: the sequencing and logging core of
      [auto_thrust_tester.ino], embedded in Rocq.

    The sketch is single-threaded C++ for an Arduino board.  Its pure helpers
    (file-name matching and parsing) become Rocq functions on strings; the
    stateful part (globals, button, load cell, servo, display, card) becomes
    a state-and-failure monad over a record of the sketch's globals, with the
    hardware inputs read from an oracle and the hardware outputs appended to
    a trace. *)

From Stdlib Require Import ZArith List String Ascii Bool Lia.
Import ListNotations.
Local Open Scope string_scope.
Local Open Scope list_scope.
Local Open Scope Z_scope.

(** ** C strings

    A [const char*] is modelled by a Rocq [string]; as in C, the text ends at
    the first NUL character, so every reader goes through [c_str]. *)

Module CString.

Definition NUL : ascii := Ascii.zero.

(** The characters before the first NUL. *)
Fixpoint c_str (s : string) : string :=
  match s with
  | EmptyString => EmptyString
  | String c r => if Ascii.eqb c NUL then EmptyString else String c (c_str r)
  end.

Definition strlen (s : string) : Z := Z.of_nat (String.length (c_str s)).

(** [s + n]: the string that starts [n] characters into [s]. *)
Fixpoint offset (n : nat) (s : string) : string :=
  match n, s with
  | O, _ => s
  | S n', String _ r => offset n' r
  | S _, EmptyString => EmptyString
  end.

(** [s[i]], reading the terminating NUL at and past the end. *)
Definition char_at (s : string) (i : nat) : ascii :=
  match String.get i (c_str s) with
  | Some c => c
  | None => NUL
  end.

(** [strncmp(a, b, n) == 0]: the first [n] characters agree, the comparison
    stopping at a common NUL. *)
Fixpoint strncmp_eq (a b : string) (n : nat) : bool :=
  match n with
  | O => true
  | S n' =>
      match c_str a, c_str b with
      | EmptyString, EmptyString => true
      | String x a', String y b' => Ascii.eqb x y && strncmp_eq a' b' n'
      | _, _ => false
      end
  end.

(** [isdigit(c)]. *)
Definition isdigit (c : ascii) : bool :=
  let n := Z.of_nat (nat_of_ascii c) in (48 <=? n) && (n <=? 57).

(** [isspace(c)]: space, and the controls from tab to carriage return. *)
Definition isspace (c : ascii) : bool :=
  let n := Z.of_nat (nat_of_ascii c) in (n =? 32) || ((9 <=? n) && (n <=? 13)).

Definition digit_val (c : ascii) : Z := Z.of_nat (nat_of_ascii c) - 48.

(** [strstr(s, needle)] as the index of the first occurrence. *)
Definition strstr (s needle : string) : option nat :=
  String.index 0 needle (c_str s).

Fixpoint skip_space (s : string) : string :=
  match s with
  | String c r => if isspace c then skip_space r else s
  | EmptyString => s
  end.

Fixpoint atoi_digits (s : string) (acc : Z) : Z :=
  match s with
  | String c r => if isdigit c then atoi_digits r (acc * 10 + digit_val c) else acc
  | EmptyString => acc
  end.

(** [atoi]: leading white space, an optional sign, then the digits.  The
    result is the mathematical value; C leaves the overflow of [int]
    undefined, and the sketch calls [atoi] on at most four digits. *)
Definition atoi (s : string) : Z :=
  match skip_space (c_str s) with
  | String "-" r => - atoi_digits r 0
  | String "+" r => atoi_digits r 0
  | t => atoi_digits t 0
  end.

(** Decimal digits of a non-negative number, most significant first. *)
Fixpoint dec_digits (fuel : nat) (n : Z) (acc : string) : string :=
  match fuel with
  | O => acc
  | S fuel' =>
      let acc' := String (ascii_of_nat (Z.to_nat (48 + n mod 10))) acc in
      if n <? 10 then acc' else dec_digits fuel' (n / 10) acc'
  end.

(** The conversion [%d] of printf, and [String(int)]. *)
Definition dec (n : Z) : string :=
  if n <? 0 then String "-" (dec_digits (S (Z.to_nat (Z.log2 (- n)))) (- n) EmptyString)
  else dec_digits (S (Z.to_nat (Z.log2 n))) n EmptyString.

(** [snprintf(buf, size, ...)]: at most [size - 1] characters are stored. *)
Definition snprintf (size : nat) (text : string) : string :=
  String.substring 0 (size - 1) text.

End CString.
Import CString.

(** ** Sequence Filer: the pure helpers *)

(** [isMatchingFormat], lines 437-461. *)
Definition isMatchingFormat (fileName : string) : bool :=
  let nameLength := strlen fileName in
  if (nameLength <? 7) || (nameLength >? 10) then false
  else if negb (strncmp_eq fileName "t_" 2)
          || negb (strncmp_eq (offset (Z.to_nat (nameLength - 4)) fileName) ".csv" 4)
  then false
  else forallb (fun i => isdigit (char_at fileName i))
               (seq 2 (Z.to_nat (nameLength - 4) - 2)).

(** The characters that [getFileNum] copies into [numString]: those from
    index 2 up to the first occurrence of ".csv". *)
Definition num_span (fileName : string) : option string :=
  match strstr fileName ".csv" with
  | Some numEnd =>
      if (2 <? numEnd)%nat then Some (String.substring 2 (numEnd - 2) (c_str fileName))
      else None
  | None => None
  end.

(** [getFileNum], lines 464-487.  [numString] has room for nine characters;
    [num_span_fits] below shows that every name accepted by
    [isMatchingFormat] stays inside it. *)
Definition getFileNum (fileName : string) : Z :=
  match num_span fileName with
  | Some numString => atoi numString
  | None => 0
  end.

(** The name written by line 433, [snprintf(newFileName, 10, "t_%d.csv", n)]. *)
Definition formatFileName (nextFileNum : Z) : string :=
  snprintf 10 ("t_" ++ dec nextFileNum ++ ".csv").


(** ** The board: pins, peripherals and build options *)

(** A digital pin level.  The button is wired active-low with a pull-up. *)
Inductive level : Type := HIGH | LOW.

Definition is_LOW (l : level) : bool :=
  match l with LOW => true | HIGH => false end.

(** The operations of C [float] that the sketch uses.  Force values only
    flow from the load cell to the display, the log and one comparison, so
    the arithmetic of the board is kept as an interface. *)
Class FloatOps (F : Type) : Type := {
  of_int : Z -> F;                      (* the conversion of an int constant *)
  fsub : F -> F -> F;                   (* a - b *)
  fneg : F -> F;                        (* -a *)
  fltb : F -> F -> bool;                (* a < b *)
  dtostrf : F -> Z -> Z -> string;      (* dtostrf(val, width, prec, buf) *)
  String_of_float : F -> string         (* String(val) *)
}.

(** The build options of lines 55 and 59.  DEBUG_MODE only adds serial
    output and start-up pauses and is taken as not defined. *)
Record Config : Type := mkConfig {
  AUTO_TEST : bool;
  CONT_SYNC : bool
}.

(** The options as the file sets them: AUTO_TEST defined, CONT_SYNC not. *)
Definition shipped : Config := {| AUTO_TEST := true; CONT_SYNC := false |}.

Definition SAMPLE_MS : Z := 250.
Definition MIN_TEST_FORCE : Z := 50.
Definition TIME_AT_MAX_THROTTLE : Z := 3000.
(** Line 116. *)
Definition maxServoPos : Z := 180 + TIME_AT_MAX_THROTTLE / SAMPLE_MS.

(** [unsigned long] arithmetic is modulo 2^32. *)
Definition wrap32 (z : Z) : Z := z mod 2 ^ 32.

(** [int] is 16 bits wide on the board.  A sum that leaves its range wraps
    in two's complement, as the addition of the AVR does (C itself leaves
    the overflow undefined). *)
Definition wrap16 (z : Z) : Z := (z + 2 ^ 15) mod 2 ^ 16 - 2 ^ 15.

(** One directory entry as the scan of [getFileName] sees it: [isDir()] and
    the text that [getName] left in the ten-byte buffer. *)
Record DirEntry : Type := mkDirEntry {
  entryIsDir : bool;
  entryName : string
}.

(** ** A state monad with failure

    [None] is only produced when a loop runs out of fuel. *)

Definition M (S A : Type) : Type := S -> option (A * S).

Definition ret {S A : Type} (a : A) : M S A := fun s => Some (a, s).

Definition bind {S A B : Type} (m : M S A) (k : A -> M S B) : M S B :=
  fun s => match m s with
           | Some (a, s') => k a s'
           | None => None
           end.

Definition gets {S A : Type} (f : S -> A) : M S A := fun s => Some (f s, s).

Definition modify {S : Type} (f : S -> S) : M S unit := fun s => Some (tt, f s).

Definition out_of_fuel {S A : Type} : M S A := fun _ => None.

Definition when {S : Type} (b : bool) (m : M S unit) : M S unit :=
  if b then m else ret tt.

Notation "x <- c1 ;; c2" := (bind c1 (fun x => c2))
  (at level 61, c1 at next level, right associativity).
Notation "c1 ;; c2" := (bind c1 (fun _ => c2))
  (at level 61, right associativity).

(** [while (cond) body], at most [fuel] tests of the condition. *)
Fixpoint while {S : Type} (fuel : nat) (cond : S -> bool) (body : M S unit) : M S unit :=
  match fuel with
  | O => out_of_fuel
  | S fuel' =>
      c <- gets cond ;;
      if c then body ;; while fuel' cond body else ret tt
  end.

(** ** The sketch *)

Section Sketch.

Context {F : Type} {FO : FloatOps F}.

(** What the sketch does to the outside world, newest first in [trace]. *)
Inductive Event : Type :=
| EvDelay (ms : Z)                         (* delay(ms) *)
| EvLcdClear                               (* lcd.clear() *)
| EvLcdPrint (row : Z) (text : string)     (* lcd.setCursor(0,row); lcd.print(text) *)
| EvServoWrite (pos : Z)                   (* myServo.write(pos) *)
| EvDirScan                                (* the directory is opened and listed *)
| EvFileOpen (name : string) (ok : bool)   (* file.open(name, FILE_WRITE) *)
| EvFileClose                              (* file.close() *)
| EvHeader                                 (* the line millis,servo_pos,force *)
| EvRow (time pos : Z) (force : F).        (* the prints of one writeData call *)

(** The inputs of one power cycle: what each successive call of a reading
    primitive returns. *)
Record Env : Type := mkEnv {
  digitalRead_in : nat -> level;           (* digitalRead(BUTTON_PIN) *)
  millis_in : nat -> Z;                    (* millis() *)
  get_units_in : nat -> F;                 (* scale.get_units(n) *)
  sd_begin_in : bool;                      (* SD.begin(...) *)
  dir_in : nat -> option (list DirEntry);  (* listing of "/", None: cannot open *)
  file_open_in : nat -> bool;              (* file.open(name, FILE_WRITE) *)
  file_sync_in : nat -> bool               (* file.sync() && !file.getWriteError() *)
}.

(** The globals of lines 101-121, the number of inputs consumed so far, and
    the outputs. *)
Record World : Type := mkWorld {
  unitForce : F;
  maxForce : F;
  buttonState : level;
  continueFlag : bool;
  servoPos : Z;
  servoStep : Z;
  scaleActive : bool;
  servoChecked : bool;
  servoActive : bool;
  cardExists : bool;
  scaleStartTime : Z;
  readTime : Z;
  activeFileName : string;
  maxFileNum : Z;
  nreads : nat;
  nmillis : nat;
  nunits : nat;
  nscans : nat;
  nopens : nat;
  nsyncs : nat;
  trace : list Event
}.

Definition set_unitForce (v : F) (w : World) : World :=
mkWorld v (maxForce w) (buttonState w) (continueFlag w) (servoPos w) (servoStep w)
    (scaleActive w) (servoChecked w) (servoActive w) (cardExists w) (scaleStartTime w)
    (readTime w) (activeFileName w) (maxFileNum w) (nreads w) (nmillis w) (nunits w)
    (nscans w) (nopens w) (nsyncs w) (trace w).
Definition set_maxForce (v : F) (w : World) : World :=
mkWorld (unitForce w) v (buttonState w) (continueFlag w) (servoPos w) (servoStep w)
    (scaleActive w) (servoChecked w) (servoActive w) (cardExists w) (scaleStartTime w)
    (readTime w) (activeFileName w) (maxFileNum w) (nreads w) (nmillis w) (nunits w)
    (nscans w) (nopens w) (nsyncs w) (trace w).
Definition set_buttonState (v : level) (w : World) : World :=
mkWorld (unitForce w) (maxForce w) v (continueFlag w) (servoPos w) (servoStep w)
    (scaleActive w) (servoChecked w) (servoActive w) (cardExists w) (scaleStartTime w)
    (readTime w) (activeFileName w) (maxFileNum w) (nreads w) (nmillis w) (nunits w)
    (nscans w) (nopens w) (nsyncs w) (trace w).
Definition set_continueFlag (v : bool) (w : World) : World :=
mkWorld (unitForce w) (maxForce w) (buttonState w) v (servoPos w) (servoStep w)
    (scaleActive w) (servoChecked w) (servoActive w) (cardExists w) (scaleStartTime w)
    (readTime w) (activeFileName w) (maxFileNum w) (nreads w) (nmillis w) (nunits w)
    (nscans w) (nopens w) (nsyncs w) (trace w).
Definition set_servoPos (v : Z) (w : World) : World :=
mkWorld (unitForce w) (maxForce w) (buttonState w) (continueFlag w) v (servoStep w)
    (scaleActive w) (servoChecked w) (servoActive w) (cardExists w) (scaleStartTime w)
    (readTime w) (activeFileName w) (maxFileNum w) (nreads w) (nmillis w) (nunits w)
    (nscans w) (nopens w) (nsyncs w) (trace w).
Definition set_servoStep (v : Z) (w : World) : World :=
mkWorld (unitForce w) (maxForce w) (buttonState w) (continueFlag w) (servoPos w) v
    (scaleActive w) (servoChecked w) (servoActive w) (cardExists w) (scaleStartTime w)
    (readTime w) (activeFileName w) (maxFileNum w) (nreads w) (nmillis w) (nunits w)
    (nscans w) (nopens w) (nsyncs w) (trace w).
Definition set_scaleActive (v : bool) (w : World) : World :=
mkWorld (unitForce w) (maxForce w) (buttonState w) (continueFlag w) (servoPos w)
    (servoStep w) v (servoChecked w) (servoActive w) (cardExists w) (scaleStartTime w)
    (readTime w) (activeFileName w) (maxFileNum w) (nreads w) (nmillis w) (nunits w)
    (nscans w) (nopens w) (nsyncs w) (trace w).
Definition set_servoChecked (v : bool) (w : World) : World :=
mkWorld (unitForce w) (maxForce w) (buttonState w) (continueFlag w) (servoPos w)
    (servoStep w) (scaleActive w) v (servoActive w) (cardExists w) (scaleStartTime w)
    (readTime w) (activeFileName w) (maxFileNum w) (nreads w) (nmillis w) (nunits w)
    (nscans w) (nopens w) (nsyncs w) (trace w).
Definition set_servoActive (v : bool) (w : World) : World :=
mkWorld (unitForce w) (maxForce w) (buttonState w) (continueFlag w) (servoPos w)
    (servoStep w) (scaleActive w) (servoChecked w) v (cardExists w) (scaleStartTime w)
    (readTime w) (activeFileName w) (maxFileNum w) (nreads w) (nmillis w) (nunits w)
    (nscans w) (nopens w) (nsyncs w) (trace w).
Definition set_cardExists (v : bool) (w : World) : World :=
mkWorld (unitForce w) (maxForce w) (buttonState w) (continueFlag w) (servoPos w)
    (servoStep w) (scaleActive w) (servoChecked w) (servoActive w) v (scaleStartTime w)
    (readTime w) (activeFileName w) (maxFileNum w) (nreads w) (nmillis w) (nunits w)
    (nscans w) (nopens w) (nsyncs w) (trace w).
Definition set_scaleStartTime (v : Z) (w : World) : World :=
mkWorld (unitForce w) (maxForce w) (buttonState w) (continueFlag w) (servoPos w)
    (servoStep w) (scaleActive w) (servoChecked w) (servoActive w) (cardExists w) v
    (readTime w) (activeFileName w) (maxFileNum w) (nreads w) (nmillis w) (nunits w)
    (nscans w) (nopens w) (nsyncs w) (trace w).
Definition set_readTime (v : Z) (w : World) : World :=
mkWorld (unitForce w) (maxForce w) (buttonState w) (continueFlag w) (servoPos w)
    (servoStep w) (scaleActive w) (servoChecked w) (servoActive w) (cardExists w)
    (scaleStartTime w) v (activeFileName w) (maxFileNum w) (nreads w) (nmillis w)
    (nunits w) (nscans w) (nopens w) (nsyncs w) (trace w).
Definition set_activeFileName (v : string) (w : World) : World :=
mkWorld (unitForce w) (maxForce w) (buttonState w) (continueFlag w) (servoPos w)
    (servoStep w) (scaleActive w) (servoChecked w) (servoActive w) (cardExists w)
    (scaleStartTime w) (readTime w) v (maxFileNum w) (nreads w) (nmillis w) (nunits w)
    (nscans w) (nopens w) (nsyncs w) (trace w).
Definition set_maxFileNum (v : Z) (w : World) : World :=
mkWorld (unitForce w) (maxForce w) (buttonState w) (continueFlag w) (servoPos w)
    (servoStep w) (scaleActive w) (servoChecked w) (servoActive w) (cardExists w)
    (scaleStartTime w) (readTime w) (activeFileName w) v (nreads w) (nmillis w) (nunits
    w) (nscans w) (nopens w) (nsyncs w) (trace w).
Definition set_nreads (v : nat) (w : World) : World :=
mkWorld (unitForce w) (maxForce w) (buttonState w) (continueFlag w) (servoPos w)
    (servoStep w) (scaleActive w) (servoChecked w) (servoActive w) (cardExists w)
    (scaleStartTime w) (readTime w) (activeFileName w) (maxFileNum w) v (nmillis w)
    (nunits w) (nscans w) (nopens w) (nsyncs w) (trace w).
Definition set_nmillis (v : nat) (w : World) : World :=
mkWorld (unitForce w) (maxForce w) (buttonState w) (continueFlag w) (servoPos w)
    (servoStep w) (scaleActive w) (servoChecked w) (servoActive w) (cardExists w)
    (scaleStartTime w) (readTime w) (activeFileName w) (maxFileNum w) (nreads w) v
    (nunits w) (nscans w) (nopens w) (nsyncs w) (trace w).
Definition set_nunits (v : nat) (w : World) : World :=
mkWorld (unitForce w) (maxForce w) (buttonState w) (continueFlag w) (servoPos w)
    (servoStep w) (scaleActive w) (servoChecked w) (servoActive w) (cardExists w)
    (scaleStartTime w) (readTime w) (activeFileName w) (maxFileNum w) (nreads w)
    (nmillis w) v (nscans w) (nopens w) (nsyncs w) (trace w).
Definition set_nscans (v : nat) (w : World) : World :=
mkWorld (unitForce w) (maxForce w) (buttonState w) (continueFlag w) (servoPos w)
    (servoStep w) (scaleActive w) (servoChecked w) (servoActive w) (cardExists w)
    (scaleStartTime w) (readTime w) (activeFileName w) (maxFileNum w) (nreads w)
    (nmillis w) (nunits w) v (nopens w) (nsyncs w) (trace w).
Definition set_nopens (v : nat) (w : World) : World :=
mkWorld (unitForce w) (maxForce w) (buttonState w) (continueFlag w) (servoPos w)
    (servoStep w) (scaleActive w) (servoChecked w) (servoActive w) (cardExists w)
    (scaleStartTime w) (readTime w) (activeFileName w) (maxFileNum w) (nreads w)
    (nmillis w) (nunits w) (nscans w) v (nsyncs w) (trace w).
Definition set_nsyncs (v : nat) (w : World) : World :=
mkWorld (unitForce w) (maxForce w) (buttonState w) (continueFlag w) (servoPos w)
    (servoStep w) (scaleActive w) (servoChecked w) (servoActive w) (cardExists w)
    (scaleStartTime w) (readTime w) (activeFileName w) (maxFileNum w) (nreads w)
    (nmillis w) (nunits w) (nscans w) (nopens w) v (trace w).
Definition set_trace (v : list Event) (w : World) : World :=
mkWorld (unitForce w) (maxForce w) (buttonState w) (continueFlag w) (servoPos w)
    (servoStep w) (scaleActive w) (servoChecked w) (servoActive w) (cardExists w)
    (scaleStartTime w) (readTime w) (activeFileName w) (maxFileNum w) (nreads w)
    (nmillis w) (nunits w) (nscans w) (nopens w) (nsyncs w) v.

Variable cfg : Config.
Variable env : Env.

Local Abbreviation Cmd := (M World).

(** *** Primitives *)

Definition emit (e : Event) : Cmd unit :=
  modify (fun w => set_trace (e :: trace w) w).

Definition delay (ms : Z) : Cmd unit := emit (EvDelay ms).

Definition digitalRead : Cmd level :=
  fun w => Some (digitalRead_in env (nreads w), set_nreads (S (nreads w)) w).

Definition millis : Cmd Z :=
  fun w => Some (wrap32 (millis_in env (nmillis w)), set_nmillis (S (nmillis w)) w).

Definition get_units (times : Z) : Cmd F :=
  fun w => Some (get_units_in env (nunits w), set_nunits (S (nunits w)) w).

Definition servo_write (pos : Z) : Cmd unit := emit (EvServoWrite pos).

Definition open_dir : Cmd (option (list DirEntry)) :=
  fun w => Some (dir_in env (nscans w),
                 set_trace (EvDirScan :: trace w) (set_nscans (S (nscans w)) w)).

Definition file_open (name : string) : Cmd bool :=
  fun w => let ok := file_open_in env (nopens w) in
           Some (ok, set_trace (EvFileOpen name ok :: trace w) (set_nopens (S (nopens w)) w)).

Definition file_sync_ok : Cmd bool :=
  fun w => Some (file_sync_in env (nsyncs w), set_nsyncs (S (nsyncs w)) w).

(** The macros [max] and [abs] of Arduino.h on floats. *)
Definition float_max (a b : F) : F := if fltb b a then a else b.
Definition float_abs (x : F) : F := if fltb (of_int 0) x then x else fneg x.

(** *** Display: [printLcd], lines 137-164 *)

Definition nonempty (s : string) : bool :=
  match c_str s with EmptyString => false | String _ _ => true end.

Definition printLcd (line1 line2 : string) : Cmd unit :=
  when (nonempty line1) (emit EvLcdClear ;; emit (EvLcdPrint 0 (c_str line1))) ;;
  when (nonempty line2) (emit (EvLcdPrint 1 (c_str line2))).

(** *** Input Monitor: [delayCheckButton], lines 197-230 *)

(** Enough loop tests for a wait of [dt] ms in steps of 50. *)
Definition polls (dt : Z) : nat := S (S (Z.to_nat (dt / 50))).

(** The first loop; [break] and the loop exit both fall through to the
    second loop, which needs the value of [total]. *)
Fixpoint wait_press (fuel : nat) (dt total : Z) : Cmd Z :=
  match fuel with
  | O => out_of_fuel
  | S fuel' =>
      flag <- gets continueFlag ;;
      if (total <? dt) && flag then
        b <- digitalRead ;;
        modify (set_buttonState b) ;;
        match b with
        | LOW => modify (set_continueFlag false) ;; ret total
        | HIGH => delay (Z.min 50 (dt - total)) ;;
                  wait_press fuel' dt (wrap32 (total + 50))
        end
      else ret total
  end.

(** The second loop; reading HIGH returns from the function. *)
Fixpoint wait_release (fuel : nat) (dt total : Z) (full : bool) : Cmd unit :=
  match fuel with
  | O => out_of_fuel
  | S fuel' =>
      bs <- gets buttonState ;;
      if (total <? dt) && (full || is_LOW bs) then
        b <- digitalRead ;;
        modify (set_buttonState b) ;;
        match b with
        | HIGH => ret tt
        | LOW => delay (Z.min 50 (dt - total)) ;;
                 wait_release fuel' dt (wrap32 (total + 50)) full
        end
      else ret tt
  end.

Definition delayCheckButton (dt : Z) (full : bool) : Cmd unit :=
  modify (set_buttonState HIGH) ;;
  total <- wait_press (polls dt) dt 0 ;;
  wait_release (polls dt) dt total full.

(** *** [printLcdScroll], lines 167-194 *)

Definition newline : ascii := ascii_of_nat 10.

(** The successive tokens of [strtok(text, "\n")]: the non-empty runs
    between newlines.  [cur] is the run being read, last character first. *)
Fixpoint rev_string (s acc : string) : string :=
  match s with
  | EmptyString => acc
  | String c r => rev_string r (String c acc)
  end.

Fixpoint strtok_lines (s cur : string) : list string :=
  match s with
  | EmptyString =>
      match cur with EmptyString => [] | _ => [rev_string cur EmptyString] end
  | String c r =>
      if Ascii.eqb c newline then
        match cur with
        | EmptyString => strtok_lines r EmptyString
        | _ => rev_string cur EmptyString :: strtok_lines r EmptyString
        end
      else strtok_lines r (String c cur)
  end.

Fixpoint scroll (tokens : list string) : Cmd unit :=
  match tokens with
  | [] => ret tt
  | token :: rest =>
      printLcd token EmptyString ;;
      match rest with
      | [] => delayCheckButton 2000 false
      | token2 :: rest' =>
          printLcd EmptyString token2 ;;
          delayCheckButton 2000 false ;;
          scroll rest'
      end
  end.

Definition printLcdScroll (inputText : string) : Cmd unit :=
  scroll (strtok_lines (c_str inputText) EmptyString).

Definition nl (a b : string) : string := (a ++ String newline b)%string.

(** *** [setupCard], lines 233-249 *)

Definition card_failed_text : string :=
  nl "Card Failed or" (nl "Not Present" (nl "Press Button" "to Continue")).

(** Lines 241-244. *)
Definition setupCard_begin : Cmd unit :=
  when (sd_begin_in env)
       (modify (set_continueFlag false) ;; modify (set_cardExists true)).

Definition setupCard (fuel : nat) : Cmd unit :=
  setupCard_begin ;;
  while fuel continueFlag (printLcdScroll card_failed_text) ;;
  modify (set_continueFlag true).

(** *** Actuator Ramp: [rampServo], lines 290-304 *)

Fixpoint ramp_loop (fuel : nat) (setPos step dt : Z) : Cmd unit :=
  match fuel with
  | O => out_of_fuel
  | S fuel' =>
      pos <- gets servoPos ;;
      flag <- gets continueFlag ;;
      if negb (pos =? setPos) && flag then
        modify (set_servoPos (pos + step)) ;;
        servo_write (pos + step) ;;
        delayCheckButton (wrap32 dt) false ;;
        ramp_loop fuel' setPos step dt
      else ret tt
  end.

Definition rampServo (setPos dt : Z) : Cmd unit :=
  pos <- gets servoPos ;;
  let deltaPos := setPos - pos in
  let step := if deltaPos <? 0 then -1 else 1 in
  ramp_loop (S (Z.to_nat (Z.abs deltaPos))) setPos step dt.

(** *** Auto-Detect Probe: [checkServo], lines 307-344 *)

(** Lines 311-324: the skip window, the ramp up, the hold and the ramp
    down; returns [startForce]. *)
Definition probe_sweep : Cmd F :=
  modify (set_continueFlag true) ;;
  printLcd "Checking Servo" "Please Wait" ;;
  delay 2000 ;;
  printLcd "Press Button" "to Skip" ;;
  delayCheckButton 2000 false ;;
  startForce <- get_units 10 ;;
  rampServo 90 60 ;;
  delayCheckButton 1000 false ;;
  f <- get_units 10 ;;
  modify (set_unitForce f) ;;
  rampServo 0 60 ;;
  ret startForce.

(** Lines 325-342.  Every path returns before line 343, so its assignment
    is never run. *)
Definition probe_verdict (startForce : F) : Cmd bool :=
  modify (set_servoPos 0) ;;
  servo_write 0 ;;
  flag <- gets continueFlag ;;
  if negb flag then
    printLcd "Skipped!" EmptyString ;; delay 1000 ;; ret false
  else
    uf <- gets unitForce ;;
    if fltb (of_int MIN_TEST_FORCE) (float_abs (fsub uf startForce)) then
      printLcd "Servo Found!" EmptyString ;; delay 1000 ;; ret true
    else
      printLcd "Servo Not Found!" EmptyString ;; delay 1000 ;; ret false.

Definition checkServo : Cmd bool :=
  startForce <- probe_sweep ;;
  probe_verdict startForce.

(** *** Log file: [writeHeader] and [writeData], lines 347-369 *)

Definition writeHeader : Cmd unit := emit EvHeader.

Definition writeData (time pos : Z) (force : F) : Cmd unit :=
  emit (EvRow time pos force).

(** The bytes that the prints of one event send to the file. *)
Definition crlf : string := String (ascii_of_nat 13) (String (ascii_of_nat 10) EmptyString).

Definition file_text (e : Event) : string :=
  match e with
  | EvHeader => ("millis,servo_pos,force" ++ crlf)%string
  | EvRow time pos force =>
      (dec time ++ "," ++ dec pos ++ "," ++ String_of_float force ++ crlf)%string
  | _ => EmptyString
  end.

(** *** Sequence Filer: [getFileName], lines 372-434 *)

Definition file_number_text : string :=
  nl "File number" (nl "too high!" (nl "Clear SD Card" (nl "or"
    (nl "Press button" "to reset at t_1")))).

(** Lines 398-408 for one entry. *)
Definition scan_entry (maxNum : Z) (entry : DirEntry) : Z :=
  if negb (entryIsDir entry) then
    if isMatchingFormat (entryName entry)
    then Z.max (getFileNum (entryName entry)) maxNum
    else maxNum
  else maxNum.

(** Lines 385-419. *)
Definition scan_directory : Cmd unit :=
  listing <- open_dir ;;
  match listing with
  | Some entries => modify (fun w => set_maxFileNum (fold_left scan_entry entries (maxFileNum w)) w)
  | None => ret tt
  end.

Definition getFileName (fuel : nat) : Cmd string :=
  cached <- gets maxFileNum ;;
  when (cached =? 0) scan_directory ;;
  maxNum <- gets maxFileNum ;;
  let nextFileNum := maxNum + 1 in
  modify (set_maxFileNum nextFileNum) ;;
  nextFileNum <-
    (if nextFileNum >? 999 then
       delay 500 ;;
       modify (set_continueFlag true) ;;
       while fuel continueFlag (printLcdScroll file_number_text) ;;
       modify (set_continueFlag true) ;;
       modify (set_maxFileNum 1) ;;
       ret 1
     else ret nextFileNum) ;;
  ret (formatFileName nextFileNum).

(** *** Test Sequencer: [startTest], [endTest], [stepTest], [setup], [loop] *)

(** Lines 494-504: the step size, the log file, the first notice. *)
Definition open_log (fuel : nat) : Cmd unit :=
  modify (set_servoStep 2) ;;
  card <- gets cardExists ;;
  when card
    (name <- getFileName fuel ;;
     modify (set_activeFileName name) ;;
     ok <- file_open name ;;
     if negb ok then printLcd "Failed to Open " name else writeHeader) ;;
  printLcd "Test Starting..." EmptyString ;;
  delay 3000.

(** Lines 505-514. *)
Definition detect_servo : Cmd unit :=
  checked <- gets servoChecked ;;
  active <- gets servoActive ;;
  when (negb checked && active)
    (found <- checkServo ;;
     modify (set_servoChecked found) ;;
     if found then printLcd "Sweep Starting..." EmptyString ;; delay 2000
     else printLcd "Ready for Input!" EmptyString ;; delay 2000).

(** Lines 515-516. *)
Definition start_clock : Cmd unit :=
  now <- millis ;;
  modify (set_scaleStartTime now) ;;
  modify (set_readTime 0).

(** Lines 490-517. *)
Definition startTest (fuel : nat) : Cmd unit :=
  open_log fuel ;;
  detect_servo ;;
  start_clock.

(** Lines 520-533. *)
Definition endTest : Cmd unit :=
  card <- gets cardExists ;;
  when card (emit EvFileClose) ;;
  printLcd "Test Complete." EmptyString ;;
  delay 2000 ;;
  name <- gets activeFileName ;;
  when card (printLcd "Data Saved to:" name) ;;
  modify (set_maxForce (of_int 0)).

(** Lines 555-571: the two display lines of one sample. *)
Definition force_text (f : F) : string :=
  if fltb (float_abs f) (of_int 100) then dtostrf f 4 1 else dtostrf f 4 0.

Definition forceStringTrimmed (f : F) : string :=
  snprintf 17 ("Force: " ++ c_str (force_text f) ++ " g").

Definition maxStringTrimmed (f : F) : string :=
  snprintf 17 ("Max: " ++ c_str (force_text f) ++ " g").

(** Lines 578-591, compiled in with CONT_SYNC: [true] when the step is
    abandoned by the [return]. *)
Definition sync_or_abort : Cmd bool :=
  if CONT_SYNC cfg then
    ok <- file_sync_ok ;;
    if negb ok then
      printLcd "Write Error" "Aborting Test" ;;
      delay 5000 ;;
      modify (set_continueFlag false) ;;
      checked <- gets servoChecked ;;
      active <- gets servoActive ;;
      when (checked && active)
        (modify (set_servoStep 0) ;;
         modify (set_servoPos 0) ;;
         servo_write 0) ;;
      ret true
    else ret false
  else ret false.

(** Lines 594-604. *)
Definition advance_servo (actualServoPos : Z) : Cmd unit :=
  checked <- gets servoChecked ;;
  active <- gets servoActive ;;
  when (checked && active)
    (pos <- gets servoPos ;;
     step <- gets servoStep ;;
     let pos' := wrap16 (pos + step) in
     modify (set_servoPos pos') ;;
     servo_write actualServoPos ;;
     if pos' >=? maxServoPos then modify (set_servoStep (-2))
     else if pos' <=? 0 then
       modify (set_servoStep 0) ;; modify (set_continueFlag false)
     else ret tt).

(** The expression [(millis() - scaleStartTime) - readTime] of line 546:
    one reading of the clock. *)
Definition elapsed_since_read : Cmd Z :=
  now <- millis ;;
  start <- gets scaleStartTime ;;
  last <- gets readTime ;;
  ret (wrap32 (wrap32 (now - start) - last)).

(** [min(200, e)] at line 546.  [min] is the macro of Arduino.h,
    [((a)<(b)?(a):(b))]: the expression [e] is evaluated for the comparison
    and, when it is the one chosen, once more, so the clock is read a
    second time whenever the first reading does not exceed 200. *)
Definition min_200_elapsed : Cmd Z :=
  first <- elapsed_since_read ;;
  if 200 <? first then ret 200 else elapsed_since_read.

(** Line 546: [waitRemaining], an [unsigned long]. *)
Definition sample_wait : Cmd Z :=
  m <- min_200_elapsed ;;
  ret (wrap32 (SAMPLE_MS - m)).

(** Lines 551-571: note the time, read the force, show it. *)
Definition read_sample : Cmd unit :=
  now <- millis ;;
  start <- gets scaleStartTime ;;
  modify (set_readTime (wrap32 (now - start))) ;;
  force <- get_units 1 ;;
  modify (set_unitForce force) ;;
  modify (fun w => set_maxForce (float_max (unitForce w) (maxForce w)) w) ;;
  force <- gets unitForce ;;
  top <- gets maxForce ;;
  printLcd (forceStringTrimmed force) (maxStringTrimmed top).

(** Lines 546-571: wait for the sample period, then take the sample. *)
Definition take_sample : Cmd unit :=
  waitRemaining <- sample_wait ;;
  when (waitRemaining >? 0) (delayCheckButton waitRemaining true) ;;
  read_sample.

(** Lines 575-592: [true] when the step is abandoned. *)
Definition log_sample (actualServoPos : Z) : Cmd bool :=
  card <- gets cardExists ;;
  if card then
    time <- gets readTime ;;
    force <- gets unitForce ;;
    writeData time actualServoPos force ;;
    sync_or_abort
  else ret false.

(** Lines 536-605. *)
Definition stepTest : Cmd unit :=
  take_sample ;;
  pos <- gets servoPos ;;
  let actualServoPos := Z.min 180 pos in
  aborted <- log_sample actualServoPos ;;
  if aborted then ret tt else advance_servo actualServoPos.

(** Lines 126-134 and 608-623.  Attaching the scale, the button and the
    servo changes nothing that the sketch reads back. *)
Definition setupLcd : Cmd unit :=
  printLcd "Initializing..." EmptyString ;; delay 500.

Definition setup (fuel : nat) : Cmd unit :=
  setupLcd ;;
  setupCard fuel.

Definition ready_text : string :=
  nl "Ready to Test!" (nl " " (nl "Press Button" "to Begin")).

(** Lines 631-641. *)
Definition loop_toggle (fuel : nat) : Cmd unit :=
  flag <- gets continueFlag ;;
  when (negb flag)
    (modify (fun w => set_scaleActive (negb (scaleActive w)) w) ;;
     modify (set_continueFlag true) ;;
     running <- gets scaleActive ;;
     (if running then startTest fuel else endTest ;; delay 5000) ;;
     modify (set_continueFlag true)).

(** Lines 643-647. *)
Definition loop_step : Cmd unit :=
  running <- gets scaleActive ;;
  flag <- gets continueFlag ;;
  if running && flag then stepTest else delayCheckButton 250 false.

(** Lines 627-629. *)
Definition loop_prompt (fuel : nat) : Cmd unit :=
  while fuel (fun w => continueFlag w && negb (scaleActive w))
        (printLcdScroll ready_text).

(** Lines 625-648. *)
Definition loop (fuel : nat) : Cmd unit :=
  loop_prompt fuel ;;
  loop_toggle fuel ;;
  loop_step.

(** The globals at power-on, lines 101-121. *)
Definition power_on : World :=
  {| unitForce := of_int 0; maxForce := of_int 0; buttonState := HIGH;
     continueFlag := true; servoPos := 0; servoStep := 0; scaleActive := false;
     servoChecked := negb (AUTO_TEST cfg); servoActive := AUTO_TEST cfg;
     cardExists := false; scaleStartTime := 0; readTime := 0;
     activeFileName := EmptyString; maxFileNum := 0;
     nreads := O; nmillis := O; nunits := O; nscans := O; nopens := O; nsyncs := O;
     trace := [] |}.

(** [n] passes of [loop]. *)
Fixpoint loops (fuel n : nat) : Cmd unit :=
  match n with
  | O => ret tt
  | S n' => loop fuel ;; loops fuel n'
  end.

(** The sketch from power-on: [setup], then [n] passes of [loop]. *)
Definition run (fuel n : nat) : option World :=
  match (setup fuel ;; loops fuel n) power_on with
  | Some (_, w) => Some w
  | None => None
  end.

End Sketch.

Arguments Event : clear implicits.
Arguments Env : clear implicits.
Arguments World : clear implicits.

(** ** What the claims observe *)

Section Observations.

Context {F : Type} {FO : FloatOps F}.
Variable cfg : Config.
Variable env : Env F.

(** The routines of the sketch that read or write [continueFlag], each run
    as one command.  [SetupCardMount] and [LoopToggle] are the parts of
    [setupCard] and [loop] that assign the flag. *)
Inductive Routine : Type :=
| DelayCheckButton (dt : Z) (full : bool)
| PrintLcdScroll (inputText : string)
| RampServo (setPos dt : Z)
| CheckServo
| GetFileName (fuel : nat)
| StartTest (fuel : nat)
| EndTest
| StepTest
| SetupCardMount
| SetupCard (fuel : nat)
| LoopToggle (fuel : nat)
| Loop (fuel : nat).

Definition exec (r : Routine) : M (World F) unit :=
  match r with
  | DelayCheckButton dt full => delayCheckButton env dt full
  | PrintLcdScroll inputText => printLcdScroll env inputText
  | RampServo setPos dt => rampServo env setPos dt
  | CheckServo => _ <- checkServo env ;; ret tt
  | GetFileName fuel => _ <- getFileName env fuel ;; ret tt
  | StartTest fuel => startTest env fuel
  | EndTest => endTest
  | StepTest => stepTest cfg env
  | SetupCardMount => setupCard_begin env
  | SetupCard fuel => setupCard env fuel
  | LoopToggle fuel => loop_toggle env fuel
  | Loop fuel => loop cfg env fuel
  end.



(** A LOW level of the button was read between two states. *)
Definition pressed_between (w w' : World F) : Prop :=
  exists i, (nreads w <= i < nreads w')%nat /\ digitalRead_in env i = LOW.

(** A forced sync of the log failed between two states. *)
Definition write_error_between (w w' : World F) : Prop :=
  exists i, (nsyncs w <= i < nsyncs w')%nat /\ file_sync_in env i = false.

(** The state in which lines 600-603 leave an automatic sweep that has come
    back down. *)
Definition sweep_ended (w : World F) : Prop :=
  servoChecked w = true /\ servoActive w = true /\
  servoStep w = 0 /\ servoPos w <= 0.

(** Why a routine may return with the flag cleared. *)
Definition cleared_by (r : Routine) (w w' : World F) : Prop :=
  pressed_between w w' \/
  match r with
  | StepTest | Loop _ => write_error_between w w' \/ sweep_ended w'
  | SetupCardMount => sd_begin_in env = true
  | _ => False
  end.

(** The probe announces itself on the first display line. *)
Definition probe_text : string := "Checking Servo".

Definition is_probe (e : Event F) : bool :=
  match e with
  | EvLcdPrint row text => (row =? 0) && String.eqb text probe_text
  | _ => false
  end.

(** How many times the probe has run. *)
Definition probes (w : World F) : nat := List.length (filter is_probe (trace w)).

(** The verdict of the probe that ran between [w] and [w'], lines 329-341:
    the flag is still set at the end, and the reading of the load cell after
    the hold is more than MIN_TEST_FORCE away from the one before the ramp. *)
Definition probe_finds (w w' : World F) : bool :=
  continueFlag w'
  && fltb (of_int MIN_TEST_FORCE)
          (float_abs (fsub (get_units_in env (S (nunits w)))
                           (get_units_in env (nunits w)))).

(** How many times the directory has been listed. *)
Definition is_scan (e : Event F) : bool :=
  match e with EvDirScan => true | _ => false end.

Definition scans (w : World F) : nat := List.length (filter is_scan (trace w)).

(** The servo-position fields of the rows logged so far, newest first. *)
Fixpoint logged_positions (tr : list (Event F)) : list Z :=
  match tr with
  | [] => []
  | EvRow _ pos _ :: tr' => pos :: logged_positions tr'
  | _ :: tr' => logged_positions tr'
  end.

(** The time spent in [delay] so far. *)
Fixpoint delayed (tr : list (Event F)) : Z :=
  match tr with
  | [] => 0
  | EvDelay ms :: tr' => ms + delayed tr'
  | _ :: tr' => delayed tr'
  end.

(** The numbers of the log files in a listing: [getFileNum] of the names
    that are files and that [isMatchingFormat] accepts. *)
Definition listed_numbers (listing : option (list DirEntry)) : list Z :=
  match listing with
  | Some entries =>
      map (fun e => getFileNum (entryName e))
          (filter (fun e => negb (entryIsDir e) && isMatchingFormat (entryName e)) entries)
  | None => []
  end.

(** [m] is the largest number in the listing, 0 when there is none. *)
Definition max_number (listing : option (list DirEntry)) (m : Z) : Prop :=
  (forall n, In n (listed_numbers listing) -> n <= m) /\
  (listed_numbers listing = [] -> m = 0) /\
  (listed_numbers listing <> [] -> In m (listed_numbers listing)).

(** The number that [getFileName] works from at line 421: the cached one,
    or on the first call the result of the scan. *)
Definition last_number (w : World F) : Z :=
  if maxFileNum w =? 0 then
    match dir_in env (nscans w) with
    | Some entries => fold_left scan_entry entries 0
    | None => 0
    end
  else maxFileNum w.

End Observations.

(** ** Relations between the state before and after a command *)

(** A command preserves a relation when every run of it that returns
    relates the state before to the state after. *)
Definition preserves {S A : Type} (R : S -> S -> Prop) (m : M S A) : Prop :=
  forall s a s', m s = Some (a, s') -> R s s'.

Class Pre {S : Type} (R : S -> S -> Prop) : Prop := {
  pre_refl : forall s, R s s;
  pre_trans : forall a b c, R a b -> R b c -> R a c
}.

Section Relations.

Context {F : Type} {FO : FloatOps F}.
Variable env : Env F.

(** The flag is not cleared without a press. *)
Definition flagR (w w' : World F) : Prop :=
  (nreads w <= nreads w')%nat /\
  (continueFlag w' = false -> continueFlag w = false \/ pressed_between env w w').

(** The flag is cleared exactly by a press, and never set. *)
Definition flagIff (w w' : World F) : Prop :=
  (nreads w <= nreads w')%nat /\
  (continueFlag w' = false <-> continueFlag w = false \/ pressed_between env w w').

(** Inputs are only consumed. *)
Definition monoR (w w' : World F) : Prop :=
  (nreads w <= nreads w')%nat /\ (nsyncs w <= nsyncs w')%nat.

(** A view [p] of the state is kept. *)
Definition keeps {A : Type} (p : World F -> A) (w w' : World F) : Prop := p w' = p w.

(** What the waits and the display leave alone. *)
Definition snapshot (w : World F) :=
  (servoPos w, servoStep w, servoChecked w, servoActive w, scaleActive w,
   cardExists w, maxFileNum w, nscans w, nsyncs w,
   logged_positions (trace w), probes w, scans w).

(** The events that [snapshot] does not see. *)
Definition quiet_event (e : Event F) : bool :=
  match e with
  | EvRow _ _ _ | EvDirScan => false
  | _ => negb (is_probe e)
  end.

Definition not_probe_text (s : string) : Prop :=
  String.eqb (c_str s) probe_text = false.

(** What [rampServo], [checkServo], [getFileName], [stepTest] and
    [startTest] leave alone. *)
Definition view_ramp (w : World F) :=
  (servoStep w, servoChecked w, servoActive w, scaleActive w, cardExists w,
   maxFileNum w, nscans w, nsyncs w, logged_positions (trace w), probes w, scans w).

Definition view_probe (w : World F) :=
  (servoStep w, servoChecked w, servoActive w, scaleActive w, cardExists w,
   maxFileNum w, nscans w, nsyncs w, logged_positions (trace w), scans w).

Definition view_file (w : World F) :=
  (servoPos w, servoStep w, servoChecked w, servoActive w, scaleActive w,
   cardExists w, nsyncs w, logged_positions (trace w), probes w).

Definition view_step (w : World F) :=
  (servoChecked w, servoActive w, scaleActive w, cardExists w,
   maxFileNum w, nscans w, probes w, scans w).

Definition view_start (w : World F) :=
  (servoActive w, scaleActive w, cardExists w, nsyncs w, logged_positions (trace w)).

(** What [open_log] leaves alone. *)
Definition view_open_log (w : World F) :=
  (servoPos w, servoChecked w, servoActive w, scaleActive w, cardExists w,
   nsyncs w, logged_positions (trace w), probes w).

(** Once the probe has found the servo it is not run again. *)
Definition probeR (w w' : World F) : Prop :=
  servoChecked w = true -> servoChecked w' = true /\ probes w' = probes w.

(** What the probe decided stands until the next probe. *)
Definition settledR (w w' : World F) : Prop :=
  servoActive w' = servoActive w /\ (probes w <= probes w')%nat /\
  (probes w' = probes w -> servoChecked w' = servoChecked w).

(** A position that the log may hold. *)
Definition in_range (pos : Z) : Prop := 0 <= pos <= 180.

(** The servo position is even and not negative, and a sweep on its way
    down is still above 0. *)
Definition servo_ok (w : World F) : Prop :=
  0 <= servoPos w /\ servoPos w mod 2 = 0 /\
  (servoStep w = 2 \/ servoStep w = 0 \/ (servoStep w = -2 /\ 2 <= servoPos w)).

Definition log_ok (w : World F) : Prop :=
  servo_ok w /\ Forall in_range (logged_positions (trace w)).

Definition log_okR (w w' : World F) : Prop := log_ok w -> log_ok w'.

(** The same while [startTest] runs, where the step is 2. *)
Definition starting (w : World F) : Prop := log_ok w /\ servoStep w = 2.

Definition startingR (w w' : World F) : Prop := starting w -> starting w'.

(** The state in which [getFileName] reaches line 421. *)
Definition after_scan (w : World F) : World F :=
  if maxFileNum w =? 0 then
    let w1 := set_trace (EvDirScan :: trace w) (set_nscans (S (nscans w)) w) in
    match dir_in env (nscans w) with
    | Some entries => set_maxFileNum (fold_left scan_entry entries (maxFileNum w1)) w1
    | None => w1
    end
  else w.

(** Lines 424-431, the wrap-around after a confirmation. *)
Definition confirm_wrap (fuel : nat) : M (World F) Z :=
  delay 500 ;;
  modify (set_continueFlag true) ;;
  while fuel continueFlag (printLcdScroll env file_number_text) ;;
  modify (set_continueFlag true) ;;
  modify (set_maxFileNum 1) ;;
  ret 1.

End Relations.

(** ** A board to run the sketch on

    Forces that are whole numbers, for the concrete runs below. *)

#[global] Instance IntForce : FloatOps Z := {|
  of_int := fun z => z;
  fsub := Z.sub;
  fneg := Z.opp;
  fltb := Z.ltb;
  dtostrf := fun f _ _ => dec f;
  String_of_float := dec
|}.

(** A bench: a button script, a load-cell script and a card with one
    listing, whose files always open and sync. *)
Definition never_pressed : nat -> level := fun _ => HIGH.

Definition pressed_at (reads : list nat) : nat -> level :=
  fun i => if existsb (Nat.eqb i) reads then LOW else HIGH.

Definition bench (button : nat -> level) (force : nat -> Z)
    (listing : option (list DirEntry)) : Env Z :=
  {| digitalRead_in := button;
     millis_in := fun n => 300 * Z.of_nat n;
     get_units_in := force;
     sd_begin_in := true;
     dir_in := fun _ => listing;
     file_open_in := fun _ => true;
     file_sync_in := fun _ => true |}.

Definition file_entry (name : string) : DirEntry :=
  {| entryIsDir := false; entryName := name |}.

(** A card that holds two logs, a text file and a folder. *)
Definition card_12 : option (list DirEntry) :=
  Some [file_entry "t_3.csv"; file_entry "notes.txt"; file_entry "t_12.csv";
        {| entryIsDir := true; entryName := "t_50.csv" |}].

(** A card whose newest log is number 998, and one at 999. *)
Definition card_998 : option (list DirEntry) := Some [file_entry "t_998.csv"].
Definition card_999 : option (list DirEntry) := Some [file_entry "t_7.csv"; file_entry "t_999.csv"].

(** A load cell that reads 0 until the probe has ramped up and 100 after. *)
Definition loaded_after (n : nat) : nat -> Z :=
  fun i => if (i <? n)%nat then 0 else 100.

(** For one number: the name written for it is not cut by the buffer, the
    matcher accepts it, and it parses back to the number. *)
Definition name_checks (k : nat) : bool :=
  let n := Z.of_nat k in
  String.eqb (formatFileName n) ("t_" ++ dec n ++ ".csv")%string
  && isMatchingFormat (formatFileName n)
  && (getFileNum (formatFileName n) =? n).

(** The state that a command returns, for the concrete runs. *)
Definition outcome {A : Type} (o : option (A * World Z)) : World Z :=
  match o with
  | Some (_, w) => w
  | None => power_on shipped
  end.

(** Benches for the concrete runs.  In [bench_found] the load cell reads 0
    before the probe ramps up and 100 after, so the probe finds the servo;
    in [bench_absent] it always reads 0. *)
Definition bench_idle : Env Z := bench never_pressed (fun _ => 0) None.
Definition bench_press : Env Z := bench (pressed_at [0%nat]) (fun _ => 0) None.
Definition bench_found (presses : list nat) : Env Z :=
  bench (pressed_at presses) (loaded_after 1) card_12.
Definition bench_absent (presses : list nat) : Env Z :=
  bench (pressed_at presses) (fun _ => 0) card_12.
Definition bench_card (listing : option (list DirEntry)) : Env Z :=
  bench (pressed_at [0%nat]) (fun _ => 0) listing.

(** A button that is pressed to start the first test, released while the
    probe runs (reads 1 to 421) and then stays down, on a bench whose probe
    finds the servo.  The clock stands still: it plays no part in the
    position of the servo. *)
Definition button_stuck : nat -> level :=
  fun i => if ((i =? 0) || (422 <=? i))%nat then LOW else HIGH.

Definition bench_stuck : Env Z :=
  {| digitalRead_in := button_stuck;
     millis_in := fun _ => 0;
     get_units_in := loaded_after 1;
     sd_begin_in := true;
     dir_in := fun _ => card_12;
     file_open_in := fun _ => true;
     file_sync_in := fun _ => true |}.

(** The position of the servo and the servo-position field of the newest
    row of the log at the end of a run. *)
Fixpoint newest_row_position (tr : list (Event Z)) : option Z :=
  match tr with
  | [] => None
  | EvRow _ pos _ :: _ => Some pos
  | _ :: tr' => newest_row_position tr'
  end.

Definition position_and_newest_row (o : option (World Z)) : option (Z * option Z) :=
  match o with
  | Some w => Some (servoPos w, newest_row_position (trace w))
  | None => None
  end.

(** A state in which the cached file number is 999. *)
Definition card_full : World Z := set_maxFileNum 999 (power_on shipped).

(** The servo writes of a trace, newest first. *)
Fixpoint servo_writes {F : Type} (tr : list (Event F)) : list Z :=
  match tr with
  | [] => []
  | EvServoWrite pos :: tr' => pos :: servo_writes tr'
  | _ :: tr' => servo_writes tr'
  end.

(** ** Further observations *)

(** A string of decimal digits, and the number it writes. *)
Definition all_digits (ds : string) : bool := forallb isdigit (list_ascii_of_string ds).

Definition digits_value (ds : string) : Z :=
  fold_left (fun acc c => 10 * acc + digit_val c) (list_ascii_of_string ds) 0.

(** The names that [isMatchingFormat] accepts: t_, one to four digits, .csv. *)
Definition log_name (t : string) : Prop :=
  exists ds, t = ("t_" ++ ds ++ ".csv")%string /\
             (1 <= String.length ds <= 4)%nat /\ all_digits ds = true.

Section MoreObservations.

Context {F : Type}.

(** The cached file number is not negative, and the directory has been
    listed at most once, and not at all while the number is still 0. *)
Definition scan_ok (w : World F) : Prop :=
  0 <= maxFileNum w /\ (maxFileNum w = 0 -> scans w = 0%nat) /\ (scans w <= 1)%nat.

Definition scan_okR (w w' : World F) : Prop := scan_ok w -> scan_ok w'.

End MoreObservations.

Section TraceObservations.

Context {F : Type}.

(** The events added between two states all satisfy [P]. *)
Definition only (P : Event F -> bool) (w w' : World F) : Prop :=
  exists evs, trace w' = evs ++ trace w /\ forallb P evs = true.

Definition is_display (e : Event F) : bool :=
  match e with EvLcdClear | EvLcdPrint _ _ => true | _ => false end.

Definition is_delay (e : Event F) : bool :=
  match e with EvDelay _ => true | _ => false end.

Definition is_servo_write (e : Event F) : bool :=
  match e with EvServoWrite _ => true | _ => false end.

(** What reaches the card: the listing, and the open, the close and the
    prints of the log file. *)
Definition is_file_event (e : Event F) : bool :=
  match e with
  | EvDirScan | EvFileOpen _ _ | EvFileClose | EvHeader | EvRow _ _ _ => true
  | _ => false
  end.

(** A servo command inside the range of [Servo.write]. *)
Definition servo_in_range (e : Event F) : bool :=
  match e with
  | EvServoWrite pos => (0 <=? pos) && (pos <=? 180)
  | _ => true
  end.

(** Every event of the kind [Q] satisfies [P]. *)
Definition allows (Q P : Event F -> bool) : Prop := forall e, Q e = true -> P e = true.

Definition no_delay (e : Event F) : bool := negb (is_delay e).
Definition no_servo_write (e : Event F) : bool := negb (is_servo_write e).
Definition no_file_event (e : Event F) : bool := negb (is_file_event e).

(** What a ramp may do: wait, and command positions from [lo] to [hi]. *)
Definition ramp_event (lo hi : Z) (e : Event F) : bool :=
  match e with
  | EvDelay _ => true
  | EvServoWrite pos => (lo <=? pos) && (pos <=? hi)
  | _ => false
  end.

(** What the waits, the display and the reads of the clock and the load
    cell leave alone: every global but [buttonState] and [continueFlag], and
    the cards, the files and the servo. *)
Definition frame (w : World F) :=
  (unitForce w, maxForce w, servoPos w, servoStep w, scaleActive w,
   servoChecked w, servoActive w, cardExists w, scaleStartTime w, readTime w,
   activeFileName w, maxFileNum w, nscans w, nopens w, nsyncs w).

Definition quiet (P : Event F -> bool) (w w' : World F) : Prop :=
  only P w w' /\ frame w' = frame w.

(** Waiting and showing, and nothing else. *)
Definition is_idle_event (e : Event F) : bool := is_display e || is_delay e.

(** What one step of a test may do: show and wait, log a row at [pos] when
    there is a card, and command the servo to 0 or to [pos] when it is
    driven. *)
Definition step_event (card driven : bool) (pos : Z) (e : Event F) : bool :=
  match e with
  | EvDelay _ | EvLcdClear | EvLcdPrint _ _ => true
  | EvRow _ p _ => card && (p =? pos)
  | EvServoWrite p => driven && ((p =? 0) || (p =? pos))
  | _ => false
  end.

(** What the start of a test may do: show and wait, list the card and open
    and head the log when there is a card, and command the servo inside its
    range when the probe runs. *)
Definition start_event (card probe : bool) (e : Event F) : bool :=
  match e with
  | EvDelay _ | EvLcdClear | EvLcdPrint _ _ => true
  | EvDirScan | EvFileOpen _ _ | EvHeader => card
  | EvServoWrite p => probe && ((0 <=? p) && (p <=? 180))
  | _ => false
  end.

(** What the end of a test may do. *)
Definition end_event (card : bool) (e : Event F) : bool :=
  match e with
  | EvDelay _ | EvLcdClear | EvLcdPrint _ _ => true
  | EvFileClose => card
  | _ => false
  end.

(** The servo is driven by [stepTest]; the probe is still to run. *)
Definition driven (w : World F) : bool := servoChecked w && servoActive w.
Definition probe_due (w : World F) : bool := negb (servoChecked w) && servoActive w.

(** Until the probe has found the servo, the servo stands at 0. *)
Definition at_rest (w : World F) : Prop := servoChecked w = false -> servoPos w = 0.

(** The command adds only events that satisfy [P] and leaves the servo
    position, the two servo switches and the card switch as they are. *)
Definition touches (P : Event F -> bool) (w w' : World F) : Prop :=
  only P w w' /\ servoPos w' = servoPos w /\ servoChecked w' = servoChecked w /\
  servoActive w' = servoActive w /\ cardExists w' = cardExists w.

(** The same, but the position may change while the servo is driven. *)
Definition steps (P : Event F -> bool) (w w' : World F) : Prop :=
  only P w w' /\ servoChecked w' = servoChecked w /\
  servoActive w' = servoActive w /\ cardExists w' = cardExists w /\
  (driven w = false -> servoPos w' = servoPos w).

(** From a state that satisfies [G] the command leads to one that does, and
    adds only events that satisfy [P]. *)
Definition guarded (G : World F -> Prop) (P : Event F -> bool) (w w' : World F) : Prop :=
  G w -> G w' /\ only P w w'.

(** What holds of every state of a run: the servo at rest until it is
    found, no card when none was mounted ([nocard]), and a servo that is
    never driven in a build without AUTO_TEST ([manual]).  And, while the
    position cannot yet have left [int] ([ranged], with [k] passes of [loop]
    so far), the servo invariant of the log with the position at most
    [2 * k]: a pass adds at most 2 to the position, so that the sum of line
    595 stays inside [int] for the first 16383 passes. *)
Definition mode_ok (nocard manual ranged : bool) (k : Z) (w : World F) : Prop :=
  (ranged = true -> log_ok w /\ servoPos w <= 2 * k) /\ at_rest w /\
  (nocard = true -> cardExists w = false) /\
  (manual = true -> servoActive w = false /\ servoPos w = 0).

(** What a run may then do. *)
Definition mode_event (nocard manual ranged : bool) (e : Event F) : bool :=
  implb ranged (servo_in_range e) && implb nocard (no_file_event e)
  && implb manual (no_servo_write e).

(** The time spent waiting between two states is at least 0 and at most [d]. *)
Definition within (d : Z) (w w' : World F) : Prop :=
  0 <= delayed (trace w') - delayed (trace w) <= d.

End TraceObservations.

(** Line 546, from the two values that [(millis() - scaleStartTime) -
    readTime] takes at its two evaluations: the rest of the sample period. *)
Definition waitRemaining (first second : Z) : Z :=
  wrap32 (SAMPLE_MS - (if 200 <? first then 200 else second)).

(** How many times line 546 reads the clock, from the first value. *)
Definition clock_reads (first : Z) : nat := if 200 <? first then 1%nat else 2%nat.

(** The value of [(millis() - scaleStartTime) - readTime] in state [w] at
    the [i]-th reading of the clock. *)
Definition elapsed_at {F : Type} (env : Env F) (w : World F) (i : nat) : Z :=
  wrap32 (wrap32 (wrap32 (millis_in env i) - scaleStartTime w) - readTime w).

(** The clock holds still enough for line 546: when its next reading
    leaves at most 200 ms elapsed, the reading after that leaves at most
    250, that is, the clock has advanced by at most 50 ms in between. *)
Definition steady_sample {F : Type} (env : Env F) (w : World F) : Prop :=
  elapsed_at env w (nmillis w) <= 200 -> elapsed_at env w (S (nmillis w)) <= 250.

(** Total correctness: from a state that satisfies [I] the command returns,
    in a state that satisfies [I] and is related to the first one by [R]. *)
Definition total {S A : Type} (R : S -> S -> Prop) (I : S -> Prop) (m : M S A) : Prop :=
  forall s, I s -> exists a s', m s = Some (a, s') /\ R s s' /\ I s'.

Definition returns {S A : Type} (m : M S A) : Prop :=
  forall s, exists a s', m s = Some (a, s').

(** The servo position is inside the range of [Servo.write]. *)
Definition servo_bounded {F : Type} (w : World F) : Prop := 0 <= servoPos w <= 180.

(** The position of an automatic sweep after [k] steps: up by 2 to
    [maxServoPos] = 192, then down by 2 to 0. *)
Definition sweep_position (k : Z) : Z := if k <=? 96 then 2 * k else 384 - 2 * k.

(** The state of a running sweep after [k] steps. *)
Definition sweep_at {F : Type} (k : Z) (w : World F) : Prop :=
  scaleActive w = true /\ driven w = true /\
  servoPos w = sweep_position k /\
  servoStep w = (if k <? 96 then 2 else if k <? 192 then -2 else 0) /\
  continueFlag w = (k <? 192).

(** What an uninterrupted step of a sweep depends on and changes. *)
Definition sweep_view {F : Type} (w : World F) :=
  (servoPos w, servoStep w, continueFlag w, servoChecked w, servoActive w,
   scaleActive w, nreads w).

(** The load cell as the sketch sees it: the readings taken so far and
    the last force stored. *)
Definition cell_view {F : Type} (w : World F) := (nunits w, unitForce w).

(** The relation that holds of any two states. *)
Definition anyR {S : Type} (s s' : S) : Prop := True.

(** The values of an [int] of the board, 16 bits wide. *)
Definition int_range (z : Z) : Prop := -32768 <= z <= 32767.

(** ** The calibration sketch: the entry of the weight

    Lines 62-74 of [calibration.ino].  [input] holds the bytes that arrive
    on the serial line after the flush of line 59, in order.  The loop polls
    until the byte at the head of the receive buffer is a newline, which it
    leaves there; every other byte is read, and a digit is shifted into
    [weight], a [uint32_t].  A line that never ends keeps the loop polling:
    no result. *)
Module Calibration.

Fixpoint read_weight (input : list ascii) (weight : Z) : option (Z * list ascii) :=
  match input with
  | [] => None
  | ch :: rest =>
      if Ascii.eqb ch newline then Some (weight, input)
      else if isdigit ch then
        read_weight rest (wrap32 (wrap32 (weight * 10) + digit_val ch))
      else read_weight rest weight
  end.

(** Line 62: the entry starts from 0. *)
Definition enter_weight (input : list ascii) : option (Z * list ascii) :=
  read_weight input 0.

(** The digits of a line. *)
Definition digits_of (line : list ascii) : string :=
  string_of_list_ascii (filter isdigit line).

Definition no_newline (line : list ascii) : Prop :=
  forall c, In c line -> Ascii.eqb c newline = false.

End Calibration.

(** ** More benches *)

(** A board without a card. *)
Definition bench_bare (button : nat -> level) : Env Z :=
  {| digitalRead_in := button;
     millis_in := fun n => 300 * Z.of_nat n;
     get_units_in := fun _ => 0;
     sd_begin_in := false;
     dir_in := fun _ => None;
     file_open_in := fun _ => false;
     file_sync_in := fun _ => false |}.

(** The build without AUTO_TEST. *)
Definition manual_build : Config := {| AUTO_TEST := false; CONT_SYNC := false |}.

(** The state in which an automatic sweep starts: line 515 has read the
    clock once. *)
Definition sweep_start : World Z :=
  set_nmillis 1 (set_servoStep 2 (set_servoChecked true
                                    (set_scaleActive true (power_on shipped)))).

(** The states that the concrete runs below end in. *)
Definition after_three_passes : World Z :=
  outcome (loops shipped (bench_found [0%nat]) 5 3
             (outcome (setup (bench_found [0%nat]) 5 (power_on shipped)))).

Definition after_bare_pass : World Z :=
  outcome (loops shipped (bench_bare (pressed_at [0%nat; 2%nat])) 5 1
             (outcome (setup (bench_bare (pressed_at [0%nat; 2%nat])) 5 (power_on shipped)))).

Definition after_manual_passes : World Z :=
  outcome (loops manual_build (bench_found [0%nat]) 5 3
             (outcome (setup (bench_found [0%nat]) 5 (power_on manual_build)))).

Definition after_first_step : World Z :=
  outcome (stepTest shipped bench_idle sweep_start).

Definition after_start : World Z :=
  outcome (startTest bench_idle 5 (power_on shipped)).

Definition after_first_pass : World Z :=
  outcome (loop shipped bench_press 5 (power_on shipped)).

Definition after_probe : World Z :=
  outcome (checkServo (bench_found []) (power_on shipped)).

(** After 95 passes the sweep holds at full throttle, with the position
    above 180; after 192 passes it has come back down. *)
Definition after_hold : World Z :=
  outcome (loops shipped (bench_found [0%nat]) 5 95
             (outcome (setup (bench_found [0%nat]) 5 (power_on shipped)))).

Definition after_sweep : World Z :=
  outcome (loops shipped (bench_found [0%nat]) 5 192
             (outcome (setup (bench_found [0%nat]) 5 (power_on shipped)))).

Definition after_profile : World Z :=
  outcome (loops shipped bench_idle 1 192 sweep_start).
(** * Properties *)

(** ** Reasoning about commands *)

Lemma bind_inv {S A B : Type} (m : M S A) (k : A -> M S B) (s s' : S) (b : B) :
  bind m k s = Some (b, s') ->
  exists a s1, m s = Some (a, s1) /\ k a s1 = Some (b, s').
Proof.
  unfold bind. destruct (m s) as [[a s1]|]; [|discriminate].
  intros H. exists a, s1. split; [reflexivity | exact H].
Qed.

Lemma if_inv {S A : Type} (b : bool) (m1 m2 : M S A) (s : S) (r : option (A * S)) :
  (if b then m1 else m2) s = r ->
  (b = true /\ m1 s = r) \/ (b = false /\ m2 s = r).
Proof. destruct b; auto. Qed.

Lemma when_inv {S : Type} (b : bool) (m : M S unit) (s s' : S) :
  when b m s = Some (tt, s') ->
  (b = true /\ m s = Some (tt, s')) \/ (b = false /\ s' = s).
Proof.
  destruct b; simpl; [auto|]. intros H. inversion H. auto.
Qed.

Lemma ret_inv {S A : Type} (a b : A) (s s' : S) :
  ret a s = Some (b, s') -> b = a /\ s' = s.
Proof. intros H. inversion H. auto. Qed.

Lemma gets_inv {S A : Type} (f : S -> A) (a : A) (s s' : S) :
  gets f s = Some (a, s') -> a = f s /\ s' = s.
Proof. intros H. inversion H. auto. Qed.

Lemma modify_inv {S : Type} (f : S -> S) (s s' : S) (u : unit) :
  modify f s = Some (u, s') -> s' = f s.
Proof. intros H. inversion H. auto. Qed.

Section Preserves.

Context {S : Type} (R : S -> S -> Prop) {HR : Pre R}.

Lemma preserves_ret {A : Type} (a : A) : preserves R (ret a).
Proof. intros s x s' H. inversion H; subst. apply pre_refl. Qed.

Lemma preserves_gets {A : Type} (f : S -> A) : preserves R (gets f).
Proof. intros s x s' H. inversion H; subst. apply pre_refl. Qed.

Lemma preserves_out_of_fuel {A : Type} : preserves R (@out_of_fuel S A).
Proof. intros s x s' H. discriminate H. Qed.

Lemma preserves_modify (f : S -> S) :
  (forall s, R s (f s)) -> preserves R (modify f).
Proof. intros Hf s x s' H. inversion H; subst. apply Hf. Qed.

Lemma preserves_bind {A B : Type} (m : M S A) (k : A -> M S B) :
  preserves R m -> (forall a, preserves R (k a)) -> preserves R (bind m k).
Proof.
  intros Hm Hk s b s' H. apply bind_inv in H. destruct H as (a & s1 & H1 & H2).
  eapply pre_trans; [eapply Hm; eassumption | eapply Hk; eassumption].
Qed.

Lemma preserves_when (b : bool) (m : M S unit) :
  preserves R m -> preserves R (when b m).
Proof. intros Hm. destruct b; simpl; [exact Hm | apply preserves_ret]. Qed.

Lemma preserves_while (fuel : nat) (cond : S -> bool) (body : M S unit) :
  preserves R body -> preserves R (while fuel cond body).
Proof.
  intros Hb. induction fuel as [|fuel IH]; simpl.
  - apply preserves_out_of_fuel.
  - apply preserves_bind; [apply preserves_gets|].
    intros c. destruct c; [|apply preserves_ret].
    apply preserves_bind; [exact Hb | intros _; exact IH].
Qed.

End Preserves.

(** Unfolds the command at the head of [H : m s = r] through an equation
    between commands, so that the state is not computed on. *)
Ltac expose H :=
  match type of H with
  | ?m ?s = ?r =>
      let m' := (eval red in m) in
      let E := fresh "E" in
      assert (E : m = m') by reflexivity; rewrite E in H; clear E
  end.

(** Splits a goal [preserves R m] along the structure of [m]; what is left
    are the calls and the state updates. *)
Ltac pres_step :=
  match goal with
  | |- Pre _ => typeclasses eauto
  | |- forall _, preserves _ _ => intro
  | |- preserves _ (bind _ _) => apply preserves_bind
  | |- preserves _ (ret _) => apply preserves_ret
  | |- preserves _ (gets _) => apply preserves_gets
  | |- preserves _ out_of_fuel => apply preserves_out_of_fuel
  | |- preserves _ (when _ _) => apply preserves_when
  | |- preserves _ (while _ _ _) => apply preserves_while
  | |- preserves _ (modify _) => apply preserves_modify; intro
  | |- preserves _ (if ?b then _ else _) => destruct b
  | |- preserves _ (match ?l with HIGH => _ | LOW => _ end) => destruct l
  | |- preserves _ (match ?o with Some _ => _ | None => _ end) => destruct o
  end.

Ltac pres := repeat pres_step.

Section Proofs.

Context {F : Type} {FO : FloatOps F}.
Variable cfg : Config.
Variable env : Env F.

Lemma pressed_between_mono (a b c d : World F) :
  (nreads a <= nreads b)%nat -> (nreads c <= nreads d)%nat ->
  (pressed_between env) b c -> (pressed_between env) a d.
Proof. intros H1 H2 (i & Hi & HL). exists i. split; [lia | exact HL]. Qed.

Lemma pressed_between_split (a b c : World F) :
  (pressed_between env) a c -> (pressed_between env) a b \/ (pressed_between env) b c.
Proof.
  intros (i & Hi & HL). destruct (Nat.lt_ge_cases i (nreads b)).
  - left. exists i. split; [lia | exact HL].
  - right. exists i. split; [lia | exact HL].
Qed.

Lemma pressed_between_empty (a b : World F) :
  nreads b = nreads a -> ~ (pressed_between env) a b.
Proof. intros E (i & Hi & _). lia. Qed.

#[local] Instance flagR_pre : Pre (flagR env).
Proof.
  split.
  - intros s. split; [lia | auto].
  - intros a b c [Hab1 Hab2] [Hbc1 Hbc2]. split; [lia|].
    intros Hc. destruct (Hbc2 Hc) as [Hb | Hp].
    + destruct (Hab2 Hb) as [Ha | Hp]; [auto|].
      right. apply (pressed_between_mono a a b c); auto.
    + right. apply (pressed_between_mono a b c c); auto.
Qed.

#[local] Instance flagIff_pre : Pre (flagIff env).
Proof.
  split.
  - intros s. split; [lia|]. split; [auto|].
    intros [H|H]; [exact H|]. exfalso. revert H. apply pressed_between_empty. reflexivity.
  - intros a b c [Hab1 Hab2] [Hbc1 Hbc2]. split; [lia|]. split.
    + intros Hc. apply Hbc2 in Hc. destruct Hc as [Hb | Hp].
      * apply Hab2 in Hb. destruct Hb as [Ha | Hp]; [auto|].
        right. apply (pressed_between_mono a a b c); auto.
      * right. apply (pressed_between_mono a b c c); auto.
    + intros [Ha | Hp].
      * apply Hbc2. left. apply Hab2. left. exact Ha.
      * apply Hbc2. destruct (pressed_between_split a b c Hp) as [H|H].
        -- left. apply Hab2. right. exact H.
        -- right. exact H.
Qed.

Lemma flagIff_flagR (w w' : World F) : (flagIff env) w w' -> (flagR env) w w'.
Proof. intros [H1 H2]. split; [exact H1 | apply H2]. Qed.

Lemma preserves_weaken {A : Type} (R R' : World F -> World F -> Prop) (m : M (World F) A) :
  (forall w w', R w w' -> R' w w') -> preserves R m -> preserves R' m.
Proof. intros HRR Hm w a w' H. apply HRR. eapply Hm. exact H. Qed.

(** A state update that touches neither the flag nor the read count. *)
Lemma flagIff_frame (w w' : World F) :
  nreads w' = nreads w -> continueFlag w' = continueFlag w -> (flagIff env) w w'.
Proof.
  intros Hn Hf. split; [lia|]. rewrite Hf. split; [auto|].
  intros [H|H]; [exact H|]. exfalso. revert H. apply pressed_between_empty. exact Hn.
Qed.

Ltac flag_frame := apply flagIff_frame; reflexivity.

Lemma flagIff_emit e : preserves (flagIff env) (emit e).
Proof. unfold emit. pres. flag_frame. Qed.

Lemma flagIff_printLcd a b : preserves (flagIff env) (printLcd a b).
Proof. unfold printLcd. pres; apply flagIff_emit. Qed.

Lemma flagIff_press (w : World F) (l : level) :
  digitalRead_in env (nreads w) = LOW ->
  (flagIff env) w (set_continueFlag false (set_buttonState l (set_nreads (S (nreads w)) w))).
Proof.
  intros E. split; simpl; [lia|]. split; [|reflexivity].
  intros _. right. exists (nreads w). simpl. split; [lia | exact E].
Qed.

Lemma flagIff_read_HIGH (w : World F) (l : level) :
  digitalRead_in env (nreads w) = HIGH ->
  (flagIff env) w (set_buttonState l (set_nreads (S (nreads w)) w)).
Proof.
  intros E. split; simpl; [lia|]. split; [auto|].
  intros [H | (i & Hi & HL)]; [exact H|]. simpl in Hi.
  assert (i = nreads w) by lia. subst i. congruence.
Qed.

Lemma flagIff_wait_press fuel dt total :
  preserves (flagIff env) (wait_press env fuel dt total).
Proof.
  revert total. induction fuel as [|fuel IH]; intros total w x w' H.
  - discriminate H.
  - cbn in H. destruct ((total <? dt) && continueFlag w).
    + cbn in H. destruct (digitalRead_in env (nreads w)) eqn:E.
      * eapply pre_trans; [apply (flagIff_read_HIGH w HIGH E)|].
        apply bind_inv in H. destruct H as ([] & w1 & H1 & H2).
        eapply pre_trans; [eapply flagIff_emit; exact H1 | eapply IH; exact H2].
      * cbn in H. inversion H; subst; clear H. apply flagIff_press. exact E.
    + inversion H; subst. apply pre_refl.
Qed.

(** In the second loop a LOW level is only read when the flag is already
    cleared or the wait is a full one; the relation is stated with the
    button state to carry this through the loop. *)
Lemma flagIff_wait_release fuel dt total full (w w' : World F) :
  wait_release env fuel dt total full w = Some (tt, w') ->
  (nreads w <= nreads w')%nat /\ continueFlag w' = continueFlag w.
Proof.
  revert total w. induction fuel as [|fuel IH]; intros total w H.
  - discriminate H.
  - cbn in H. destruct ((total <? dt) && (full || is_LOW (buttonState w))).
    + cbn in H. destruct (digitalRead_in env (nreads w)) eqn:E.
      * inversion H; subst; simpl. split; [lia | reflexivity].
      * apply bind_inv in H. destruct H as ([] & w1 & H1 & H2).
        inversion H1; subst; clear H1. apply IH in H2. simpl in H2.
        destruct H2 as [H2 H3]. split; [lia | exact H3].
    + inversion H; subst. split; [lia | reflexivity].
Qed.

Lemma wait_press_exit fuel dt total (w w1 : World F) (t : Z) :
  wait_press env fuel dt total w = Some (t, w1) ->
  dt <= t \/ continueFlag w1 = false.
Proof.
  revert total w. induction fuel as [|fuel IH]; intros total w H.
  - discriminate H.
  - cbn in H. destruct (total <? dt) eqn:Et; simpl in H.
    + destruct (continueFlag w) eqn:Ef.
      * cbn in H. destruct (digitalRead_in env (nreads w)).
        -- apply bind_inv in H. destruct H as ([] & w2 & _ & H2).
           eapply IH; exact H2.
        -- cbn in H. inversion H; subst. right. reflexivity.
      * inversion H; subst. right. exact Ef.
    + inversion H; subst. left. apply Z.ltb_ge. exact Et.
Qed.

Lemma wait_release_done fuel dt total full (w : World F) :
  dt <= total -> wait_release env (S fuel) dt total full w = Some (tt, w).
Proof.
  intros Hd. cbn. apply Z.ltb_ge in Hd. rewrite Hd. reflexivity.
Qed.

Lemma flagIff_delayCheckButton dt full :
  preserves (flagIff env) (delayCheckButton env dt full).
Proof.
  intros w [] w' H. unfold delayCheckButton in H.
  apply bind_inv in H. destruct H as ([] & w0 & H0 & H).
  apply bind_inv in H. destruct H as (t & w1 & H1 & H2).
  inversion H0; subst; clear H0.
  apply (pre_trans _ (set_buttonState HIGH w)); [apply flagIff_frame; reflexivity|].
  apply (pre_trans _ w1); [eapply flagIff_wait_press; exact H1|].
  destruct (wait_press_exit _ _ _ _ _ _ H1) as [Hd | Hf].
  - unfold polls in H2. rewrite wait_release_done in H2 by exact Hd.
    inversion H2; subst. apply pre_refl.
  - apply flagIff_wait_release in H2. destruct H2 as [Hn Hc].
    split; [exact Hn|]. rewrite Hc. split; [auto|]. intros _. exact Hf.
Qed.

Create HintDb flagdb.
#[local] Hint Resolve flagIff_emit flagIff_printLcd flagIff_delayCheckButton : flagdb.

Lemma flagIff_scroll tokens : preserves (flagIff env) (scroll env tokens).
Proof.
  assert (H : forall n tokens, (List.length tokens <= n)%nat ->
                               preserves (flagIff env) (scroll env tokens)).
  { induction n as [|n IH]; intros [|t1 [|t2 rest]] Hl; simpl in *;
      pres; auto with flagdb; try lia.
    apply IH. lia. }
  apply (H (List.length tokens)). lia.
Qed.

Lemma flagIff_printLcdScroll text : preserves (flagIff env) (printLcdScroll env text).
Proof. apply flagIff_scroll. Qed.

Lemma flagIff_ramp_loop fuel setPos step dt :
  preserves (flagIff env) (ramp_loop env fuel setPos step dt).
Proof.
  induction fuel as [|fuel IH]; simpl; pres; auto with flagdb;
    try flag_frame. apply flagIff_emit.
Qed.

Lemma flagIff_rampServo setPos dt : preserves (flagIff env) (rampServo env setPos dt).
Proof. unfold rampServo. pres. apply flagIff_ramp_loop. Qed.

(** *** The weaker relation, for the routines that also set the flag *)

Lemma flagR_of_flagIff {A : Type} (m : M (World F) A) :
  preserves (flagIff env) m -> preserves (flagR env) m.
Proof. apply preserves_weaken. exact flagIff_flagR. Qed.

Ltac flagR_update :=
  solve [ split; simpl; [lia | first [ intros; left; assumption | discriminate ] ] ].

#[local] Hint Resolve flagIff_printLcdScroll flagIff_rampServo : flagdb.
#[local] Hint Extern 1 (preserves (flagR env) _) =>
  apply flagR_of_flagIff; solve [auto with flagdb] : flagdb.

Ltac flagR_auto := pres; first [ flagR_update | solve [auto with flagdb] | idtac ].

Lemma flagR_read_only {A : Type} (f : World F -> option (A * World F)) :
  (forall w a w', f w = Some (a, w') ->
     nreads w' = nreads w /\ continueFlag w' = continueFlag w) ->
  preserves (flagR env) f.
Proof.
  intros Hf w a w' H. apply Hf in H. destruct H as [Hn Hc].
  apply flagIff_flagR. apply flagIff_frame; assumption.
Qed.

Lemma flagR_millis : preserves (flagR env) (millis env).
Proof. apply flagR_read_only. intros w a w' H. inversion H; subst. auto. Qed.

Lemma flagR_get_units n : preserves (flagR env) (get_units env n).
Proof. apply flagR_read_only. intros w a w' H. inversion H; subst. auto. Qed.

Lemma flagR_open_dir : preserves (flagR env) (open_dir env).
Proof. apply flagR_read_only. intros w a w' H. inversion H; subst. auto. Qed.

Lemma flagR_file_open name : preserves (flagR env) (file_open env name).
Proof. apply flagR_read_only. intros w a w' H. inversion H; subst. auto. Qed.

#[local] Hint Resolve flagR_millis flagR_get_units flagR_open_dir flagR_file_open : flagdb.

Lemma flagR_checkServo : preserves (flagR env) (checkServo env).
Proof. unfold checkServo, probe_sweep, probe_verdict, servo_write, delay. flagR_auto. Qed.

Lemma flagR_getFileName fuel : preserves (flagR env) (getFileName env fuel).
Proof. unfold getFileName, scan_directory, delay. flagR_auto. Qed.

#[local] Hint Resolve flagR_checkServo flagR_getFileName : flagdb.

Lemma flagR_startTest fuel : preserves (flagR env) (startTest env fuel).
Proof. unfold startTest, open_log, detect_servo, start_clock, writeHeader, delay. flagR_auto. Qed.

Lemma flagR_endTest : preserves (flagR env) endTest.
Proof. unfold endTest, delay. flagR_auto. Qed.

#[local] Hint Resolve flagR_startTest flagR_endTest : flagdb.

Lemma flagR_loop_toggle fuel : preserves (flagR env) (loop_toggle env fuel).
Proof. unfold loop_toggle, delay. flagR_auto. Qed.


(** ** What the waits and the display leave alone *)

#[local] Instance keeps_pre {A : Type} (p : World F -> A) : Pre (keeps p).
Proof. split; unfold keeps; [reflexivity | intros; congruence]. Qed.


Lemma snapshot_event (e : Event F) (w : World F) :
  quiet_event e = true -> snapshot (set_trace (e :: trace w) w) = snapshot w.
Proof.
  intros He. unfold snapshot, probes, scans. simpl.
  destruct e; simpl in *; try discriminate; try reflexivity.
  apply negb_true_iff in He. rewrite He. reflexivity.
Qed.

Lemma keeps_emit (e : Event F) :
  quiet_event e = true -> preserves (keeps (@snapshot F)) (emit e).
Proof.
  intros He w x w' H. inversion H; subst. apply snapshot_event. exact He.
Qed.

Lemma keeps_printLcd a b :
  not_probe_text a -> preserves (keeps (@snapshot F)) (printLcd a b).
Proof.
  intros Ha. unfold printLcd. pres; apply keeps_emit; try reflexivity.
  simpl. rewrite Ha. reflexivity.
Qed.

Ltac snap_update := solve [ unfold keeps; reflexivity ].

Lemma keeps_digitalRead : preserves (keeps (@snapshot F)) (digitalRead env).
Proof. intros w x w' H. inversion H; subst. reflexivity. Qed.

Lemma keeps_wait_press fuel dt total :
  preserves (keeps (@snapshot F)) (wait_press env fuel dt total).
Proof.
  revert total. induction fuel as [|fuel IH]; intros total; simpl; pres;
    try snap_update; try apply keeps_digitalRead; try apply IH.
  apply keeps_emit. reflexivity.
Qed.

Lemma keeps_wait_release fuel dt total full :
  preserves (keeps (@snapshot F)) (wait_release env fuel dt total full).
Proof.
  revert total. induction fuel as [|fuel IH]; intros total; simpl; pres;
    try snap_update; try apply keeps_digitalRead; try apply IH.
  apply keeps_emit. reflexivity.
Qed.

Lemma keeps_delayCheckButton dt full :
  preserves (keeps (@snapshot F)) (delayCheckButton env dt full).
Proof.
  unfold delayCheckButton. pres; try snap_update.
  - apply keeps_wait_press.
  - apply keeps_wait_release.
Qed.

Lemma keeps_scroll tokens :
  Forall not_probe_text tokens -> preserves (keeps (@snapshot F)) (scroll env tokens).
Proof.
  assert (H : forall n tokens, (List.length tokens <= n)%nat ->
              Forall not_probe_text tokens ->
              preserves (keeps (@snapshot F)) (scroll env tokens)).
  { induction n as [|n IH]; intros [|t1 [|t2 rest]] Hl Hp; simpl in *;
      pres; try lia; try apply keeps_delayCheckButton;
      try (apply keeps_printLcd; first [ reflexivity | inversion Hp; assumption ]).
    apply IH; [lia|]. inversion Hp as [|? ? _ Hp']. inversion Hp'. assumption. }
  intros Hp. apply (H (List.length tokens)); [lia | exact Hp].
Qed.

Lemma keeps_delay ms : preserves (keeps (@snapshot F)) (delay ms).
Proof. apply keeps_emit. reflexivity. Qed.

Lemma keeps_servo_write pos : preserves (keeps (@snapshot F)) (servo_write pos).
Proof. apply keeps_emit. reflexivity. Qed.

Lemma keeps_millis : preserves (keeps (@snapshot F)) (millis env).
Proof. intros w x w' H. inversion H; subst. reflexivity. Qed.

Lemma keeps_get_units n : preserves (keeps (@snapshot F)) (get_units env n).
Proof. intros w x w' H. inversion H; subst. reflexivity. Qed.

Lemma keeps_file_open name : preserves (keeps (@snapshot F)) (file_open env name).
Proof. intros w x w' H. inversion H; subst. reflexivity. Qed.

Lemma keeps_ready : preserves (keeps (@snapshot F)) (printLcdScroll env ready_text).
Proof. apply keeps_scroll. repeat constructor. Qed.

Lemma keeps_card_failed : preserves (keeps (@snapshot F)) (printLcdScroll env card_failed_text).
Proof. apply keeps_scroll. repeat constructor. Qed.

Lemma keeps_file_number : preserves (keeps (@snapshot F)) (printLcdScroll env file_number_text).
Proof. apply keeps_scroll. repeat constructor. Qed.

(** *** What each routine keeps *)

Lemma preserves_from {A X : Type} (p : World F -> A) (R : World F -> World F -> Prop)
      (m : M (World F) X) :
  preserves (keeps p) m -> (forall w w', p w' = p w -> R w w') -> preserves R m.
Proof. intros Hm Hv w x w' H. apply Hv. eapply Hm. exact H. Qed.

Create HintDb keepdb.
#[local] Hint Resolve keeps_emit keeps_printLcd keeps_digitalRead keeps_delayCheckButton
  keeps_delay keeps_servo_write keeps_millis keeps_get_units keeps_file_open
  keeps_ready keeps_card_failed keeps_file_number : keepdb.
#[local] Hint Extern 1 (not_probe_text _) => reflexivity : keepdb.
#[local] Hint Extern 1 (quiet_event _ = true) => reflexivity : keepdb.

Ltac view_open :=
  unfold keeps, snapshot, view_ramp, view_probe, view_file, view_step, view_start,
    view_open_log in *.

Ltac view_tac :=
  let Hv := fresh "Hv" in
  intros ? ? Hv; view_open; inversion Hv; congruence.

Ltac keep_call :=
  eapply preserves_from; [ solve [auto with keepdb] | view_tac ].

Ltac keep_auto := pres; first [ solve [view_open; reflexivity] | keep_call | idtac ].

Lemma keeps_ramp_loop fuel setPos step dt :
  preserves (keeps (@view_ramp F)) (ramp_loop env fuel setPos step dt).
Proof.
  induction fuel as [|fuel IH]; simpl; keep_auto. exact IH.
Qed.

Lemma keeps_rampServo setPos dt : preserves (keeps (@view_ramp F)) (rampServo env setPos dt).
Proof. unfold rampServo. pres. apply keeps_ramp_loop. Qed.

#[local] Hint Resolve keeps_rampServo : keepdb.

Lemma keeps_endTest : preserves (keeps (@snapshot F)) endTest.
Proof. unfold endTest. keep_auto. Qed.

Lemma keeps_checkServo : preserves (keeps (@view_probe F)) (checkServo env).
Proof.
  unfold checkServo, probe_sweep, probe_verdict. keep_auto.
  unfold printLcd. keep_auto.
  all: intros w x w' H; inversion H; subst; reflexivity.
Qed.

Lemma keeps_open_dir : preserves (keeps (@view_file F)) (open_dir env).
Proof. intros w x w' H; inversion H; subst; reflexivity. Qed.

Lemma keeps_getFileName fuel : preserves (keeps (@view_file F)) (getFileName env fuel).
Proof.
  unfold getFileName, scan_directory. keep_auto. apply keeps_open_dir.
Qed.

#[local] Hint Resolve keeps_endTest keeps_checkServo keeps_getFileName : keepdb.

Lemma keeps_startTest fuel : preserves (keeps (@view_start F)) (startTest env fuel).
Proof. unfold startTest, open_log, detect_servo, start_clock, writeHeader. keep_auto. Qed.

Lemma keeps_stepTest : preserves (keeps (@view_step F)) (stepTest cfg env).
Proof.
  unfold stepTest, take_sample, sample_wait, min_200_elapsed, elapsed_since_read, read_sample, log_sample, sync_or_abort, advance_servo, writeData. keep_auto.
  all: intros w x w' H; inversion H; subst; reflexivity.
Qed.


(** ** Where the flag is cleared and where it is set again *)

Lemma keeps_take_sample : preserves (keeps (@snapshot F)) (take_sample env).
Proof. unfold take_sample, sample_wait, min_200_elapsed, elapsed_since_read, read_sample. keep_auto. Qed.

Lemma flagR_take_sample : preserves (flagR env) (take_sample env).
Proof. unfold take_sample, sample_wait, min_200_elapsed, elapsed_since_read, read_sample. flagR_auto. Qed.

Lemma nsyncs_of_snapshot (w w' : World F) : snapshot w' = snapshot w -> nsyncs w' = nsyncs w.
Proof. unfold snapshot. intros H. inversion H. reflexivity. Qed.

Lemma write_error_between_mono (a b c d : World F) :
  (nsyncs a <= nsyncs b)%nat -> (nsyncs c <= nsyncs d)%nat ->
  write_error_between env b c -> write_error_between env a d.
Proof. intros H1 H2 (i & Hi & HL). exists i. split; [lia | exact HL]. Qed.

(** No routine gives back an input that it has consumed. *)
Lemma monoR_pre : Pre (@monoR F).
Proof. split; unfold monoR; intros; lia. Qed.
#[local] Existing Instance monoR_pre.

Ltac mono_update := solve [ unfold monoR; simpl; lia ].

Lemma monoR_emit e : preserves (@monoR F) (emit e).
Proof. unfold emit. pres. mono_update. Qed.

Lemma monoR_printLcd a b : preserves (@monoR F) (printLcd a b).
Proof. unfold printLcd. pres; apply monoR_emit. Qed.

(** Lines 578-591 clear the flag only after a failed sync. *)
Lemma sync_or_abort_flag (w w' : World F) (aborted : bool) :
  sync_or_abort cfg env w = Some (aborted, w') ->
  (nreads w <= nreads w')%nat /\ (nsyncs w <= nsyncs w')%nat /\
  (continueFlag w' = continueFlag w \/ write_error_between env w w').
Proof.
  unfold sync_or_abort. intros H.
  destruct (CONT_SYNC cfg); [|inversion H; subst; auto].
  apply bind_inv in H. destruct H as (ok & w1 & H1 & H).
  inversion H1; subst ok w1; clear H1.
  apply if_inv in H. destruct H as [[E H] | [E H]].
  - apply negb_true_iff in E.
    match type of H with
    | ?m _ = Some _ => assert (Hm : preserves (@monoR F) m)
    end.
    { unfold delay, servo_write. pres;
        first [ mono_update | apply monoR_emit | apply monoR_printLcd ]. }
    apply Hm in H. destruct H as [Hr Hs]. simpl in Hr, Hs.
    split; [exact Hr|]. split; [lia|]. right.
    exists (nsyncs w). split; [lia | exact E].
  - apply ret_inv in H. destruct H as [_ H]. subst w'. simpl.
    split; [lia|]. split; [lia | auto].
Qed.

(** Lines 575-592. *)
Lemma log_sample_flag (pos : Z) (w w' : World F) (aborted : bool) :
  log_sample cfg env pos w = Some (aborted, w') ->
  (nreads w <= nreads w')%nat /\ (nsyncs w <= nsyncs w')%nat /\
  (continueFlag w' = continueFlag w \/ write_error_between env w w').
Proof.
  unfold log_sample, writeData. intros H.
  apply bind_inv in H. destruct H as (card & w0 & H0 & H).
  inversion H0; subst card w0; clear H0.
  destruct (cardExists w); [|inversion H; subst; auto].
  apply bind_inv in H. destruct H as (time & w0 & H0 & H).
  inversion H0; subst time w0; clear H0.
  apply bind_inv in H. destruct H as (force & w0 & H0 & H).
  inversion H0; subst force w0; clear H0.
  apply bind_inv in H. destruct H as ([] & w1 & H1 & H).
  inversion H1; subst w1; clear H1.
  apply sync_or_abort_flag in H. simpl in H.
  destruct H as (Hr & Hs & [Hf | (i & Hi & HL)]).
  - auto.
  - split; [exact Hr|]. split; [exact Hs|]. right. exists i. simpl in Hi. auto.
Qed.

(** Lines 594-604 clear the flag only at the end of a sweep. *)
Lemma advance_servo_flag (pos : Z) (w w' : World F) :
  advance_servo pos w = Some (tt, w') ->
  (nreads w <= nreads w')%nat /\ (nsyncs w <= nsyncs w')%nat /\
  (continueFlag w' = continueFlag w \/ sweep_ended w').
Proof.
  unfold advance_servo. intros H. cbn in H.
  destruct (servoChecked w) eqn:Ec; destruct (servoActive w) eqn:Ea;
    cbn in H; try (inversion H; subst; auto; fail).
  destruct (wrap16 (servoPos w + servoStep w) >=? _) eqn:E1.
  - inversion H; subst; simpl; auto.
  - destruct (wrap16 (servoPos w + servoStep w) <=? 0) eqn:E2.
    + cbn in H. inversion H; subst; simpl. split; [lia|].
      split; [lia|]. right. unfold sweep_ended; simpl.
      apply Z.leb_le in E2. auto.
    + inversion H; subst; simpl; auto.
Qed.

Lemma stepTest_flag (w w' : World F) :
  stepTest cfg env w = Some (tt, w') ->
  (nreads w <= nreads w')%nat /\ (nsyncs w <= nsyncs w')%nat /\
  (continueFlag w' = false ->
   continueFlag w = false \/ pressed_between env w w' \/
   write_error_between env w w' \/ sweep_ended w').
Proof.
  unfold stepTest. intros H.
  apply bind_inv in H. destruct H as ([] & w1 & H1 & H).
  apply bind_inv in H. destruct H as (pos & w1' & Hp & H).
  inversion Hp; subst w1' pos; clear Hp.
  apply bind_inv in H. destruct H as (aborted & w2 & H2 & H3).
  pose proof (flagR_take_sample _ _ _ H1) as [Hr1 Hf1].
  pose proof (nsyncs_of_snapshot _ _ (keeps_take_sample _ _ _ H1)) as Hs1.
  apply log_sample_flag in H2. destruct H2 as (Hr2 & Hs2 & Hf2).
  assert (H23 : (nreads w2 <= nreads w')%nat /\ (nsyncs w2 <= nsyncs w')%nat /\
                (continueFlag w' = continueFlag w2 \/ sweep_ended w')).
  { destruct aborted; [inversion H3; subst; auto | eapply advance_servo_flag; exact H3]. }
  destruct H23 as (Hr3 & Hs3 & Hf3).
  split; [lia|]. split; [lia|]. intros Hc.
  destruct Hf3 as [Hf3 | He]; [|auto]. rewrite Hf3 in Hc.
  destruct Hf2 as [Hf2 | He].
  - rewrite Hf2 in Hc. destruct (Hf1 Hc) as [H0 | Hp]; [auto|].
    right; left. destruct Hp as (i & Hi & HL). exists i. split; [lia | exact HL].
  - right; right; left. destruct He as (i & Hi & HL). exists i. split; [lia | exact HL].
Qed.

(** A chain that ends by setting the flag returns with the flag set. *)
Lemma ends_with_flag_set {A : Type} (m : M (World F) A) (w w' : World F) :
  (m ;; modify (set_continueFlag true)) w = Some (tt, w') -> continueFlag w' = true.
Proof.
  intros H. apply bind_inv in H. destruct H as (a & w1 & _ & H).
  inversion H; subst. reflexivity.
Qed.

Lemma setupCard_flag fuel (w w' : World F) :
  setupCard env fuel w = Some (tt, w') -> continueFlag w' = true.
Proof.
  unfold setupCard. intros H. apply bind_inv in H. destruct H as ([] & w1 & _ & H).
  eapply ends_with_flag_set. exact H.
Qed.

Lemma loop_toggle_flag fuel (w w' : World F) :
  loop_toggle env fuel w = Some (tt, w') -> continueFlag w' = true.
Proof.
  unfold loop_toggle. intros H. cbn in H. destruct (continueFlag w) eqn:E.
  - inversion H; subst. exact E.
  - simpl in H.
    apply bind_inv in H. destruct H as ([] & w1 & _ & H).
    apply bind_inv in H. destruct H as (running & w2 & _ & H).
    eapply ends_with_flag_set. exact H.
Qed.

Lemma setupCard_begin_flag (w w' : World F) :
  setupCard_begin env w = Some (tt, w') ->
  nreads w' = nreads w /\
  (continueFlag w' = continueFlag w \/ sd_begin_in env = true).
Proof.
  unfold setupCard_begin. intros H. destruct (sd_begin_in env); cbn in H;
    inversion H; subst; simpl; auto.
Qed.

Lemma flagR_loop_prompt fuel : preserves (flagR env) (loop_prompt env fuel).
Proof. unfold loop_prompt. flagR_auto. Qed.

Lemma keeps_loop_prompt fuel : preserves (keeps (@snapshot F)) (loop_prompt env fuel).
Proof. unfold loop_prompt. pres. apply keeps_ready. Qed.

Lemma keeps_nsyncs_loop_toggle fuel : preserves (keeps (@nsyncs F)) (loop_toggle env fuel).
Proof.
  unfold loop_toggle. pres; try reflexivity.
  - eapply preserves_from; [apply keeps_startTest|].
    intros ? ? Hv; view_open; inversion Hv; congruence.
  - eapply preserves_from; [apply keeps_endTest|].
    intros ? ? Hv; view_open; inversion Hv; congruence.
  - eapply preserves_from; [apply keeps_delay|].
    intros ? ? Hv; view_open; inversion Hv; congruence.
Qed.

Lemma loop_flag fuel (w w' : World F) :
  loop cfg env fuel w = Some (tt, w') ->
  continueFlag w' = false ->
  pressed_between env w w' \/ write_error_between env w w' \/ sweep_ended w'.
Proof.
  unfold loop. intros H Hc.
  apply bind_inv in H. destruct H as ([] & wa & Ha & H).
  apply bind_inv in H. destruct H as ([] & wb & Hb & H).
  pose proof (flagR_loop_prompt _ _ _ _ Ha) as [Hra _].
  pose proof (nsyncs_of_snapshot _ _ (keeps_loop_prompt _ _ _ _ Ha)) as Hsa.
  pose proof (flagR_loop_toggle _ _ _ _ Hb) as [Hrb _].
  pose proof (keeps_nsyncs_loop_toggle _ _ _ _ Hb) as Hsb. unfold keeps in Hsb.
  pose proof (loop_toggle_flag _ _ _ Hb) as Hfb.
  unfold loop_step in H. cbn in H. rewrite Hfb in H.
  destruct (scaleActive wb); simpl in H.
  - apply stepTest_flag in H. destruct H as (Hr & Hs & Hf).
    destruct (Hf Hc) as [H0 | [Hp | [He | Hz]]].
    + congruence.
    + left. apply (pressed_between_mono w wb w' w'); auto; lia.
    + right; left. apply (write_error_between_mono w wb w' w'); auto; lia.
    + auto.
  - pose proof (flagIff_delayCheckButton _ _ _ _ _ H) as [Hr Hf].
    apply Hf in Hc. destruct Hc as [H0 | Hp]; [congruence|].
    left. apply (pressed_between_mono w wb w' w'); auto; lia.
Qed.
(** ** The bounded wait returns *)

Lemma wrap32_small (z : Z) : 0 <= z < 2 ^ 32 -> wrap32 z = z.
Proof. intros H. unfold wrap32. apply Z.mod_small. exact H. Qed.

Lemma wait_press_total fuel dt total (w : World F) :
  0 <= total -> dt <= 2 ^ 32 - 50 -> dt - total <= 50 * (Z.of_nat fuel - 1) ->
  (1 <= fuel)%nat ->
  exists t w', wait_press env fuel dt total w = Some (t, w') /\ 0 <= t.
Proof.
  revert total w. induction fuel as [|fuel IH]; intros total w H0 Hd Hf H1; [lia|].
  cbn. destruct (total <? dt) eqn:E; simpl;
    [|exists total, w; split; [reflexivity | exact H0]].
  destruct (continueFlag w); [|exists total, w; split; [reflexivity | exact H0]].
  cbn. apply Z.ltb_lt in E.
  destruct (digitalRead_in env (nreads w)); cbn.
  - rewrite wrap32_small by lia. apply IH; lia.
  - eexists; eexists; split; [reflexivity | exact H0].
Qed.

Lemma wait_release_total fuel dt total full (w : World F) :
  0 <= total -> dt <= 2 ^ 32 - 50 -> dt - total <= 50 * (Z.of_nat fuel - 1) ->
  (1 <= fuel)%nat ->
  exists w', wait_release env fuel dt total full w = Some (tt, w').
Proof.
  revert total w. induction fuel as [|fuel IH]; intros total w H0 Hd Hf H1; [lia|].
  cbn. destruct (total <? dt) eqn:E; simpl; [|exists w; reflexivity].
  destruct (full || is_LOW (buttonState w)); [|exists w; reflexivity].
  cbn. apply Z.ltb_lt in E.
  destruct (digitalRead_in env (nreads w)); cbn.
  - eexists; reflexivity.
  - rewrite wrap32_small by lia. apply IH; lia.
Qed.

Lemma polls_enough (dt : Z) : dt <= 50 * (Z.of_nat (polls dt) - 1) /\ (1 <= polls dt)%nat.
Proof.
  unfold polls. split; [|lia].
  destruct (Z.le_gt_cases 0 dt) as [H|H].
  - rewrite !Nat2Z.inj_succ, Z2Nat.id by (apply Z.div_pos; lia).
    pose proof (Z.mod_pos_bound dt 50 ltac:(lia)).
    pose proof (Z.div_mod dt 50 ltac:(lia)). lia.
  - lia.
Qed.

(** [delayCheckButton] always returns, for every wait that stays clear of
    the wrap-around of [total]. *)
Lemma delayCheckButton_total dt full (w : World F) :
  dt <= 2 ^ 32 - 50 -> exists w', delayCheckButton env dt full w = Some (tt, w').
Proof.
  intros Hd. unfold delayCheckButton. destruct (polls_enough dt) as [Hp1 Hp2].
  destruct (wait_press_total (polls dt) dt 0 (set_buttonState HIGH w))
    as (t & w1 & H1 & Ht); [lia | exact Hd | lia | exact Hp2 |].
  destruct (wait_release_total (polls dt) dt t full w1)
    as (w' & H2); [exact Ht | exact Hd | lia | exact Hp2 |].
  exists w'. unfold bind. cbn [modify]. rewrite H1. exact H2.
Qed.

(** With the flag set, a wait reads the button at least once. *)
Lemma delayCheckButton_reads dt full (w w' : World F) :
  0 < dt -> continueFlag w = true ->
  delayCheckButton env dt full w = Some (tt, w') -> (nreads w < nreads w')%nat.
Proof.
  intros Hd Hc H. unfold delayCheckButton, polls in H.
  remember (S (Z.to_nat (dt / 50))) as fuel eqn:Efuel. clear Efuel.
  apply bind_inv in H. destruct H as ([] & w0 & H0 & H).
  inversion H0; subst w0; clear H0.
  apply bind_inv in H. destruct H as (t & w1 & H1 & H2).
  apply flagIff_wait_release in H2. destruct H2 as [Hn2 _].
  cbn in H1. apply Z.ltb_lt in Hd. rewrite Hd, Hc in H1. cbn in H1.
  destruct (digitalRead_in env (nreads w)).
  - apply bind_inv in H1. destruct H1 as ([] & w2 & Ha & Hb).
    inversion Ha; subst w2; clear Ha.
    apply flagIff_wait_press in Hb. destruct Hb as [Hn1 _]. simpl in Hn1. lia.
  - cbn in H1. inversion H1; subst. simpl in Hn2. lia.
Qed.

Lemma printLcd_total a b (w : World F) : exists w', printLcd a b w = Some (tt, w').
Proof.
  unfold printLcd. destruct (nonempty a), (nonempty b); cbn; eexists; reflexivity.
Qed.

Lemma printLcd_nreads a b (w w' : World F) :
  printLcd a b w = Some (tt, w') -> nreads w' = nreads w /\ continueFlag w' = continueFlag w.
Proof.
  unfold printLcd. destruct (nonempty a), (nonempty b); cbn; intros H;
    inversion H; subst; auto.
Qed.

(** One pass over the wrap-around notice returns, and with the flag set it
    reads the button. *)
Lemma file_number_pass (w : World F) :
  exists w', printLcdScroll env file_number_text w = Some (tt, w') /\
             (continueFlag w = true -> (nreads w < nreads w')%nat).
Proof.
  unfold printLcdScroll. cbn [file_number_text].
  change (strtok_lines (c_str file_number_text) EmptyString)
    with ["File number"; "too high!"; "Clear SD Card"; "or"; "Press button";
          "to reset at t_1"].
  cbn [scroll].
  destruct (printLcd_total "File number" EmptyString w) as (w1 & H1).
  destruct (printLcd_total EmptyString "too high!" w1) as (w2 & H2).
  destruct (delayCheckButton_total 2000 false w2) as (w3 & H3); [lia|].
  destruct (printLcd_total "Clear SD Card" EmptyString w3) as (w4 & H4).
  destruct (printLcd_total EmptyString "or" w4) as (w5 & H5).
  destruct (delayCheckButton_total 2000 false w5) as (w6 & H6); [lia|].
  destruct (printLcd_total "Press button" EmptyString w6) as (w7 & H7).
  destruct (printLcd_total EmptyString "to reset at t_1" w7) as (w8 & H8).
  destruct (delayCheckButton_total 2000 false w8) as (w9 & H9); [lia|].
  exists w9. unfold bind. rewrite H1, H2, H3, H4, H5, H6, H7, H8, H9.
  split; [reflexivity|]. intros Hc.
  apply printLcd_nreads in H1, H2, H4, H5, H7, H8.
  pose proof (flagIff_delayCheckButton _ _ _ _ _ H6) as [Hn6 _].
  pose proof (flagIff_delayCheckButton _ _ _ _ _ H9) as [Hn9 _].
  apply delayCheckButton_reads in H3; [| lia | ].
  - lia.
  - destruct H1 as [_ H1], H2 as [_ H2]. congruence.
Qed.

Lemma while_exit {S : Type} fuel (cond : S -> bool) (body : M S unit) (s s' : S) :
  while fuel cond body s = Some (tt, s') -> cond s' = false.
Proof.
  revert s. induction fuel as [|fuel IH]; intros s H; [discriminate H|].
  cbn in H. destruct (cond s) eqn:E.
  - apply bind_inv in H. destruct H as ([] & s1 & _ & H). eapply IH. exact H.
  - inversion H; subst. exact E.
Qed.

Lemma while_more_fuel {S : Type} fuel (cond : S -> bool) (body : M S unit) (s s' : S) :
  while fuel cond body s = Some (tt, s') ->
  while (Datatypes.S fuel) cond body s = Some (tt, s').
Proof.
  revert s. induction fuel as [|fuel IH]; intros s H; [discriminate H|].
  cbn in H. cbn. destruct (cond s); [|exact H].
  apply bind_inv in H. destruct H as ([] & s1 & H1 & H2).
  unfold bind at 1. rewrite H1. apply IH. exact H2.
Qed.

Lemma while_step_true {S : Type} fuel (cond : S -> bool) (body : M S unit) (s s1 : S) r :
  cond s = true -> body s = Some (tt, s1) -> while fuel cond body s1 = r ->
  while (Datatypes.S fuel) cond body s = r.
Proof. intros Hc Hb Hr. cbn. rewrite Hc. unfold bind. rewrite Hb. exact Hr. Qed.

Lemma while_step_false {S : Type} fuel (cond : S -> bool) (body : M S unit) (s : S) :
  cond s = false -> while (Datatypes.S fuel) cond body s = Some (tt, s).
Proof. intros Hc. cbn. rewrite Hc. reflexivity. Qed.

(** The confirmation loop of lines 426-428 returns once the button is
    read LOW. *)
Lemma confirmation_returns (k : nat) :
  digitalRead_in env k = LOW ->
  forall d (w : World F), (k - nreads w <= d)%nat -> (nreads w <= k)%nat ->
  exists w', while (S (S d)) continueFlag (printLcdScroll env file_number_text) w
             = Some (tt, w').
Proof.
  intros Hk. induction d as [d IH] using lt_wf_ind. intros w Hd Hle.
  destruct (continueFlag w) eqn:Ec.
  - destruct (file_number_pass w) as (w1 & H1 & Hn). specialize (Hn Ec).
    pose proof (flagIff_printLcdScroll _ _ _ _ H1) as [_ Hf].
    destruct (continueFlag w1) eqn:Ec1.
    + assert (Hk1 : (nreads w1 <= k)%nat).
      { destruct (Nat.le_gt_cases (nreads w1) k) as [Hl|Hg]; [exact Hl|].
        assert (Hp : true = false).
        { apply Hf. right. exists k. split; [lia | exact Hk]. }
        discriminate Hp. }
      destruct d as [|d]; [lia|].
      destruct (IH d ltac:(lia) w1 ltac:(lia) Hk1) as (w' & H').
      exists w'. eapply while_step_true; [exact Ec | exact H1 | exact H'].
    + exists w1. eapply while_step_true; [exact Ec | exact H1 |].
      apply while_step_false. exact Ec1.
  - exists w. apply while_step_false. exact Ec.
Qed.
(** ** Sequence Filer *)

(** Reduces the projections of updated states, and nothing else. *)
Ltac fields :=
  cbn [unitForce maxForce buttonState continueFlag servoPos servoStep scaleActive
       servoChecked servoActive cardExists scaleStartTime readTime activeFileName
       maxFileNum nreads nmillis nunits nscans nopens nsyncs trace set_unitForce
       set_maxForce set_buttonState set_continueFlag set_servoPos set_servoStep
       set_scaleActive set_servoChecked set_servoActive set_cardExists
       set_scaleStartTime set_readTime set_activeFileName set_maxFileNum set_nreads
       set_nmillis set_nunits set_nscans set_nopens set_nsyncs set_trace] in *.

Lemma getFileName_eq fuel (w : World F) :
  getFileName env fuel w =
  let w1 := after_scan env w in
  let nextFileNum := maxFileNum w1 + 1 in
  if nextFileNum >? 999
  then (n <- confirm_wrap env fuel ;; ret (formatFileName n)) (set_maxFileNum nextFileNum w1)
  else Some (formatFileName nextFileNum, set_maxFileNum nextFileNum w1).
Proof.
  unfold getFileName, after_scan, scan_directory, confirm_wrap, open_dir.
  unfold bind at 1. unfold gets at 1. unfold bind at 1.
  destruct (maxFileNum w =? 0); unfold when.
  - unfold bind at 1. destruct (dir_in env (nscans w)).
    + unfold modify at 1. unfold bind at 1. unfold gets at 1.
      unfold bind at 1. unfold modify at 1. cbv zeta. fields.
      unfold bind at 1.
      match goal with |- context [if ?c then _ else _] => destruct c end; reflexivity.
    + unfold ret at 1. unfold bind at 1. unfold gets at 1.
      unfold bind at 1. unfold modify at 1. cbv zeta. fields.
      unfold bind at 1.
      match goal with |- context [if ?c then _ else _] => destruct c end; reflexivity.
  - unfold ret at 1. unfold bind at 1. unfold gets at 1.
    unfold bind at 1. unfold modify at 1. cbv zeta. fields.
    unfold bind at 1.
    match goal with |- context [if ?c then _ else _] => destruct c end; reflexivity.
Qed.

Lemma after_scan_number (w : World F) :
  maxFileNum (after_scan env w) = last_number env w.
Proof.
  unfold after_scan, last_number. destruct (maxFileNum w =? 0) eqn:E; [|reflexivity].
  apply Z.eqb_eq in E. destruct (dir_in env (nscans w)); simpl; rewrite E; reflexivity.
Qed.

Lemma after_scan_frame (w : World F) :
  nreads (after_scan env w) = nreads w /\
  continueFlag (after_scan env w) = continueFlag w /\
  scans (after_scan env w) = (if maxFileNum w =? 0 then S (scans w) else scans w).
Proof.
  unfold after_scan. destruct (maxFileNum w =? 0); [|auto].
  destruct (dir_in env (nscans w)); simpl; auto.
Qed.

(** Below the wrap-around, [getFileName] returns at once with the next
    number. *)
Lemma getFileName_next fuel (w : World F) :
  last_number env w <= 998 ->
  exists w', getFileName env fuel w = Some (formatFileName (last_number env w + 1), w') /\
             maxFileNum w' = last_number env w + 1 /\
             scans w' = (if maxFileNum w =? 0 then S (scans w) else scans w) /\
             nscans w' = nscans (after_scan env w).
Proof.
  intros Hl. rewrite getFileName_eq. cbv zeta. rewrite after_scan_number.
  destruct (last_number env w + 1 >? 999) eqn:E.
  - rewrite Z.gtb_ltb in E. apply Z.ltb_lt in E. lia.
  - eexists. split; [reflexivity|]. simpl.
    destruct (after_scan_frame w) as (_ & _ & Hs). auto.
Qed.

(** At the wrap-around, it only returns after a press, with [t_1.csv]. *)
Lemma getFileName_wrap fuel (w w' : World F) (name : string) :
  999 <= last_number env w ->
  getFileName env fuel w = Some (name, w') ->
  pressed_between env w w' /\ name = formatFileName 1 /\
  maxFileNum w' = 1 /\ continueFlag w' = true.
Proof.
  intros Hl H. rewrite getFileName_eq in H. cbv zeta in H.
  rewrite after_scan_number in H.
  destruct (last_number env w + 1 >? 999) eqn:E;
    [|rewrite Z.gtb_ltb in E; apply Z.ltb_ge in E; lia].
  apply bind_inv in H. destruct H as (n & wn & H & Hn).
  unfold confirm_wrap in H.
  apply bind_inv in H. destruct H as ([] & w1 & H1 & H). inversion H1; subst w1; clear H1.
  apply bind_inv in H. destruct H as ([] & w2 & H2 & H). inversion H2; subst w2; clear H2.
  apply bind_inv in H. destruct H as ([] & w3 & H3 & H).
  cbn in H. inversion H; subst; clear H. inversion Hn; subst; clear Hn. simpl.
  split; [|auto].
  pose proof (while_exit _ _ _ _ _ H3) as Hx.
  assert (Hw : preserves (flagR env)
                 (while fuel continueFlag (printLcdScroll env file_number_text))).
  { flagR_auto. }
  apply Hw in H3. destruct H3 as [Hn Hf]. destruct (Hf Hx) as [H0 | Hp].
  - discriminate H0.
  - destruct (after_scan_frame w) as (Hr & _ & _).
    destruct Hp as (i & Hi & HL). exists i. simpl in *. split; [lia | exact HL].
Qed.

(** ... and it does return once a press comes. *)
Lemma getFileName_wrap_returns (w : World F) (k : nat) :
  999 <= last_number env w -> (nreads w <= k)%nat -> digitalRead_in env k = LOW ->
  exists fuel name w', getFileName env fuel w = Some (name, w').
Proof.
  intros Hl Hk HL. exists (S (S (k - nreads w))).
  rewrite getFileName_eq. cbv zeta. rewrite after_scan_number.
  destruct (last_number env w + 1 >? 999) eqn:E;
    [|rewrite Z.gtb_ltb in E; apply Z.ltb_ge in E; lia].
  unfold confirm_wrap.
  destruct (after_scan_frame w) as (Hr & _ & _).
  set (s0 := set_maxFileNum (last_number env w + 1) (after_scan env w)).
  destruct (confirmation_returns k HL (k - nreads w)%nat
              (set_continueFlag true (set_trace (EvDelay 500 :: trace s0) s0)))
    as (w3 & H3); [simpl; lia | simpl; lia |].
  do 2 eexists. unfold bind at 1. unfold bind at 1. cbn [delay emit modify].
  unfold bind at 1. cbn [modify]. unfold bind at 1. rewrite H3.
  cbn. reflexivity.
Qed.

(** The scan leaves the largest listed number in [maxFileNum]. *)
Lemma scan_entry_cases (acc : Z) (e : DirEntry) :
  let keep := negb (entryIsDir e) && isMatchingFormat (entryName e) in
  acc <= scan_entry acc e /\
  (keep = true -> getFileNum (entryName e) <= scan_entry acc e) /\
  (scan_entry acc e = acc \/
   (keep = true /\ scan_entry acc e = getFileNum (entryName e))).
Proof.
  unfold scan_entry. destruct (entryIsDir e); simpl.
  - split; [lia|]. split; [discriminate | auto].
  - destruct (isMatchingFormat (entryName e)).
    + split; [lia|]. split; [lia|]. 
      destruct (Z.max_spec (getFileNum (entryName e)) acc) as [[_ Hm] | [_ Hm]];
        rewrite Hm; auto.
    + split; [lia|]. split; [discriminate | auto].
Qed.

Lemma fold_scan_entry entries acc :
  let r := fold_left scan_entry entries acc in
  acc <= r /\
  (forall n, In n (listed_numbers (Some entries)) -> n <= r) /\
  (r = acc \/ In r (listed_numbers (Some entries))).
Proof.
  revert acc. induction entries as [|e entries IH]; intros acc.
  - simpl. split; [lia|]. split; [intros n []| auto].
  - cbn [fold_left]. specialize (IH (scan_entry acc e)). cbv zeta in IH.
    destruct IH as (H1 & H2 & H3).
    destruct (scan_entry_cases acc e) as (C1 & C2 & C3). cbv zeta in *.
    cbn [listed_numbers filter] in *.
    destruct (negb (entryIsDir e) && isMatchingFormat (entryName e)); cbn [map In] in *.
    + split; [lia|]. split.
      * intros n [Hn | Hn]; [specialize (C2 eq_refl); lia | auto].
      * destruct H3 as [H3 | H3]; [|auto].
        destruct C3 as [C3 | [_ C3]]; [left; congruence | right; left; congruence].
    + split; [lia|]. split; [exact H2|].
      destruct H3 as [H3 | H3]; [|auto].
      destruct C3 as [C3 | [C3 _]]; [left; congruence | discriminate C3].
Qed.

Lemma scan_finds_max (w : World F) (m : Z) :
  maxFileNum w = 0 -> 0 <= m -> max_number (dir_in env (nscans w)) m ->
  last_number env w = m.
Proof.
  intros H0 Hm (Hub & Hnil & Hin). unfold last_number. rewrite H0.
  change (0 =? 0) with true. cbv iota.
  destruct (dir_in env (nscans w)) as [entries|].
  - destruct (fold_scan_entry entries 0) as (H1 & H2 & H3). cbv zeta in *.
    remember (fold_left scan_entry entries 0) as r eqn:Er. clear Er.
    remember (listed_numbers (Some entries)) as l eqn:El. clear El.
    destruct l as [|x l].
    + rewrite Hnil by reflexivity. destruct H3 as [H3 | []]. exact H3.
    + assert (Hne : x :: l <> []) by discriminate.
      specialize (Hin Hne). specialize (H2 m Hin).
      destruct H3 as [H3 | H3]; [lia|]. specialize (Hub _ H3). lia.
  - symmetry. apply Hnil. reflexivity.
Qed.
(** ** The names of the log files *)

Lemma name_checks_all : forallb name_checks (seq 1 999) = true.
Proof. vm_compute. reflexivity. Qed.

Lemma name_checks_at (n : Z) :
  1 <= n <= 999 -> name_checks (Z.to_nat n) = true.
Proof.
  intros Hn. apply (proj1 (forallb_forall name_checks (seq 1 999)) name_checks_all).
  apply in_seq. lia.
Qed.

Lemma formatFileName_uncut (n : Z) :
  1 <= n <= 999 -> formatFileName n = ("t_" ++ dec n ++ ".csv")%string.
Proof.
  intros Hn. pose proof (name_checks_at n Hn) as H. unfold name_checks in H.
  rewrite Z2Nat.id in H by lia.
  apply andb_true_iff in H. destruct H as [H _].
  apply andb_true_iff in H. destruct H as [H _].
  apply String.eqb_eq in H. exact H.
Qed.

Lemma name_roundtrip (n : Z) :
  1 <= n <= 999 ->
  isMatchingFormat (formatFileName n) = true /\ getFileNum (formatFileName n) = n.
Proof.
  intros Hn. pose proof (name_checks_at n Hn) as H. unfold name_checks in H.
  rewrite Z2Nat.id in H by lia.
  apply andb_true_iff in H. destruct H as [H H2].
  apply andb_true_iff in H. destruct H as [_ H1].
  apply Z.eqb_eq in H2. auto.
Qed.

(** C10: for every n from 1 to 999 the name that [getFileName] writes for n
    is accepted by [isMatchingFormat], and [getFileNum] reads n back from it. *)
Theorem format_then_parse (n : Z) :
  1 <= n <= 999 ->
  isMatchingFormat (formatFileName n) = true /\
  getFileNum (formatFileName n) = n.
Proof. exact (name_roundtrip n). Qed.

(** C7, amended: when the largest number among the listed log files is m,
    0 <= m <= 997, the first call of [getFileName] returns t_<m+1>.csv and
    the second t_<m+2>.csv, and only the first call lists the directory. *)
Theorem next_names_follow_the_maximum (fuel : nat) (w : World F) (m : Z) :
  maxFileNum w = 0 ->
  max_number (dir_in env (nscans w)) m ->
  0 <= m <= 997 ->
  exists w1 w2,
    getFileName env fuel w = Some (("t_" ++ dec (m + 1) ++ ".csv")%string, w1) /\
    getFileName env fuel w1 = Some (("t_" ++ dec (m + 2) ++ ".csv")%string, w2) /\
    scans w1 = S (scans w) /\ scans w2 = scans w1 /\ nscans w2 = nscans w1.
Proof.
  intros H0 Hmax Hm.
  pose proof (scan_finds_max w m H0 (proj1 Hm) Hmax) as Hl.
  destruct (getFileName_next fuel w) as (w1 & G1 & M1 & S1 & _); [lia|].
  rewrite Hl in G1, M1. rewrite H0 in S1. change (0 =? 0) with true in S1.
  assert (Hl1 : last_number env w1 = m + 1).
  { unfold last_number. rewrite M1.
    destruct (m + 1 =? 0) eqn:E; [apply Z.eqb_eq in E; lia | reflexivity]. }
  destruct (getFileName_next fuel w1) as (w2 & G2 & M2 & S2 & N2); [lia|].
  rewrite Hl1 in G2. rewrite M1 in S2.
  replace (m + 1 + 1) with (m + 2) in G2 by lia.
  assert (E : (m + 1 =? 0) = false) by (apply Z.eqb_neq; lia).
  rewrite E in S2. unfold after_scan in N2. rewrite M1, E in N2.
  rewrite formatFileName_uncut in G1, G2 by lia.
  exists w1, w2. auto.
Qed.

(** C8: when the next number would exceed 999, [getFileName] returns only
    after the button has been read LOW, and then with t_1.csv and the cached
    number 1, so that the next call returns t_2.csv; and once the button is
    read LOW it does return. *)
Theorem wraparound_waits_for_the_button (w : World F) :
  999 <= last_number env w ->
  (forall fuel name w',
     getFileName env fuel w = Some (name, w') ->
     pressed_between env w w' /\ name = "t_1.csv"%string /\ maxFileNum w' = 1 /\
     forall fuel2, exists w2, getFileName env fuel2 w' = Some ("t_2.csv"%string, w2)) /\
  ((exists k, (nreads w <= k)%nat /\ digitalRead_in env k = LOW) ->
   exists fuel name w', getFileName env fuel w = Some (name, w')).
Proof.
  intros Hl. split.
  - intros fuel name w' H.
    destruct (getFileName_wrap fuel w w' name Hl H) as (Hp & Hn & Hm & _).
    split; [exact Hp|]. split; [exact Hn|]. split; [exact Hm|].
    intros fuel2.
    assert (Hl1 : last_number env w' = 1). { unfold last_number. rewrite Hm. reflexivity. }
    destruct (getFileName_next fuel2 w') as (w2 & G2 & _); [lia|].
    rewrite Hl1 in G2. exists w2. exact G2.
  - intros (k & Hk & HL). exact (getFileName_wrap_returns w k Hl Hk HL).
Qed.
(** ** The cancellation flag: the claims *)

Lemma cleared_by_press (r : Routine) (w w' : World F) :
  flagR env w w' -> continueFlag w = true -> continueFlag w' = false ->
  cleared_by env r w w'.
Proof.
  intros [_ Hf] Ht Hc. left. destruct (Hf Hc) as [H0 | Hp]; [congruence | exact Hp].
Qed.

Lemma discard_result {A : Type} (R : World F -> World F -> Prop) (m : M (World F) A)
      (w w' : World F) :
  preserves R m -> (_ <- m ;; ret tt) w = Some (tt, w') -> R w w'.
Proof.
  intros Hm H. apply bind_inv in H. destruct H as (a & w1 & H1 & H2).
  apply ret_inv in H2. destruct H2 as [_ H2]. subst w1. eapply Hm. exact H1.
Qed.

Lemma exec_eq (r : Routine) :
  exec cfg env r =
  match r with
  | DelayCheckButton dt full => delayCheckButton env dt full
  | PrintLcdScroll inputText => printLcdScroll env inputText
  | RampServo setPos dt => rampServo env setPos dt
  | CheckServo => _ <- checkServo env ;; ret tt
  | GetFileName fuel => _ <- getFileName env fuel ;; ret tt
  | StartTest fuel => startTest env fuel
  | EndTest => endTest
  | StepTest => stepTest cfg env
  | SetupCardMount => setupCard_begin env
  | SetupCard fuel => setupCard env fuel
  | LoopToggle fuel => loop_toggle env fuel
  | Loop fuel => loop cfg env fuel
  end.
Proof. reflexivity. Qed.

(** C1, amended: a routine returns with the flag cleared, having been
    entered with it set, only if the button was read LOW in between, or, for
    [stepTest] and [loop], a forced sync failed or the automatic sweep came
    back to position 0 or below, or, for lines 241-244 of [setupCard], the
    card mounted. *)
Theorem flag_cleared_only_by (r : Routine) (w w' : World F) :
  exec cfg env r w = Some (tt, w') ->
  continueFlag w = true ->
  continueFlag w' = false ->
  cleared_by env r w w'.
Proof.
  intros H Ht Hc. rewrite exec_eq in H. destruct r; cbv beta iota in H.
  - apply cleared_by_press; auto. apply flagIff_flagR.
    eapply flagIff_delayCheckButton. exact H.
  - apply cleared_by_press; auto. apply flagIff_flagR.
    eapply flagIff_printLcdScroll. exact H.
  - apply cleared_by_press; auto. apply flagIff_flagR.
    eapply flagIff_rampServo. exact H.
  - apply cleared_by_press; auto.
    eapply discard_result; [apply flagR_checkServo | exact H].
  - apply cleared_by_press; auto.
    eapply discard_result; [apply flagR_getFileName | exact H].
  - apply cleared_by_press; auto. eapply flagR_startTest. exact H.
  - apply cleared_by_press; auto. eapply flagR_endTest. exact H.
  - apply stepTest_flag in H. destruct H as (_ & _ & Hf).
    destruct (Hf Hc) as [H0 | [Hp | He]]; [congruence | left; exact Hp | right; exact He].
  - apply setupCard_begin_flag in H. destruct H as [_ [Hf | Hb]].
    + congruence.
    + right. exact Hb.
  - apply setupCard_flag in H. congruence.
  - apply loop_toggle_flag in H. congruence.
  - destruct (loop_flag _ _ _ H Hc) as [Hp | He]; [left; exact Hp | right; exact He].
Qed.

Lemma set_flag_twice (b : bool) (w : World F) :
  set_continueFlag true (set_continueFlag b w) = set_continueFlag true w.
Proof. reflexivity. Qed.

Lemma checkServo_sets_flag (b : bool) (w : World F) :
  checkServo env (set_continueFlag b w) = checkServo env (set_continueFlag true w).
Proof.
  unfold checkServo, probe_sweep.
  unfold bind at 1. unfold bind at 1. unfold modify at 1.
  symmetry. unfold bind at 1. unfold bind at 1. unfold modify at 1.
  rewrite !set_flag_twice. reflexivity.
Qed.
(** ** The probe: when it runs *)

#[local] Instance probeR_pre : Pre (@probeR F).
Proof.
  split; unfold probeR.
  - auto.
  - intros a b c Hab Hbc Ha. destruct (Hab Ha) as [Hb Hp].
    destruct (Hbc Hb) as [Hc Hq]. split; [exact Hc | congruence].
Qed.

(** From a view that holds [servoChecked] and [probes]. *)
Ltac probe_view :=
  let Hv := fresh "Hv" in
  intros ? ? Hv; view_open; inversion Hv; unfold probeR; intros; split; congruence.

Ltac probe_auto :=
  pres; first [ solve [unfold probeR; simpl; auto]
              | eapply preserves_from; [ solve [auto with keepdb] | probe_view ]
              | idtac ].

Lemma keeps_open_log fuel : preserves (keeps (@view_open_log F)) (open_log env fuel).
Proof. unfold open_log, writeHeader. keep_auto. Qed.

Lemma keeps_start_clock : preserves (keeps (@snapshot F)) (start_clock env).
Proof. unfold start_clock. keep_auto. Qed.

#[local] Hint Resolve keeps_open_log keeps_start_clock keeps_stepTest
  keeps_take_sample keeps_loop_prompt : keepdb.

Lemma detect_servo_idle (w w' : World F) :
  negb (servoChecked w) && servoActive w = false ->
  detect_servo env w = Some (tt, w') -> w' = w.
Proof.
  intros Hg H. expose H.
  apply bind_inv in H. destruct H as (checked & w0 & H0 & H).
  apply gets_inv in H0. destruct H0; subst checked w0.
  apply bind_inv in H. destruct H as (active & w0 & H0 & H).
  apply gets_inv in H0. destruct H0; subst active w0.
  apply when_inv in H. destruct H as [[Hb _] | [_ H]]; [congruence | exact H].
Qed.

Lemma detect_servo_runs (w w' : World F) :
  negb (servoChecked w) && servoActive w = true ->
  detect_servo env w = Some (tt, w') ->
  exists found w1,
    checkServo env w = Some (found, w1) /\
    (if found then printLcd "Sweep Starting..." EmptyString ;; delay 2000
     else printLcd "Ready for Input!" EmptyString ;; delay 2000)
      (set_servoChecked found w1) = Some (tt, w').
Proof.
  intros Hg H. expose H.
  apply bind_inv in H. destruct H as (checked & w0 & H0 & H).
  apply gets_inv in H0. destruct H0; subst checked w0.
  apply bind_inv in H. destruct H as (active & w0 & H0 & H).
  apply gets_inv in H0. destruct H0; subst active w0.
  apply when_inv in H. destruct H as [[_ H] | [Hb _]]; [|congruence].
  apply bind_inv in H. destruct H as (found & w1 & H1 & H).
  apply bind_inv in H. destruct H as ([] & w2 & H2 & H).
  apply modify_inv in H2. subst w2.
  exists found, w1. split; [exact H1 | exact H].
Qed.

Lemma probeR_detect_servo : preserves (@probeR F) (detect_servo env).
Proof.
  intros w [] w' H Hc.
  assert (Hg : negb (servoChecked w) && servoActive w = false) by (rewrite Hc; reflexivity).
  rewrite (detect_servo_idle w w' Hg H). auto.
Qed.

Lemma probeR_startTest fuel : preserves (@probeR F) (startTest env fuel).
Proof. unfold startTest. probe_auto. apply probeR_detect_servo. Qed.

Lemma probeR_loop fuel : preserves (@probeR F) (loop cfg env fuel).
Proof.
  unfold loop, loop_toggle, loop_step. probe_auto. apply probeR_startTest.
Qed.

Lemma probeR_loops fuel n : preserves (@probeR F) (loops cfg env fuel n).
Proof.
  induction n as [|n IH]; simpl; pres; [apply probeR_loop | exact IH].
Qed.

Lemma printLcd_probe (w : World F) :
  printLcd probe_text "Please Wait" w =
  Some (tt, set_trace (EvLcdPrint 1 "Please Wait" :: EvLcdPrint 0 probe_text
                         :: EvLcdClear :: trace w) w).
Proof. reflexivity. Qed.

(** One run of the probe shows its notice once and leaves the servo at 0. *)
Lemma checkServo_effect (w w' : World F) (found : bool) :
  checkServo env w = Some (found, w') ->
  probes w' = S (probes w) /\ servoPos w' = 0 /\ view_probe w' = view_probe w.
Proof.
  intros H.
  pose proof (keeps_checkServo _ _ _ H) as Hv. unfold keeps in Hv.
  split; [|split; [|exact Hv]].
  - expose H.
    apply bind_inv in H. destruct H as (sf & w1 & H1 & H2).
    expose H1.
    apply bind_inv in H1. destruct H1 as ([] & wa & Ha & H1).
    apply modify_inv in Ha. subst wa.
    apply bind_inv in H1. destruct H1 as ([] & wb & Hb & H1).
    change "Checking Servo"%string with probe_text in Hb.
    rewrite printLcd_probe in Hb. inversion Hb; subst wb; clear Hb.
    match type of H1 with
    | ?m _ = Some _ => assert (Hm : preserves (keeps (@probes F)) m) by keep_auto
    end.
    apply Hm in H1. unfold keeps in H1.
    assert (Hq : preserves (keeps (@probes F)) (probe_verdict sf)).
    { unfold probe_verdict. keep_auto. }
    apply Hq in H2. unfold keeps in H2. rewrite H2, H1. reflexivity.
  - expose H.
    apply bind_inv in H. destruct H as (sf & w1 & _ & H2).
    expose H2.
    apply bind_inv in H2. destruct H2 as ([] & wa & Ha & H2).
    apply modify_inv in Ha. subst wa.
    match type of H2 with
    | ?m _ = Some _ => assert (Hm : preserves (keeps (@servoPos F)) m) by keep_auto
    end.
    apply Hm in H2. exact H2.
Qed.

(** A test start with the servo not yet found runs the probe once. *)
Lemma startTest_probes fuel (w w' : World F) :
  servoChecked w = false -> servoActive w = true ->
  startTest env fuel w = Some (tt, w') -> probes w' = S (probes w).
Proof.
  intros Hc Ha H. expose H.
  apply bind_inv in H. destruct H as ([] & w1 & H1 & H).
  apply bind_inv in H. destruct H as ([] & w2 & H2 & H3).
  apply keeps_open_log in H1. unfold keeps, view_open_log in H1. inversion H1.
  apply keeps_start_clock in H3. unfold keeps, snapshot in H3. inversion H3.
  assert (Hg : negb (servoChecked w1) && servoActive w1 = true).
  { replace (servoChecked w1) with false by congruence.
    replace (servoActive w1) with true by congruence. reflexivity. }
  destruct (detect_servo_runs w1 w2 Hg H2) as (found & wa & G1 & G2).
  apply checkServo_effect in G1. destruct G1 as (P1 & _ & _).
  assert (Hm : probes w2 = probes (set_servoChecked found wa)).
  { destruct found;
      match type of G2 with
      | ?m _ = Some _ => assert (Hm : preserves (keeps (@probes F)) m) by keep_auto
      end; apply Hm in G2; exact G2. }
  change (probes (set_servoChecked found wa)) with (probes wa) in Hm.
  congruence.
Qed.
(** ** The logged servo position *)

#[local] Instance log_okR_pre : Pre (@log_okR F).
Proof. split; unfold log_okR; auto. Qed.

#[local] Instance startingR_pre : Pre (@startingR F).
Proof. split; unfold startingR; auto. Qed.

Lemma log_ok_ext (w w' : World F) :
  servoPos w' = servoPos w -> servoStep w' = servoStep w ->
  logged_positions (trace w') = logged_positions (trace w) ->
  log_ok w -> log_ok w'.
Proof.
  unfold log_ok, servo_ok. intros Hp Hs Hl. rewrite Hp, Hs, Hl. auto.
Qed.

Lemma starting_ext (w w' : World F) :
  servoPos w' = servoPos w -> servoStep w' = servoStep w ->
  logged_positions (trace w') = logged_positions (trace w) ->
  starting w -> starting w'.
Proof.
  unfold starting. intros Hp Hs Hl [Hok H2]. split; [|congruence].
  apply (log_ok_ext w w'); assumption.
Qed.

Ltac log_view :=
  let Hv := fresh "Hv" in
  intros ? ? Hv; view_open; inversion Hv;
  first [ intro; eapply log_ok_ext; [ | | | eassumption ]; congruence
        | intro; eapply starting_ext; [ | | | eassumption ]; congruence ].

Ltac log_update :=
  first [ solve [ intro; eapply log_ok_ext; [ | | | eassumption ]; reflexivity ]
        | solve [ intro; eapply starting_ext; [ | | | eassumption ]; reflexivity ] ].

Ltac log_auto :=
  pres; first [ log_update
              | eapply preserves_from; [ solve [auto with keepdb] | log_view ]
              | idtac ].

Lemma logged_row (time pos : Z) (force : F) (tr : list (Event F)) :
  In (EvRow time pos force) tr -> In pos (logged_positions tr).
Proof.
  induction tr as [|e tr IH]; simpl; [auto|].
  intros [He | Hin].
  - subst e. left. reflexivity.
  - destruct e; simpl; auto.
Qed.

(** [startTest]: the step becomes 2, and the probe leaves the servo at 0. *)
Lemma open_log_starting fuel (w w' : World F) :
  log_ok w -> open_log env fuel w = Some (tt, w') -> starting w'.
Proof.
  intros Hok H. expose H.
  apply bind_inv in H. destruct H as ([] & wa & Ha & H).
  apply modify_inv in Ha. subst wa.
  match type of H with
  | ?m _ = Some _ => assert (Hm : preserves (@startingR F) m)
  end.
  { unfold writeHeader. log_auto. }
  apply (Hm _ _ _ H). destruct Hok as [(Hp & He & _) Hl].
  split; [|reflexivity]. split; [|exact Hl]. split; [exact Hp|]. split; [exact He|].
  left. reflexivity.
Qed.

Lemma detect_servo_starting : preserves (@startingR F) (detect_servo env).
Proof.
  intros w [] w' H Hs.
  destruct (negb (servoChecked w) && servoActive w) eqn:Hg.
  - destruct (detect_servo_runs w w' Hg H) as (found & w1 & G1 & G2).
    apply checkServo_effect in G1. destruct G1 as (_ & P0 & Pv).
    unfold view_probe in Pv. inversion Pv.
    assert (Hs1 : starting (set_servoChecked found w1)).
    { destruct Hs as [[_ Hl] Hstep]. split; [|simpl; congruence].
      split; [|simpl; congruence]. unfold servo_ok. simpl. rewrite P0.
      split; [lia|]. split; [reflexivity|]. left. congruence. }
    assert (Hm : forall m : M (World F) unit,
               preserves (keeps (@snapshot F)) m ->
               m (set_servoChecked found w1) = Some (tt, w') -> starting w').
    { intros m Hk Hr. apply Hk in Hr. unfold keeps, snapshot in Hr. inversion Hr.
      eapply starting_ext; [ | | | exact Hs1]; congruence. }
    destruct found; (eapply Hm; [|exact G2]); keep_auto.
  - rewrite (detect_servo_idle w w' Hg H). exact Hs.
Qed.

Lemma log_okR_startTest fuel : preserves (@log_okR F) (startTest env fuel).
Proof.
  intros w [] w' H Hok. expose H.
  apply bind_inv in H. destruct H as ([] & w1 & H1 & H).
  apply bind_inv in H. destruct H as ([] & w2 & H2 & H3).
  apply (open_log_starting fuel w w1 Hok) in H1.
  apply (detect_servo_starting _ _ _ H2) in H1.
  apply keeps_start_clock in H3. unfold keeps, snapshot in H3. inversion H3.
  destruct H1 as [H1 _]. eapply log_ok_ext; [ | | | exact H1]; congruence.
Qed.

(** [stepTest]: what is logged is in range, and the position moves by the
    step.  The sum of line 595 stays inside [int] while the position is at
    most 32765. *)
Lemma wrap16_small (z : Z) : -32768 <= z <= 32767 -> wrap16 z = z.
Proof.
  intros Hz. unfold wrap16. change (2 ^ 15) with 32768. change (2 ^ 16) with 65536.
  rewrite Z.mod_small by lia. lia.
Qed.

Lemma sync_or_abort_log_ok (w w' : World F) (aborted : bool) :
  log_ok w -> sync_or_abort cfg env w = Some (aborted, w') ->
  log_ok w' /\ servoPos w' <= servoPos w.
Proof.
  intros Hok H. expose H.
  apply if_inv in H. destruct H as [[_ H] | [_ H]];
    [|apply ret_inv in H; destruct H as [_ H]; subst w'; split; [exact Hok | lia]].
  apply bind_inv in H. destruct H as (ok & w1 & H1 & H).
  assert (Hok1 : log_ok w1 /\ servoPos w1 = servoPos w).
  { inversion H1; subst. split; [|reflexivity].
    eapply log_ok_ext; [ | | | exact Hok]; reflexivity. }
  clear H1. destruct Hok1 as [Hok1 Hp1].
  apply if_inv in H. destruct H as [[_ H] | [_ H]];
    [|apply ret_inv in H; destruct H as [_ H]; subst w'; split; [exact Hok1 | lia]].
  apply bind_inv in H. destruct H as ([] & w2 & H2 & H).
  apply bind_inv in H. destruct H as ([] & w3 & H3 & H).
  apply bind_inv in H. destruct H as ([] & w4 & H4 & H).
  apply bind_inv in H. destruct H as (checked & w5 & H5 & H).
  apply bind_inv in H. destruct H as (active & w6 & H6 & H).
  apply bind_inv in H. destruct H as ([] & w7 & H7 & H).
  apply ret_inv in H. destruct H as [_ H]. subst w'.
  apply gets_inv in H5. destruct H5 as [_ H5]. subst w5.
  apply gets_inv in H6. destruct H6 as [_ H6]. subst w6.
  apply modify_inv in H4.
  assert (Hok4 : log_ok w4 /\ servoPos w4 = servoPos w).
  { apply keeps_printLcd in H2; [|reflexivity]. apply keeps_delay in H3.
    unfold keeps, snapshot in H2, H3. inversion H2. inversion H3. subst w4.
    split; [|simpl; congruence].
    eapply log_ok_ext; [ | | | exact Hok1]; simpl; congruence. }
  destruct Hok4 as [Hok4 Hp4].
  apply when_inv in H7. destruct H7 as [[_ H7] | [_ H7]];
    [|subst w7; split; [exact Hok4 | lia]].
  apply bind_inv in H7. destruct H7 as ([] & wa & Ha & H7).
  apply bind_inv in H7. destruct H7 as ([] & wb & Hb & H7).
  apply modify_inv in Ha. apply modify_inv in Hb. inversion H7; subst w7; clear H7.
  destruct Hok as [(H0 & _) _].
  destruct Hok4 as [_ Hl]. subst wb wa. split; [|simpl; lia]. split; [|exact Hl].
  unfold servo_ok. simpl. split; [lia|]. split; [reflexivity|]. right; left; reflexivity.
Qed.

Lemma log_sample_log_ok (pos : Z) (w w' : World F) (aborted : bool) :
  log_ok w -> in_range pos -> log_sample cfg env pos w = Some (aborted, w') ->
  log_ok w' /\ servoPos w' <= servoPos w.
Proof.
  intros Hok Hr H. expose H.
  apply bind_inv in H. destruct H as (card & w0 & H0 & H).
  apply gets_inv in H0. destruct H0 as [_ H0]. subst w0.
  apply if_inv in H. destruct H as [[_ H] | [_ H]];
    [|apply ret_inv in H; destruct H as [_ H]; subst w'; split; [exact Hok | lia]].
  apply bind_inv in H. destruct H as (time & w0 & H0 & H).
  apply gets_inv in H0. destruct H0 as [_ H0]. subst w0.
  apply bind_inv in H. destruct H as (force & w0 & H0 & H).
  apply gets_inv in H0. destruct H0 as [_ H0]. subst w0.
  apply bind_inv in H. destruct H as ([] & w1 & H1 & H).
  inversion H1; subst w1; clear H1.
  eapply sync_or_abort_log_ok in H.
  - simpl in H. exact H.
  - destruct Hok as [Hs Hl]. split; [exact Hs|]. simpl. constructor; assumption.
Qed.

Lemma advance_servo_log_ok (pos : Z) (w w' : World F) :
  log_ok w -> servoPos w <= 32765 -> advance_servo pos w = Some (tt, w') ->
  log_ok w' /\ servoPos w' <= servoPos w + 2.
Proof.
  intros [(Hp & He & Hs) Hl] Hb H.
  assert (Hw : wrap16 (servoPos w + servoStep w) = servoPos w + servoStep w).
  { apply wrap16_small. destruct Hs as [Hs | [Hs | [Hs _]]]; rewrite Hs; lia. }
  assert (Hstep : servoStep w <= 2) by (destruct Hs as [Hs | [Hs | [Hs _]]]; lia).
  assert (Hm : (servoPos w + servoStep w) mod 2 = 0).
  { destruct Hs as [Hs | [Hs | [Hs _]]]; rewrite Hs;
      rewrite <- Zplus_mod_idemp_l, He; reflexivity. }
  unfold advance_servo in H. cbn in H.
  destruct (servoChecked w && servoActive w); cbn in H;
    [|inversion H; subst; split; [split; [split; auto | exact Hl] | lia]].
  rewrite !Hw in H.
  unfold maxServoPos, TIME_AT_MAX_THROTTLE, SAMPLE_MS in *.
  destruct (servoPos w + servoStep w >=? _) eqn:E1.
  - inversion H; subst; clear H. split; [|simpl; lia]. split; [|exact Hl].
    unfold servo_ok; simpl.
    apply Z.geb_le in E1. change (180 + 3000 / 250) with 192 in E1.
    split; [lia|]. split; [exact Hm | right; right; lia].
  - destruct (servoPos w + servoStep w <=? 0) eqn:E2.
    + cbn in H. inversion H; subst; clear H. split; [|simpl; lia]. split; [|exact Hl].
      unfold servo_ok; simpl. split; [lia|]. split; [exact Hm | right; left; reflexivity].
    + inversion H; subst; clear H. split; [|simpl; lia]. split; [|exact Hl].
      unfold servo_ok; simpl.
      apply Z.leb_gt in E2.
      split; [lia|]. split; [exact Hm|].
      destruct Hs as [Hs | [Hs | [Hs Hge]]]; [auto | auto |].
      right; right. split; [exact Hs|].
      pose proof (Z.div_mod (servoPos w + servoStep w) 2 ltac:(lia)). lia.
Qed.

Lemma stepTest_log_ok (w w' : World F) :
  log_ok w -> servoPos w <= 32765 -> stepTest cfg env w = Some (tt, w') ->
  log_ok w' /\ servoPos w' <= servoPos w + 2.
Proof.
  intros Hok Hb H. expose H.
  apply bind_inv in H. destruct H as ([] & w1 & H1 & H).
  apply bind_inv in H. destruct H as (pos & w0 & H0 & H).
  apply gets_inv in H0. destruct H0 as [Hpos H0]. subst w0.
  apply bind_inv in H. destruct H as (aborted & w2 & H2 & H3).
  apply keeps_take_sample in H1. unfold keeps, snapshot in H1. inversion H1.
  assert (Hok1 : log_ok w1) by (eapply log_ok_ext; [ | | | exact Hok]; congruence).
  assert (Hr : in_range (Z.min 180 pos)).
  { destruct Hok1 as [(Hp & _) _]. unfold in_range. subst pos. lia. }
  destruct (log_sample_log_ok _ _ _ _ Hok1 Hr H2) as [Hok2 Hp2].
  destruct aborted.
  - apply ret_inv in H3. destruct H3 as [_ H3]. subst w'. split; [exact Hok2 | lia].
  - destruct (advance_servo_log_ok _ _ _ Hok2 ltac:(lia) H3) as [Hok3 Hp3].
    split; [exact Hok3 | lia].
Qed.

Lemma log_okR_endTest : preserves (@log_okR F) endTest.
Proof. log_auto. Qed.

Lemma log_okR_setup fuel : preserves (@log_okR F) (setup env fuel).
Proof.
  unfold setup, setupLcd, setupCard, setupCard_begin. pres;
    first [ log_update
          | eapply preserves_from; [apply keeps_card_failed | log_view]
          | eapply preserves_from; [ solve [auto with keepdb] | log_view ] ].
Qed.

Lemma log_ok_power_on : log_ok (power_on cfg).
Proof.
  split; [|constructor]. unfold servo_ok. simpl.
  split; [lia|]. split; [reflexivity|]. right; left; reflexivity.
Qed.

Lemma run_inv fuel n (w : World F) :
  run cfg env fuel n = Some w ->
  exists w1, setup env fuel (power_on cfg) = Some (tt, w1) /\
             loops cfg env fuel n w1 = Some (tt, w).
Proof.
  unfold run. intros H.
  destruct ((setup env fuel;; loops cfg env fuel n) (power_on cfg))
    as [[[] w0]|] eqn:E; [|discriminate H].
  inversion H; subst w0. apply bind_inv in E. destruct E as ([] & w1 & E1 & E2).
  exists w1. auto.
Qed.
(** * Further properties of the sketch *)

(** ** The matcher and the parser of file names *)

Lemma c_str_idem (s : string) : c_str (c_str s) = c_str s.
Proof.
  induction s as [|c r IH]; simpl; [reflexivity|].
  destruct (Ascii.eqb c NUL) eqn:E; simpl; [reflexivity|]. rewrite E, IH. reflexivity.
Qed.

Lemma c_str_offset (n : nat) (s : string) :
  (n <= String.length (c_str s))%nat -> c_str (offset n s) = offset n (c_str s).
Proof.
  revert s. induction n as [|n IH]; intros s Hn; [reflexivity|].
  destruct s as [|c r]; simpl in *; [lia|].
  destruct (Ascii.eqb c NUL) eqn:E; simpl in *; [lia|]. apply IH. lia.
Qed.

Lemma strncmp_eq_c_str (a b : string) (n : nat) :
  strncmp_eq (c_str a) b n = strncmp_eq a b n.
Proof. destruct n; simpl; [reflexivity|]. rewrite c_str_idem. reflexivity. Qed.

Lemma char_at_c_str (s : string) (i : nat) : char_at (c_str s) i = char_at s i.
Proof. unfold char_at. rewrite c_str_idem. reflexivity. Qed.

Lemma forallb_same {A : Type} (f g : A -> bool) (l : list A) :
  (forall x, f x = g x) -> forallb f l = forallb g l.
Proof. intros H. induction l as [|x l IH]; simpl; [reflexivity|]. rewrite H, IH. reflexivity. Qed.

Lemma isMatchingFormat_c_str (s : string) :
  isMatchingFormat (c_str s) = isMatchingFormat s.
Proof.
  unfold isMatchingFormat, strlen. rewrite c_str_idem.
  destruct ((Z.of_nat (String.length (c_str s)) <? 7)
            || (Z.of_nat (String.length (c_str s)) >? 10)) eqn:E; [reflexivity|].
  apply orb_false_iff in E. destruct E as [E1 E2].
  apply Z.ltb_ge in E1.
  rewrite strncmp_eq_c_str.
  rewrite <- (strncmp_eq_c_str (offset _ (c_str s))), <- (strncmp_eq_c_str (offset _ s)).
  rewrite !c_str_offset by (rewrite ?c_str_idem; lia). rewrite c_str_idem.
  match goal with |- (if ?b then _ else _) = _ => destruct b; [reflexivity|] end.
  apply forallb_same. intros i. rewrite char_at_c_str. reflexivity.
Qed.


Lemma nulfree_cons (c : ascii) (r : string) :
  c_str (String c r) = String c r -> Ascii.eqb c NUL = false /\ c_str r = r.
Proof.
  simpl. destruct (Ascii.eqb c NUL); [discriminate|]. intros H. inversion H.
  split; [reflexivity|]. congruence.
Qed.


Lemma digit_not_nul (c : ascii) : isdigit c = true -> Ascii.eqb c NUL = false.
Proof.
  destruct c as [[] [] [] [] [] [] [] []]; intros H; try reflexivity; discriminate H.
Qed.

(** Computes the matcher on a name given character by character. *)
Ltac name_compute :=
  unfold isMatchingFormat, strlen;
  repeat (progress (cbn -[isdigit]; unfold char_at;
                    repeat match goal with
                           | E : Ascii.eqb _ NUL = false |- _ => rewrite E
                           end;
                    repeat match goal with
                           | |- context [Pos.to_nat ?p] =>
                               let v := eval vm_compute in (Pos.to_nat p) in
                               change (Pos.to_nat p) with v
                           end)).

Lemma log_name_matches (t : string) : log_name t -> isMatchingFormat t = true.
Proof.
  intros (ds & Heq & Hlen & Hd). subst t. unfold all_digits in Hd.
  destruct ds as [|d1 [|d2 [|d3 [|d4 [|d5 ds]]]]]; simpl in Hlen; try lia;
    simpl in Hd;
    repeat match goal with
           | H : _ && _ = true |- _ => apply andb_true_iff in H; destruct H
           end;
    repeat match goal with
           | H : isdigit ?d = true |- _ =>
               match goal with
               | E : Ascii.eqb d NUL = false |- _ => fail 1
               | _ => pose proof (digit_not_nul d H)
               end
           end;
    name_compute;
    repeat match goal with H : isdigit _ = true |- _ => rewrite H end;
    reflexivity.
Qed.

Lemma matching_length (t : string) :
  isMatchingFormat t = true -> (7 <= String.length (c_str t) <= 10)%nat.
Proof.
  unfold isMatchingFormat, strlen.
  destruct (Z.of_nat (String.length (c_str t)) <? 7) eqn:E1; [discriminate|].
  destruct (Z.of_nat (String.length (c_str t)) >? 10) eqn:E2; [discriminate|].
  intros _. apply Z.ltb_ge in E1. rewrite Z.gtb_ltb in E2. apply Z.ltb_ge in E2. lia.
Qed.

Ltac eqb_cases :=
  repeat match goal with
         | H : context [Ascii.eqb ?c ?l] |- _ =>
             lazymatch l with
             | NUL => fail
             | _ => destruct (Ascii.eqb_spec c l); [subst c|]; cbn -[isdigit] in H;
                    try discriminate H
             end
         end.

Lemma matches_log_name (t : string) :
  c_str t = t -> isMatchingFormat t = true -> log_name t.
Proof.
  intros Hc Hm. pose proof (matching_length t Hm) as Hlen. rewrite Hc in Hlen.
  destruct t as [|c0 [|c1 [|c2 [|c3 [|c4 [|c5 [|c6 t]]]]]]]; simpl in Hlen; try lia.
  destruct t as [|c7 [|c8 [|c9 [|c10 t]]]]; simpl in Hlen; try lia;
    repeat match goal with
           | H : c_str (String _ _) = String _ _ |- _ =>
               apply nulfree_cons in H; destruct H as [? H]
           end;
    revert Hm; name_compute; intros Hm; eqb_cases;
    repeat match goal with
           | H : _ && _ = true |- _ => apply andb_true_iff in H; destruct H
           end.
  - exists (String c2 ""). unfold all_digits. simpl.
    repeat match goal with H : isdigit _ = true |- _ => rewrite H end.
    split; [reflexivity|]. split; [lia | reflexivity].
  - exists (String c2 (String c3 "")). unfold all_digits. simpl.
    repeat match goal with H : isdigit _ = true |- _ => rewrite H end.
    split; [reflexivity|]. split; [lia | reflexivity].
  - exists (String c2 (String c3 (String c4 ""))). unfold all_digits. simpl.
    repeat match goal with H : isdigit _ = true |- _ => rewrite H end.
    split; [reflexivity|]. split; [lia | reflexivity].
  - exists (String c2 (String c3 (String c4 (String c5 "")))). unfold all_digits. simpl.
    repeat match goal with H : isdigit _ = true |- _ => rewrite H end.
    split; [reflexivity|]. split; [lia | reflexivity].
Qed.

(** X1: The matcher accepts exactly the names t_, one to four digits, .csv. *)
Theorem isMatchingFormat_iff (s : string) :
  isMatchingFormat s = true <-> log_name (c_str s).
Proof.
  rewrite <- isMatchingFormat_c_str. split.
  - apply matches_log_name. apply c_str_idem.
  - apply log_name_matches.
Qed.


Lemma digit_val_range (c : ascii) : isdigit c = true -> 0 <= digit_val c <= 9.
Proof.
  unfold isdigit, digit_val. intros H. apply andb_true_iff in H. destruct H as [H1 H2].
  apply Z.leb_le in H1, H2. lia.
Qed.

Lemma digit_not_space (c : ascii) : isdigit c = true -> isspace c = false.
Proof.
  destruct c as [[] [] [] [] [] [] [] []]; intros H; try reflexivity; discriminate H.
Qed.

Lemma digit_not_dot (c : ascii) : isdigit c = true -> c <> "."%char.
Proof. intros H E. subst c. discriminate H. Qed.

Lemma atoi_digits_value (ds : string) (acc : Z) :
  all_digits ds = true ->
  atoi_digits ds acc =
  fold_left (fun acc c => 10 * acc + digit_val c) (list_ascii_of_string ds) acc.
Proof.
  revert acc. induction ds as [|d ds IH]; intros acc Hd; simpl; [reflexivity|].
  unfold all_digits in Hd. simpl in Hd. apply andb_true_iff in Hd. destruct Hd as [H1 H2].
  rewrite H1. rewrite IH by exact H2.
  replace (acc * 10 + digit_val d) with (10 * acc + digit_val d) by lia. reflexivity.
Qed.

Lemma c_str_digits (ds : string) : all_digits ds = true -> c_str ds = ds.
Proof.
  induction ds as [|d ds IH]; intros Hd; simpl; [reflexivity|].
  unfold all_digits in Hd. simpl in Hd. apply andb_true_iff in Hd. destruct Hd as [H1 H2].
  rewrite (digit_not_nul d H1). rewrite IH by exact H2. reflexivity.
Qed.

Lemma atoi_of_digits (ds : string) :
  all_digits ds = true -> atoi ds = digits_value ds.
Proof.
  intros Hd. unfold atoi, digits_value. rewrite c_str_digits by exact Hd.
  destruct ds as [|d ds]; [reflexivity|].
  assert (H1 : isdigit d = true).
  { unfold all_digits in Hd. simpl in Hd. apply andb_true_iff in Hd. tauto. }
  simpl skip_space. rewrite (digit_not_space d H1).
  rewrite <- (atoi_digits_value (String d ds) 0 Hd).
  destruct d as [[] [] [] [] [] [] [] []]; try discriminate H1; reflexivity.
Qed.

Lemma digits_value_range (ds : string) :
  all_digits ds = true -> (String.length ds <= 4)%nat -> 0 <= digits_value ds <= 9999.
Proof.
  intros Hd Hl. unfold digits_value, all_digits in *.
  destruct ds as [|d1 [|d2 [|d3 [|d4 [|d5 ds]]]]];
    cbn [fold_left list_ascii_of_string String.length forallb] in *; try lia;
    repeat match goal with
           | H : _ && _ = true |- _ => apply andb_true_iff in H; destruct H
           end;
    repeat match goal with
           | H : isdigit ?d = true |- _ => apply digit_val_range in H
           end; lia.
Qed.

Lemma num_span_log_name (ds : string) :
  all_digits ds = true -> (1 <= String.length ds <= 4)%nat ->
  num_span ("t_" ++ ds ++ ".csv")%string = Some ds.
Proof.
  intros Hd Hl. unfold all_digits in Hd.
  destruct ds as [|d1 [|d2 [|d3 [|d4 [|d5 ds]]]]];
    cbn [String.length list_ascii_of_string forallb] in *; try lia;
    repeat match goal with
           | H : _ && _ = true |- _ => apply andb_true_iff in H; destruct H
           end;
    repeat match goal with
           | H : isdigit ?d = true |- _ =>
               match goal with
               | E : Ascii.eqb d NUL = false |- _ => fail 1
               | _ => pose proof (digit_not_nul d H); pose proof (digit_not_dot d H)
               end
           end;
    unfold num_span, strstr;
    repeat (progress (cbn -[isdigit ascii_dec];
                      repeat match goal with
                             | E : Ascii.eqb _ NUL = false |- _ => rewrite E
                             end;
                      repeat match goal with
                             | |- context [ascii_dec ?a ?b] =>
                                 let e := fresh "e" in
                                 let n := fresh "n" in
                                 destruct (ascii_dec a b) as [e|n];
                                 [ try discriminate e; try congruence;
                                   try (subst; discriminate)
                                 | try congruence ]
                             end));
    reflexivity.
Qed.

Lemma accepted_span (s : string) :
  isMatchingFormat s = true ->
  exists ds, c_str s = ("t_" ++ ds ++ ".csv")%string /\
             (1 <= String.length ds <= 4)%nat /\ all_digits ds = true /\
             num_span s = Some ds.
Proof.
  intros Hm. rewrite <- isMatchingFormat_c_str in Hm.
  apply (matches_log_name _ (c_str_idem s)) in Hm. destruct Hm as (ds & Heq & Hl & Hd).
  exists ds. split; [exact Heq|]. split; [exact Hl|]. split; [exact Hd|].
  pose proof (num_span_log_name ds Hd Hl) as H. unfold num_span, strstr in *.
  pose proof (c_str_idem s) as Hi. rewrite Heq in Hi. rewrite Hi in H.
  rewrite Heq. exact H.
Qed.

(** The copy of [getFileNum] stays inside [numString]: at most four
    characters and the NUL. *)
Lemma num_span_fits (s : string) :
  isMatchingFormat s = true ->
  exists ds, num_span s = Some ds /\ (String.length ds < 10)%nat.
Proof.
  intros Hm. destruct (accepted_span s Hm) as (ds & _ & Hl & _ & Hs).
  exists ds. split; [exact Hs | lia].
Qed.

(** X2: On an accepted name, [getFileNum] copies at most four characters into
    [numString] and returns the number that the digits write. *)
Theorem getFileNum_of_accepted (s : string) :
  isMatchingFormat s = true ->
  exists ds,
    c_str s = ("t_" ++ ds ++ ".csv")%string /\
    num_span s = Some ds /\ (String.length ds <= 4)%nat /\
    getFileNum s = digits_value ds /\ 0 <= getFileNum s <= 9999.
Proof.
  intros Hm. destruct (accepted_span s Hm) as (ds & Heq & Hl & Hd & Hs).
  exists ds. split; [exact Heq|]. split; [exact Hs|]. split; [lia|].
  unfold getFileNum. rewrite Hs. rewrite atoi_of_digits by exact Hd.
  split; [reflexivity|]. apply digits_value_range; [exact Hd | lia].
Qed.

(** ** The allocator of file names *)

Lemma last_number_nonneg (w : World F) : 0 <= maxFileNum w -> 0 <= last_number env w.
Proof.
  intros H0. unfold last_number. destruct (maxFileNum w =? 0) eqn:E; [|exact H0].
  destruct (dir_in env (nscans w)) as [entries|]; [|lia].
  destruct (fold_scan_entry entries 0) as (H1 & _). exact H1.
Qed.

Lemma getFileName_number (fuel : nat) (w w' : World F) (name : string) :
  0 <= maxFileNum w ->
  getFileName env fuel w = Some (name, w') ->
  exists n, 1 <= n <= 999 /\ maxFileNum w' = n /\ name = formatFileName n.
Proof.
  intros H0 H. pose proof (last_number_nonneg w H0) as Hl.
  destruct (Z.le_gt_cases (last_number env w) 998) as [Hs | Hb].
  - destruct (getFileName_next fuel w Hs) as (w1 & G & M1 & _).
    rewrite G in H. inversion H; subst. exists (last_number env w + 1).
    split; [lia|]. split; [exact M1 | reflexivity].
  - destruct (getFileName_wrap fuel w w' name ltac:(lia) H) as (_ & Hname & Hm & _).
    exists 1. split; [lia|]. split; [exact Hm | exact Hname].
Qed.

(** X3: Every name that [getFileName] returns is t_<n>.csv for the new cached
    number n, which lies between 1 and 999; the name is not cut by the
    ten-byte buffer, the matcher accepts it and it parses back to n. *)
Theorem getFileName_returns_log_name (fuel : nat) (w w' : World F) (name : string) :
  0 <= maxFileNum w ->
  getFileName env fuel w = Some (name, w') ->
  exists n, 1 <= n <= 999 /\ maxFileNum w' = n /\
            name = ("t_" ++ dec n ++ ".csv")%string /\
            isMatchingFormat name = true /\ getFileNum name = n.
Proof.
  intros H0 H.
  destruct (getFileName_number fuel w w' name H0 H) as (n & Hr & Hm & Hname). exists n.
  destruct (name_roundtrip n Hr) as [Ha Hb]. subst name.
  rewrite <- (formatFileName_uncut n Hr). auto.
Qed.

#[local] Instance scan_okR_pre : Pre (@scan_okR F).
Proof. split; unfold scan_okR; auto. Qed.

Lemma scan_ok_ext (w w' : World F) :
  maxFileNum w' = maxFileNum w -> scans w' = scans w -> scan_ok w -> scan_ok w'.
Proof. unfold scan_ok. intros H1 H2. rewrite H1, H2. auto. Qed.

Ltac scan_view :=
  let Hv := fresh "Hv" in
  intros ? ? Hv; view_open; inversion Hv;
  intro; eapply scan_ok_ext; [ | | eassumption ]; congruence.

Ltac scan_auto :=
  pres; first [ solve [ intro; eapply scan_ok_ext; [ | | eassumption ]; reflexivity ]
              | eapply preserves_from; [ solve [auto with keepdb] | scan_view ]
              | idtac ].

Lemma keeps_scans_confirm_wrap fuel :
  preserves (keeps (@scans F)) (confirm_wrap env fuel).
Proof. unfold confirm_wrap. pres; first [reflexivity | keep_call]. Qed.

Lemma scan_okR_getFileName fuel : preserves (@scan_okR F) (getFileName env fuel).
Proof.
  intros w name w' H (H0 & Hz & Hs).
  pose proof (last_number_nonneg w H0) as Hl.
  destruct (after_scan_frame w) as (_ & _ & Hsc).
  assert (Hs1 : (scans (after_scan env w) <= 1)%nat).
  { rewrite Hsc. destruct (maxFileNum w =? 0) eqn:E; [|exact Hs].
    apply Z.eqb_eq in E. rewrite (Hz E). lia. }
  destruct (getFileName_number fuel w w' name H0 H) as (n & Hr & Hm & _).
  assert (Hsw : scans w' = scans (after_scan env w)).
  { rewrite getFileName_eq in H. cbv zeta in H.
    destruct (maxFileNum (after_scan env w) + 1 >? 999).
    - apply bind_inv in H. destruct H as (k & w1 & H1 & H2).
      apply ret_inv in H2. destruct H2 as [_ H2]. subst w1.
      apply keeps_scans_confirm_wrap in H1. exact H1.
    - inversion H; subst. reflexivity. }
  split; [lia|]. split; [intros Hc; lia | rewrite Hsw; exact Hs1].
Qed.

Lemma scan_okR_open_log fuel : preserves (@scan_okR F) (open_log env fuel).
Proof. unfold open_log, writeHeader. scan_auto. apply scan_okR_getFileName. Qed.

Lemma scan_okR_startTest fuel : preserves (@scan_okR F) (startTest env fuel).
Proof. unfold startTest, detect_servo. scan_auto. apply scan_okR_open_log. Qed.

Lemma scan_okR_loop fuel : preserves (@scan_okR F) (loop cfg env fuel).
Proof. unfold loop, loop_toggle, loop_step. scan_auto. apply scan_okR_startTest. Qed.

Lemma scan_okR_loops fuel n : preserves (@scan_okR F) (loops cfg env fuel n).
Proof. induction n as [|n IH]; simpl; pres; [apply scan_okR_loop | exact IH]. Qed.

Lemma scan_okR_setup fuel : preserves (@scan_okR F) (setup env fuel).
Proof.
  unfold setup, setupLcd, setupCard, setupCard_begin. pres;
    first [ solve [ intro; eapply scan_ok_ext; [ | | eassumption ]; reflexivity ]
          | eapply preserves_from; [apply keeps_card_failed | scan_view]
          | eapply preserves_from; [ solve [auto with keepdb] | scan_view ] ].
Qed.

(** X4: In every run from power-on the directory is listed at most once, and
    the cached file number is never negative. *)
Theorem directory_listed_at_most_once (fuel n : nat) (w : World F) :
  run cfg env fuel n = Some w -> (scans w <= 1)%nat /\ 0 <= maxFileNum w.
Proof.
  intros H. destruct (run_inv fuel n w H) as (w1 & H1 & H2).
  assert (Hok : scan_ok w).
  { apply (scan_okR_loops fuel n _ _ _ H2). apply (scan_okR_setup fuel _ _ _ H1).
    split; [simpl; lia|]. split; [reflexivity|].
    replace (scans (power_on cfg)) with 0%nat by reflexivity. lia. }
  destruct Hok as (H0 & _ & Hs). auto.
Qed.

(** ** Mounting the card and the main loop *)

Lemma while_skip {S : Type} fuel (cond : S -> bool) (body : M S unit) (s s' : S) :
  cond s = false -> while fuel cond body s = Some (tt, s') -> s' = s.
Proof.
  intros Hc H. destruct fuel as [|fuel]; [discriminate H|].
  rewrite (while_step_false fuel cond body s Hc) in H. inversion H. reflexivity.
Qed.

Lemma cardExists_of_snapshot (w w' : World F) :
  snapshot w' = snapshot w -> cardExists w' = cardExists w.
Proof. unfold snapshot. intros H. inversion H. congruence. Qed.

(** X6: [setupCard] returns with the flag set.  With a card it reads the button
    not once and shows nothing; without one it holds the notice until the
    button is pressed, and the card stays marked as it was. *)
Theorem setupCard_outcome (fuel : nat) (w w' : World F) :
  setupCard env fuel w = Some (tt, w') ->
  continueFlag w' = true /\
  cardExists w' = (sd_begin_in env || cardExists w) /\
  (sd_begin_in env = true -> nreads w' = nreads w /\ trace w' = trace w) /\
  (sd_begin_in env = false -> continueFlag w = true -> pressed_between env w w').
Proof.
  intros H. pose proof (setupCard_flag fuel w w' H) as Hf.
  unfold setupCard in H.
  apply bind_inv in H. destruct H as ([] & w1 & H1 & H).
  apply bind_inv in H. destruct H as ([] & w2 & H2 & H).
  apply modify_inv in H. split; [exact Hf|].
  unfold setupCard_begin in H1. apply when_inv in H1.
  destruct H1 as [[Hb H1] | [Hb H1]]; rewrite Hb.
  - apply bind_inv in H1. destruct H1 as ([] & wa & Ha & H1).
    apply modify_inv in Ha. apply modify_inv in H1.
    assert (E : w2 = w1).
    { apply (while_skip fuel _ _ _ _) in H2; [exact H2|]. subst w1 wa. reflexivity. }
    subst w' w2 w1 wa. split; [reflexivity|]. split; [auto|]. discriminate.
  - subst w1. pose proof (while_exit _ _ _ _ _ H2) as Hx.
    assert (Hk : preserves (keeps (@snapshot F))
                   (while fuel continueFlag (printLcdScroll env card_failed_text))).
    { apply preserves_while; [typeclasses eauto | apply keeps_card_failed]. }
    assert (Hr : preserves (flagR env)
                   (while fuel continueFlag (printLcdScroll env card_failed_text))).
    { apply preserves_while; [typeclasses eauto|].
      apply flagR_of_flagIff. apply flagIff_printLcdScroll. }
    apply Hk in H2 as Hs. apply cardExists_of_snapshot in Hs.
    apply Hr in H2 as [Hn Hp]. subst w'.
    split; [exact Hs|]. split; [discriminate|].
    intros _ Hw. destruct (Hp Hx) as [Hc | Hc]; [congruence|].
    eapply pressed_between_mono; [apply Nat.le_refl | | exact Hc]. apply Nat.le_refl.
Qed.

Lemma keeps_scaleActive_toggled fuel (running : bool) :
  preserves (keeps (@scaleActive F))
    ((if running then startTest env fuel else endTest ;; delay 5000) ;;
     modify (set_continueFlag true)).
Proof.
  pres; try reflexivity.
  - eapply preserves_from; [apply keeps_startTest|].
    intros ? ? Hv; view_open; inversion Hv; congruence.
  - eapply preserves_from; [apply keeps_endTest|].
    intros ? ? Hv; view_open; inversion Hv; congruence.
  - eapply preserves_from; [apply keeps_delay|].
    intros ? ? Hv; view_open; inversion Hv; congruence.
Qed.

(** X7: Lines 631-641 act only on a cleared flag: then the running state flips
    and the flag is set again; with the flag set nothing changes. *)
Theorem loop_toggle_outcome (fuel : nat) (w w' : World F) :
  loop_toggle env fuel w = Some (tt, w') ->
  continueFlag w' = true /\
  scaleActive w' = xorb (scaleActive w) (negb (continueFlag w)) /\
  (continueFlag w = true -> w' = w).
Proof.
  intros H. pose proof (loop_toggle_flag fuel w w' H) as Hf. split; [exact Hf|].
  unfold loop_toggle in H.
  apply bind_inv in H. destruct H as (flag & w0 & H0 & H).
  apply gets_inv in H0. destruct H0 as [Hflag ->].
  apply when_inv in H. destruct H as [[Hb H] | [Hb H]].
  - apply negb_true_iff in Hb. subst flag. rewrite Hb.
    apply bind_inv in H. destruct H as ([] & w1 & H1 & H). apply modify_inv in H1.
    apply bind_inv in H. destruct H as ([] & w2 & H2 & H). apply modify_inv in H2.
    apply bind_inv in H. destruct H as (running & w3 & H3 & H).
    apply gets_inv in H3. destruct H3 as [_ ->].
    apply keeps_scaleActive_toggled in H. unfold keeps in H.
    split; [|discriminate]. rewrite H. subst w2 w1. simpl. apply xorb_true_r.
  - apply negb_false_iff in Hb. subst flag. rewrite Hb. subst w'.
    split; [simpl; symmetry; apply xorb_false_r | reflexivity].
Qed.

Lemma bind_run {S A B : Type} (m : M S A) (k : A -> M S B) (s s1 : S) (a : A) :
  m s = Some (a, s1) -> bind m k s = k a s1.
Proof. intros H. unfold bind. rewrite H. reflexivity. Qed.

Lemma wait_press_cleared fuel dt total (w : World F) :
  continueFlag w = false -> wait_press env (S fuel) dt total w = Some (total, w).
Proof.
  intros H. simpl. unfold bind, gets. rewrite H, andb_false_r. reflexivity.
Qed.

Lemma wait_release_idle fuel dt total (w : World F) :
  buttonState w = HIGH -> wait_release env (S fuel) dt total false w = Some (tt, w).
Proof.
  intros H. simpl. unfold bind, gets. rewrite H. simpl. rewrite andb_false_r. reflexivity.
Qed.

Lemma ramp_loop_cleared fuel setPos step dt (w : World F) :
  continueFlag w = false -> ramp_loop env (S fuel) setPos step dt w = Some (tt, w).
Proof.
  intros H. simpl. unfold bind, gets. rewrite H, andb_false_r. reflexivity.
Qed.

(** X8: With the flag already cleared a wait that is not [full] returns at once,
    without reading the button and without a delay, and [rampServo] leaves
    the servo where it is. *)
Theorem cleared_flag_skips_the_wait (dt : Z) (w : World F) :
  continueFlag w = false ->
  delayCheckButton env dt false w = Some (tt, set_buttonState HIGH w) /\
  (forall setPos d, rampServo env setPos d w = Some (tt, w)).
Proof.
  intros H. split.
  - unfold delayCheckButton, polls.
    rewrite (bind_run _ _ w (set_buttonState HIGH w) tt) by reflexivity.
    rewrite (bind_run _ _ _ (set_buttonState HIGH w) 0)
      by (apply wait_press_cleared; exact H).
    apply wait_release_idle. reflexivity.
  - intros setPos d. unfold rampServo.
    rewrite (bind_run _ _ w w (servoPos w)) by reflexivity.
    apply ramp_loop_cleared. exact H.
Qed.

Lemma scaleActive_of_snapshot (w w' : World F) :
  snapshot w' = snapshot w -> scaleActive w' = scaleActive w.
Proof. unfold snapshot. intros H. inversion H. congruence. Qed.

Lemma loop_toggle_scaleActive fuel (w w' : World F) :
  loop_toggle env fuel w = Some (tt, w') ->
  scaleActive w' = xorb (scaleActive w) (negb (continueFlag w)).
Proof.
  intros H. unfold loop_toggle in H.
  apply bind_inv in H. destruct H as (flag & w0 & H0 & H).
  apply gets_inv in H0. destruct H0 as [Hflag ->].
  apply when_inv in H. destruct H as [[Hb H] | [Hb H]].
  - apply negb_true_iff in Hb. subst flag. rewrite Hb.
    apply bind_inv in H. destruct H as ([] & w1 & H1 & H). apply modify_inv in H1.
    apply bind_inv in H. destruct H as ([] & w2 & H2 & H). apply modify_inv in H2.
    apply bind_inv in H. destruct H as (running & w3 & H3 & H).
    apply gets_inv in H3. destruct H3 as [_ ->].
    apply keeps_scaleActive_toggled in H. unfold keeps in H.
    rewrite H. subst w2 w1. simpl. apply xorb_true_r.
  - apply negb_false_iff in Hb. subst flag. rewrite Hb. subst w'.
    simpl; symmetry; apply xorb_false_r.
Qed.

Lemma loop_step_frame (w w' : World F) :
  loop_step cfg env w = Some (tt, w') ->
  scaleActive w' = scaleActive w /\ (nreads w <= nreads w')%nat.
Proof.
  intros H. unfold loop_step in H.
  apply bind_inv in H. destruct H as (running & w0 & H0 & H).
  apply gets_inv in H0. destruct H0 as [_ ->].
  apply bind_inv in H. destruct H as (flag & w0 & H0 & H).
  apply gets_inv in H0. destruct H0 as [_ ->].
  destruct (running && flag).
  - split.
    + apply keeps_stepTest in H. unfold keeps, view_step in H. inversion H. congruence.
    + apply stepTest_flag in H. tauto.
  - split.
    + apply keeps_delayCheckButton in H. apply scaleActive_of_snapshot. exact H.
    + apply flagIff_delayCheckButton in H. destruct H as [Hn _]. exact Hn.
Qed.

(** ** What a command adds to the trace *)

#[local] Instance only_pre (P : Event F -> bool) : Pre (only P).
Proof.
  split.
  - intros w. exists []. split; reflexivity.
  - intros a b c (e1 & H1 & P1) (e2 & H2 & P2). exists (e2 ++ e1). split.
    + rewrite H2, H1. apply app_assoc.
    + rewrite forallb_app, P1, P2. reflexivity.
Qed.

Lemma only_same (P : Event F -> bool) (w w' : World F) :
  trace w' = trace w -> only P w w'.
Proof. intros H. exists []. split; [exact H | reflexivity]. Qed.

Lemma only_weaken (P Q : Event F -> bool) (w w' : World F) :
  allows P Q -> only P w w' -> only Q w w'.
Proof.
  intros HPQ (evs & H & HP). exists evs. split; [exact H|].
  apply forallb_forall. intros e He. apply HPQ.
  rewrite forallb_forall in HP. apply HP. exact He.
Qed.

Lemma only_emit (P : Event F -> bool) (e : Event F) :
  P e = true -> preserves (only P) (emit e).
Proof.
  intros He w x w' H. inversion H; subst. exists [e].
  split; [reflexivity | simpl; rewrite He; reflexivity].
Qed.

#[local] Instance quiet_pre (P : Event F -> bool) : Pre (quiet P).
Proof.
  split.
  - intros w. split; [apply pre_refl | reflexivity].
  - intros a b c [H1 F1] [H2 F2]. split; [eapply pre_trans; eassumption | congruence].
Qed.

Lemma quiet_same (P : Event F -> bool) (w w' : World F) :
  trace w' = trace w -> frame w' = frame w -> quiet P w w'.
Proof. intros H1 H2. split; [apply only_same; exact H1 | exact H2]. Qed.

Lemma quiet_emit (P : Event F -> bool) (e : Event F) :
  P e = true -> preserves (quiet P) (emit e).
Proof.
  intros He w x w' H. split; [eapply only_emit; eassumption|].
  inversion H; subst. reflexivity.
Qed.

Lemma quiet_read {A : Type} (P : Event F -> bool) (f : M (World F) A) :
  (forall w a w', f w = Some (a, w') -> trace w' = trace w /\ frame w' = frame w) ->
  preserves (quiet P) f.
Proof. intros Hf w a w' H. apply Hf in H. destruct H. apply quiet_same; assumption. Qed.

Lemma quiet_digitalRead (P : Event F -> bool) : preserves (quiet P) (digitalRead env).
Proof. apply quiet_read. intros w a w' H. inversion H; subst. split; reflexivity. Qed.

Lemma quiet_millis (P : Event F -> bool) : preserves (quiet P) (millis env).
Proof. apply quiet_read. intros w a w' H. inversion H; subst. split; reflexivity. Qed.

Lemma quiet_get_units (P : Event F -> bool) n : preserves (quiet P) (get_units env n).
Proof. apply quiet_read. intros w a w' H. inversion H; subst. split; reflexivity. Qed.

Lemma quiet_printLcd (P : Event F -> bool) a b :
  allows is_display P -> preserves (quiet P) (printLcd a b).
Proof. intros HP. unfold printLcd. pres; apply quiet_emit; apply HP; reflexivity. Qed.

Ltac quiet_update := solve [ apply quiet_same; reflexivity ].

Lemma quiet_wait_press (P : Event F -> bool) fuel dt total :
  allows is_delay P -> preserves (quiet P) (wait_press env fuel dt total).
Proof.
  intros HP. revert total. induction fuel as [|fuel IH]; intros total; simpl; pres;
    try quiet_update; try apply quiet_digitalRead; try apply IH.
  apply quiet_emit. apply HP. reflexivity.
Qed.

Lemma quiet_wait_release (P : Event F -> bool) fuel dt total full :
  allows is_delay P -> preserves (quiet P) (wait_release env fuel dt total full).
Proof.
  intros HP. revert total. induction fuel as [|fuel IH]; intros total; simpl; pres;
    try quiet_update; try apply quiet_digitalRead; try apply IH.
  apply quiet_emit. apply HP. reflexivity.
Qed.

Lemma quiet_delayCheckButton (P : Event F -> bool) dt full :
  allows is_delay P -> preserves (quiet P) (delayCheckButton env dt full).
Proof.
  intros HP. unfold delayCheckButton. pres; try quiet_update.
  - apply quiet_wait_press. exact HP.
  - apply quiet_wait_release. exact HP.
Qed.

Lemma quiet_delay (P : Event F -> bool) ms :
  allows is_delay P -> preserves (quiet P) (delay ms).
Proof. intros HP. apply quiet_emit. apply HP. reflexivity. Qed.

Lemma quiet_scroll (P : Event F -> bool) tokens :
  allows is_display P -> allows is_delay P -> preserves (quiet P) (scroll env tokens).
Proof.
  intros HD HW.
  assert (H : forall n tokens, (List.length tokens <= n)%nat ->
              preserves (quiet P) (scroll env tokens)).
  { induction n as [|n IH]; intros [|t1 [|t2 rest]] Hl; simpl in *;
      pres; try lia; try (apply quiet_delayCheckButton; exact HW);
      try (apply quiet_printLcd; exact HD).
    apply IH; lia. }
  apply (H (List.length tokens)). lia.
Qed.

Lemma quiet_printLcdScroll (P : Event F -> bool) text :
  allows is_display P -> allows is_delay P -> preserves (quiet P) (printLcdScroll env text).
Proof. intros HD HW. apply quiet_scroll; assumption. Qed.

Lemma only_of_quiet {A : Type} (P : Event F -> bool) (m : M (World F) A) :
  preserves (quiet P) m -> preserves (only P) m.
Proof. intros Hm w a w' H. apply Hm in H. destruct H as [H _]. exact H. Qed.

Lemma delayed_app (evs tr : list (Event F)) :
  delayed (evs ++ tr) = delayed evs + delayed tr.
Proof.
  induction evs as [|e evs IH]; simpl; [reflexivity|].
  destruct e; rewrite IH; lia.
Qed.

Lemma delayed_no_delay (w w' : World F) :
  only no_delay w w' -> delayed (trace w') = delayed (trace w).
Proof.
  intros (evs & H & HP). rewrite H, delayed_app. clear H.
  assert (E : delayed evs = 0); [|lia].
  induction evs as [|e evs IH]; [reflexivity|].
  simpl in HP. apply andb_true_iff in HP. destruct HP as [He HP].
  destruct e; simpl in *; try discriminate; apply IH; exact HP.
Qed.

(** ** How long the waits last *)

Lemma wait_press_delay fuel dt total (w w1 : World F) (t : Z) :
  0 <= total -> dt <= 2 ^ 32 - 50 ->
  wait_press env fuel dt total w = Some (t, w1) ->
  total <= t /\ delayed (trace w1) - delayed (trace w) = Z.min t dt - Z.min total dt.
Proof.
  revert total w. induction fuel as [|fuel IH]; intros total w H0 Hd H.
  - discriminate H.
  - cbn in H. destruct (total <? dt) eqn:Et; simpl in H.
    + apply Z.ltb_lt in Et. destruct (continueFlag w) eqn:Ef.
      * cbn in H. destruct (digitalRead_in env (nreads w)).
        -- apply bind_inv in H. destruct H as ([] & w2 & Hdl & H2).
           inversion Hdl; subst w2. rewrite wrap32_small in H2 by lia.
           apply IH in H2; [|lia|lia]. fields. cbn [delayed] in H2. lia.
        -- cbn in H. inversion H; subst. fields. lia.
      * inversion H; subst. lia.
    + apply Z.ltb_ge in Et. inversion H; subst. lia.
Qed.

Lemma wait_release_delay fuel dt total full (w w1 : World F) :
  0 <= total -> dt <= 2 ^ 32 - 50 ->
  wait_release env fuel dt total full w = Some (tt, w1) ->
  0 <= delayed (trace w1) - delayed (trace w) <= Z.max 0 (dt - total).
Proof.
  revert total w. induction fuel as [|fuel IH]; intros total w H0 Hd H.
  - discriminate H.
  - cbn in H. destruct (total <? dt) eqn:Et; simpl in H.
    + apply Z.ltb_lt in Et. destruct (full || is_LOW (buttonState w)).
      * cbn in H. destruct (digitalRead_in env (nreads w)).
        -- cbn in H. inversion H; subst. fields. lia.
        -- apply bind_inv in H. destruct H as ([] & w2 & Hdl & H2).
           inversion Hdl; subst w2. rewrite wrap32_small in H2 by lia.
           apply IH in H2; [|lia|lia]. fields. cbn [delayed] in H2. lia.
      * inversion H; subst. lia.
    + inversion H; subst. lia.
Qed.

Lemma unpressed_between (w w' : World F) :
  (forall i, (nreads w <= i)%nat -> digitalRead_in env i = HIGH) ->
  ~ pressed_between env w w'.
Proof. intros Hu (i & Hi & HL). rewrite Hu in HL by lia. discriminate HL. Qed.

Lemma delayCheckButton_delay dt full (w w' : World F) :
  0 <= dt <= 2 ^ 32 - 50 ->
  delayCheckButton env dt full w = Some (tt, w') ->
  within dt w w' /\
  (continueFlag w = true ->
   (forall i, (nreads w <= i)%nat -> digitalRead_in env i = HIGH) ->
   delayed (trace w') - delayed (trace w) = dt /\ continueFlag w' = true).
Proof.
  intros Hd H. pose proof (flagIff_delayCheckButton dt full _ _ _ H) as [_ Hiff].
  unfold delayCheckButton in H.
  apply bind_inv in H. destruct H as ([] & w0 & H0 & H).
  apply bind_inv in H. destruct H as (t & w1 & H1 & H2).
  inversion H0; subst w0; clear H0.
  pose proof (wait_press_exit _ _ _ _ _ _ H1) as Hx.
  pose proof (flagIff_wait_press _ _ _ _ _ _ H1) as [_ Hiff1].
  apply wait_press_delay in H1; [|lia|lia].
  apply wait_release_delay in H2; [|lia|lia].
  fields. unfold within. split; [lia|].
  intros Hf Hu.
  assert (Hf' : continueFlag w' = true).
  { destruct (continueFlag w') eqn:E; [reflexivity|].
    destruct Hiff as [Hiff _]. destruct (Hiff eq_refl) as [Hc | Hc]; [congruence|].
    exfalso. exact (unpressed_between _ _ Hu Hc). }
  split; [|exact Hf'].
  assert (Hf1 : continueFlag w1 = true).
  { destruct (continueFlag w1) eqn:E; [reflexivity|].
    destruct Hiff1 as [Hiff1 _]. destruct (Hiff1 eq_refl) as [Hc | Hc].
    - cbn in Hc. congruence.
    - exfalso. refine (unpressed_between (set_buttonState HIGH w) w1 _ Hc).
      exact Hu. }
  destruct Hx as [Hx | Hx]; [lia | congruence].
Qed.

(** X9: [delayCheckButton] returns for every wait that stays clear of the
    wrap-around of its counter, and the time it has spent in [delay] is at
    least 0 and at most [dt]; it is exactly [dt] when the flag was set and
    the button is never read pressed. *)
Theorem delayCheckButton_bounded (dt : Z) (full : bool) (w : World F) :
  0 <= dt <= 2 ^ 32 - 50 ->
  exists w', delayCheckButton env dt full w = Some (tt, w') /\
             within dt w w' /\
             (continueFlag w = true ->
              (forall i, (nreads w <= i)%nat -> digitalRead_in env i = HIGH) ->
              delayed (trace w') - delayed (trace w) = dt /\ continueFlag w' = true).
Proof.
  intros Hd. destruct (delayCheckButton_total dt full w) as [w' H]; [lia|].
  exists w'. split; [exact H|]. apply (delayCheckButton_delay dt full); assumption.
Qed.

(** ** Commands that always return *)

Section Total.

Context {S : Type} (R : S -> S -> Prop) {HR : Pre R} (I : S -> Prop).

Lemma total_ret {A : Type} (a : A) : total R I (ret a).
Proof.
  intros s Hs. exists a, s. split; [reflexivity|]. split; [apply pre_refl | exact Hs].
Qed.

Lemma total_gets {A : Type} (f : S -> A) : total R I (gets f).
Proof.
  intros s Hs. exists (f s), s. split; [reflexivity|]. split; [apply pre_refl | exact Hs].
Qed.

Lemma total_modify (f : S -> S) :
  (forall s, I s -> R s (f s) /\ I (f s)) -> total R I (modify f).
Proof. intros Hf s Hs. exists tt, (f s). split; [reflexivity | apply Hf; exact Hs]. Qed.

Lemma total_bind {A B : Type} (m : M S A) (k : A -> M S B) :
  total R I m -> (forall a, total R I (k a)) -> total R I (bind m k).
Proof.
  intros Hm Hk s Hs. destruct (Hm s Hs) as (a & s1 & H1 & R1 & I1).
  destruct (Hk a s1 I1) as (b & s2 & H2 & R2 & I2). exists b, s2.
  split; [rewrite (bind_run _ _ _ _ _ H1); exact H2|].
  split; [eapply pre_trans; eassumption | exact I2].
Qed.

Lemma total_when (b : bool) (m : M S unit) : total R I m -> total R I (when b m).
Proof. intros Hm. destruct b; simpl; [exact Hm | apply total_ret]. Qed.

Lemma total_sound {A : Type} (m : M S A) (s s' : S) (a : A) :
  total R I m -> I s -> m s = Some (a, s') -> R s s' /\ I s'.
Proof.
  intros Hm Hs H. destruct (Hm s Hs) as (a2 & s2 & H2 & R2 & I2).
  rewrite H in H2. inversion H2; subst. auto.
Qed.

End Total.

#[local] Instance anyR_pre {S : Type} : Pre (@anyR S).
Proof. split; unfold anyR; auto. Qed.

Ltac tot_step :=
  match goal with
  | |- Pre _ => typeclasses eauto
  | |- forall _, total _ _ _ => intro
  | |- total _ _ (bind _ _) => apply total_bind
  | |- total _ _ (ret _) => apply total_ret
  | |- total _ _ (gets _) => apply total_gets
  | |- total _ _ (when _ _) => apply total_when
  | |- total _ _ (modify _) => apply total_modify; intros ? ?
  | |- total _ _ (if ?b then _ else _) => destruct b
  end.

Ltac tot := repeat tot_step.

Lemma total_of_returns {A : Type} (m : M (World F) A) :
  returns m -> total anyR (fun _ => True) m.
Proof. intros Hm s _. destruct (Hm s) as (a & s' & H). exists a, s'. repeat split. exact H. Qed.

Lemma returns_of_total {A : Type} (m : M (World F) A) :
  total anyR (fun _ => True) m -> returns m.
Proof. intros Hm s. destruct (Hm s I) as (a & s' & H & _). exists a, s'. exact H. Qed.

Lemma returns_emit (e : Event F) : returns (emit e).
Proof. intros w. eexists; eexists; reflexivity. Qed.

Lemma returns_millis : returns (millis env).
Proof. intros w. eexists; eexists; reflexivity. Qed.

Lemma returns_get_units n : returns (get_units env n).
Proof. intros w. eexists; eexists; reflexivity. Qed.

Lemma returns_file_sync_ok : returns (file_sync_ok env).
Proof. intros w. eexists; eexists; reflexivity. Qed.

Lemma returns_printLcd a b : returns (@printLcd F a b).
Proof. intros w. destruct (printLcd_total a b w) as [w' H]. exists tt, w'. exact H. Qed.

Lemma returns_delayCheckButton dt full :
  dt <= 2 ^ 32 - 50 -> returns (delayCheckButton env dt full).
Proof.
  intros Hd w. destruct (delayCheckButton_total dt full w Hd) as [w' H].
  exists tt, w'. exact H.
Qed.

(** A leaf that is quiet and returns is total for every invariant that the
    frame decides. *)
Lemma total_quiet {A : Type} (P : Event F -> bool) (I : World F -> Prop)
      (m : M (World F) A) :
  preserves (quiet P) m -> returns m ->
  (forall w w', frame w' = frame w -> I w -> I w') ->
  total (only P) I m.
Proof.
  intros Hq Hr HI w Hw. destruct (Hr w) as (a & w' & H). exists a, w'.
  split; [exact H|]. destruct (Hq _ _ _ H) as [Ho Hf].
  split; [exact Ho | exact (HI _ _ Hf Hw)].
Qed.

(** *** The sample period *)

Lemma elapsed_at_range (w : World F) (i : nat) : 0 <= elapsed_at env w i < 2 ^ 32.
Proof. unfold elapsed_at, wrap32. apply Z.mod_pos_bound. lia. Qed.

Lemma waitRemaining_steady (e1 e2 : Z) :
  0 <= e1 -> 0 <= e2 -> (e1 <= 200 -> e2 <= 250) -> 0 <= waitRemaining e1 e2 <= 250.
Proof.
  intros H1 H2 Hs. unfold waitRemaining, SAMPLE_MS.
  destruct (200 <? e1) eqn:E; [apply Z.ltb_lt in E | apply Z.ltb_ge in E];
    rewrite wrap32_small; lia.
Qed.

(** What line 546 computes and what it consumes: one reading of the clock
    when the first value exceeds 200, two otherwise. *)
Lemma sample_wait_run (w : World F) :
  sample_wait env w
  = Some (waitRemaining (elapsed_at env w (nmillis w)) (elapsed_at env w (S (nmillis w))),
          set_nmillis (clock_reads (elapsed_at env w (nmillis w)) + nmillis w)%nat w).
Proof.
  unfold sample_wait, min_200_elapsed, elapsed_since_read, waitRemaining, elapsed_at,
    clock_reads.
  unfold bind, millis, gets, ret. cbn [nmillis scaleStartTime readTime set_nmillis].
  destruct (200 <? _); reflexivity.
Qed.

Lemma returns_read_sample : returns (read_sample env).
Proof.
  apply returns_of_total. unfold read_sample. tot; try (split; exact I);
    apply total_of_returns;
    first [ apply returns_millis | apply returns_get_units | apply returns_printLcd ].
Qed.

Lemma take_sample_returns (w : World F) :
  steady_sample env w -> exists w', take_sample env w = Some (tt, w').
Proof.
  intros Hs. unfold take_sample. rewrite (bind_run _ _ _ _ _ (sample_wait_run w)).
  pose proof (waitRemaining_steady _ _ (proj1 (elapsed_at_range w (nmillis w)))
                (proj1 (elapsed_at_range w (S (nmillis w)))) Hs) as Hr.
  set (wr := waitRemaining _ _) in *.
  assert (R : returns (when (wr >? 0) (delayCheckButton env wr true) ;; read_sample env)).
  { apply returns_of_total. tot; try (split; exact I); apply total_of_returns;
      first [ apply returns_read_sample | apply returns_delayCheckButton; lia ]. }
  destruct (R (set_nmillis (clock_reads (elapsed_at env w (nmillis w)) + nmillis w)%nat w)) as ([] & w' & H).
  exists w'. exact H.
Qed.

Lemma idle_no_delay_display : allows (@is_display F) no_delay.
Proof. intros e He. destruct e; simpl in *; try discriminate; reflexivity. Qed.

Lemma take_sample_delay (w w' : World F) :
  steady_sample env w ->
  take_sample env w = Some (tt, w') ->
  within 250 w w' /\
  (continueFlag w = true ->
   (forall i, (nreads w <= i)%nat -> digitalRead_in env i = HIGH) ->
   delayed (trace w') - delayed (trace w)
   = waitRemaining (elapsed_at env w (nmillis w)) (elapsed_at env w (S (nmillis w)))).
Proof.
  intros Hs H. unfold take_sample in H.
  rewrite (bind_run _ _ _ _ _ (sample_wait_run w)) in H.
  pose proof (waitRemaining_steady _ _ (proj1 (elapsed_at_range w (nmillis w)))
                (proj1 (elapsed_at_range w (S (nmillis w)))) Hs) as Hwr.
  set (wr := waitRemaining _ _) in *.
  set (w1 := set_nmillis _ w) in *.
  apply bind_inv in H. destruct H as ([] & w2 & Hwait & H).
  assert (Hrest : delayed (trace w') = delayed (trace w2)).
  { apply delayed_no_delay.
    assert (Hp : preserves (only no_delay) (read_sample env)).
    { unfold read_sample. pres; try (apply only_same; reflexivity);
        apply only_of_quiet;
        first [ apply quiet_millis | apply quiet_get_units
              | apply quiet_printLcd; apply idle_no_delay_display ]. }
    eapply Hp. exact H. }
  clear H. unfold within. rewrite Hrest.
  change (trace w) with (trace w1). change (continueFlag w) with (continueFlag w1).
  change (nreads w) with (nreads w1).
  apply when_inv in Hwait. destruct Hwait as [[_ Hd] | [Hb ->]].
  - apply delayCheckButton_delay in Hd; [|lia]. destruct Hd as [Hw Hex].
    unfold within in Hw. split; [lia|]. intros Hf Hu.
    destruct (Hex Hf Hu) as [Hd _]. exact Hd.
  - rewrite Z.gtb_ltb in Hb. apply Z.ltb_ge in Hb. split; [lia|]. intros _ _. lia.
Qed.

(** X10: While the clock holds still enough between the two readings that the
    macro [min] of line 546 takes of it, [take_sample] returns and spends at
    most 250 ms in [delay]: exactly the rest of the sample period when the
    flag is set and the button is never read pressed. *)
Theorem sample_wait_bounded (w : World F) :
  steady_sample env w ->
  exists w', take_sample env w = Some (tt, w') /\
             within 250 w w' /\
             (continueFlag w = true ->
              (forall i, (nreads w <= i)%nat -> digitalRead_in env i = HIGH) ->
              delayed (trace w') - delayed (trace w)
              = waitRemaining (elapsed_at env w (nmillis w))
                              (elapsed_at env w (S (nmillis w)))).
Proof.
  intros Hs. destruct (take_sample_returns w Hs) as (w' & H). exists w'.
  split; [exact H | apply take_sample_delay; assumption].
Qed.

(** X28: Line 546 reads the clock once when the first value of the elapsed
    time exceeds 200 and twice otherwise, because [min] is a macro; the wait
    is then computed from the second value.  It lies between 50 and 250 ms
    exactly when the first value exceeds 200 or the second is at most 200;
    a second value above 250 turns it into a wait of more than 2^32 - 2^31
    ms. *)
Theorem sample_wait_reads_the_clock_twice (w : World F) :
  let e1 := elapsed_at env w (nmillis w) in
  let e2 := elapsed_at env w (S (nmillis w)) in
  exists w1,
    sample_wait env w = Some (waitRemaining e1 e2, w1) /\
    nmillis w1 = (clock_reads e1 + nmillis w)%nat /\
    trace w1 = trace w /\
    (50 <= waitRemaining e1 e2 <= 250 <-> 200 < e1 \/ e2 <= 200) /\
    (e1 <= 200 -> 200 < e2 <= 250 -> waitRemaining e1 e2 = 250 - e2) /\
    (e1 <= 200 -> 250 < e2 -> waitRemaining e1 e2 = 2 ^ 32 + 250 - e2).
Proof.
  intros e1 e2. eexists. split; [apply sample_wait_run|].
  split; [reflexivity|]. split; [reflexivity|].
  pose proof (elapsed_at_range w (nmillis w)) as R1.
  pose proof (elapsed_at_range w (S (nmillis w))) as R2.
  fold e1 in R1. fold e2 in R2. unfold waitRemaining, SAMPLE_MS.
  destruct (200 <? e1) eqn:E; [apply Z.ltb_lt in E | apply Z.ltb_ge in E].
  - rewrite wrap32_small by lia. repeat split; intros; lia.
  - assert (Hbig : 250 < e2 -> wrap32 (250 - e2) = 2 ^ 32 + 250 - e2).
    { intros Hb. unfold wrap32.
      replace (250 - e2) with (2 ^ 32 + 250 - e2 + (-1) * 2 ^ 32) by lia.
      rewrite Z.mod_add by lia. apply Z.mod_small. lia. }
    split; [|split].
    + destruct (Z_le_gt_dec e2 250) as [Hle | Hgt].
      * rewrite wrap32_small by lia. split; intros; lia.
      * rewrite (Hbig ltac:(lia)). split; intros; lia.
    + intros _ Hr. rewrite wrap32_small by lia. reflexivity.
    + intros _ Hb. exact (Hbig Hb).
Qed.

(** ** The ramp and the probe *)

Lemma ramp_loop_S fuel setPos step dt :
  ramp_loop env (S fuel) setPos step dt =
  (pos <- gets servoPos ;;
   flag <- gets continueFlag ;;
   if negb (pos =? setPos) && flag then
     modify (set_servoPos (pos + step)) ;;
     servo_write (pos + step) ;;
     delayCheckButton env (wrap32 dt) false ;;
     ramp_loop env fuel setPos step dt
   else ret tt).
Proof. reflexivity. Qed.

Lemma ramp_event_mono (lo hi lo' hi' : Z) :
  lo <= lo' -> hi' <= hi -> allows (@ramp_event F lo' hi') (ramp_event lo hi).
Proof.
  intros Hl Hh e He. destruct e; simpl in *; try assumption.
  apply andb_true_iff in He. destruct He as [H1 H2].
  apply Z.leb_le in H1. apply Z.leb_le in H2.
  apply andb_true_iff. split; apply Z.leb_le; lia.
Qed.

Lemma ramp_event_delay (lo hi : Z) : allows (@is_delay F) (ramp_event lo hi).
Proof. intros e He. destruct e; simpl in *; try discriminate; reflexivity. Qed.

Lemma servoPos_of_frame (w w' : World F) : frame w' = frame w -> servoPos w' = servoPos w.
Proof. unfold frame. intros H. inversion H. congruence. Qed.

Lemma ramp_loop_run (setPos step dt : Z) :
  step = 1 \/ step = -1 -> wrap32 dt <= 2 ^ 32 - 50 ->
  forall fuel (w : World F),
    0 <= step * (setPos - servoPos w) < Z.of_nat fuel ->
    exists w', ramp_loop env fuel setPos step dt w = Some (tt, w') /\
      0 <= step * (setPos - servoPos w') <= step * (setPos - servoPos w) /\
      (continueFlag w' = true -> servoPos w' = setPos) /\
      only (ramp_event (Z.min (servoPos w) setPos) (Z.max (servoPos w) setPos)) w w'.
Proof.
  intros Hstep Hdt. induction fuel as [|fuel IH]; intros w Hw; [lia|].
  rewrite ramp_loop_S.
  rewrite (bind_run _ _ w w (servoPos w)) by reflexivity. cbv beta.
  rewrite (bind_run _ _ w w (continueFlag w)) by reflexivity. cbv beta.
  destruct (negb (servoPos w =? setPos) && continueFlag w) eqn:E.
  - apply andb_true_iff in E. destruct E as [En Ef].
    apply negb_true_iff in En. apply Z.eqb_neq in En.
    remember (set_servoPos (servoPos w + step) w) as w1 eqn:E1.
    rewrite (bind_run _ _ w w1 tt) by (rewrite E1; reflexivity).
    remember (set_trace (EvServoWrite (servoPos w + step) :: trace w1) w1) as w2 eqn:E2.
    rewrite (bind_run _ _ w1 w2 tt) by (rewrite E2; reflexivity).
    destruct (delayCheckButton_total (wrap32 dt) false w2 Hdt) as [w3 H3].
    rewrite (bind_run _ _ w2 w3 tt) by exact H3.
    destruct (quiet_delayCheckButton
                (ramp_event (Z.min (servoPos w) setPos) (Z.max (servoPos w) setPos))
                (wrap32 dt) false (ramp_event_delay _ _) _ _ _ H3) as [Ho3 Hf3].
    apply servoPos_of_frame in Hf3.
    assert (Hp2 : servoPos w2 = servoPos w + step) by (rewrite E2, E1; reflexivity).
    assert (Ht2 : trace w2 = [EvServoWrite (servoPos w + step)] ++ trace w)
      by (rewrite E2, E1; reflexivity).
    rewrite Hp2 in Hf3.
    assert (Hw3 : 0 <= step * (setPos - servoPos w3) < Z.of_nat fuel).
    { rewrite Hf3. destruct Hstep; subst step; lia. }
    destruct (IH w3 Hw3) as (w' & H & Hb & Hf & Ho).
    exists w'. split; [exact H|]. rewrite Hf3 in Hb.
    split; [destruct Hstep; subst step; lia|]. split; [exact Hf|].
    apply (pre_trans w w2 w').
    + exists [EvServoWrite (servoPos w + step)]. split; [exact Ht2|].
      cbn [forallb ramp_event]. rewrite andb_true_r.
      apply andb_true_iff. split; apply Z.leb_le; destruct Hstep; subst step; lia.
    + apply (pre_trans w2 w3 w'); [exact Ho3|].
      eapply only_weaken; [|exact Ho]. rewrite Hf3.
      apply ramp_event_mono; destruct Hstep; subst step; lia.
  - exists w. split; [reflexivity|]. split; [lia|]. split; [|apply pre_refl].
    intros Hf. rewrite Hf, andb_true_r in E.
    apply negb_false_iff in E. apply Z.eqb_eq in E. exact E.
Qed.

Lemma rampServo_eq (setPos dt : Z) (w : World F) :
  rampServo env setPos dt w =
  ramp_loop env (S (Z.to_nat (Z.abs (setPos - servoPos w)))) setPos
            (if setPos - servoPos w <? 0 then -1 else 1) dt w.
Proof.
  unfold rampServo. rewrite (bind_run _ _ w w (servoPos w)) by reflexivity. reflexivity.
Qed.

Lemma ramp_step (setPos pos : Z) :
  let step := if setPos - pos <? 0 then -1 else 1 in
  (step = 1 \/ step = -1) /\
  0 <= step * (setPos - pos) < Z.of_nat (S (Z.to_nat (Z.abs (setPos - pos)))).
Proof.
  cbv zeta. destruct (setPos - pos <? 0) eqn:E.
  - apply Z.ltb_lt in E. split; [right; reflexivity | lia].
  - apply Z.ltb_ge in E. split; [left; reflexivity | lia].
Qed.

(** X11: [rampServo] returns; it never overshoots, every position it commands
    lies between the start and the target, and it stops short of the target
    only with the flag cleared.  The positions and their difference are
    taken inside the range of an [int], the delay not negative. *)
Theorem rampServo_reaches (setPos dt : Z) (w : World F) :
  int_range (servoPos w) -> int_range setPos -> int_range (setPos - servoPos w) ->
  0 <= dt <= 32767 ->
  exists w', rampServo env setPos dt w = Some (tt, w') /\
    Z.min (servoPos w) setPos <= servoPos w' <= Z.max (servoPos w) setPos /\
    (continueFlag w' = true -> servoPos w' = setPos) /\
    only (ramp_event (Z.min (servoPos w) setPos) (Z.max (servoPos w) setPos)) w w'.
Proof.
  intros _ _ _ Hdt. rewrite rampServo_eq.
  assert (Hwrap : wrap32 dt <= 2 ^ 32 - 50) by (rewrite wrap32_small; lia).
  destruct (ramp_step setPos (servoPos w)) as [Hstep Hfuel].
  destruct (ramp_loop_run setPos _ dt Hstep Hwrap _ w Hfuel) as (w' & H & Hb & Hf & Ho).
  exists w'. split; [exact H|]. split; [|split; assumption].
  destruct (setPos - servoPos w <? 0) eqn:E;
    [apply Z.ltb_lt in E | apply Z.ltb_ge in E]; lia.
Qed.

Lemma probe_event_of_ramp (lo hi : Z) :
  0 <= lo -> hi <= 180 -> allows (@ramp_event F lo hi) (start_event false true).
Proof.
  intros Hl Hh e He. destruct e; simpl in *; try reflexivity; try discriminate.
  apply andb_true_iff in He. destruct He as [H1 H2].
  apply Z.leb_le in H1. apply Z.leb_le in H2.
  apply andb_true_iff. split; apply Z.leb_le; lia.
Qed.

Lemma display_probe_event : allows (@is_display F) (start_event false true).
Proof. intros e He. destruct e; simpl in *; try discriminate; reflexivity. Qed.

Lemma delay_probe_event : allows (@is_delay F) (start_event false true).
Proof. intros e He. destruct e; simpl in *; try discriminate; reflexivity. Qed.

Lemma servo_bounded_frame (w w' : World F) :
  frame w' = frame w -> servo_bounded w -> servo_bounded w'.
Proof. intros Hf. unfold servo_bounded. rewrite (servoPos_of_frame _ _ Hf). auto. Qed.

Lemma total_rampServo (setPos dt : Z) :
  0 <= setPos <= 180 -> 0 <= dt <= 32767 ->
  total (only (start_event false true)) servo_bounded (rampServo env setPos dt).
Proof.
  intros Hs Hd w Hw. rewrite rampServo_eq.
  assert (Hwrap : wrap32 dt <= 2 ^ 32 - 50) by (rewrite wrap32_small; lia).
  destruct (ramp_step setPos (servoPos w)) as [Hstep Hfuel].
  destruct (ramp_loop_run setPos _ dt Hstep Hwrap _ w Hfuel) as (w' & H & Hb & _ & Ho).
  exists tt, w'. split; [exact H|]. unfold servo_bounded in *.
  assert (Hr : 0 <= servoPos w' <= 180).
  { destruct (setPos - servoPos w <? 0) eqn:E;
      [apply Z.ltb_lt in E | apply Z.ltb_ge in E]; lia. }
  split; [|exact Hr]. eapply only_weaken; [|exact Ho]. apply probe_event_of_ramp; lia.
Qed.

Ltac servo_leaf :=
  first
    [ split; [ apply only_same; reflexivity
             | first [ assumption | unfold servo_bounded; simpl; lia ] ]
    | apply total_rampServo; lia
    | apply total_quiet;
      [ first [ apply quiet_printLcd; apply display_probe_event
              | apply quiet_delayCheckButton; apply delay_probe_event
              | apply quiet_delay; apply delay_probe_event
              | apply quiet_get_units
              | apply quiet_emit; reflexivity ]
      | first [ apply returns_printLcd
              | apply returns_delayCheckButton; lia
              | apply returns_get_units
              | apply returns_emit ]
      | apply servo_bounded_frame ] ].

Lemma total_checkServo :
  total (only (start_event false true)) servo_bounded (checkServo env).
Proof. unfold checkServo, probe_sweep, probe_verdict. tot; servo_leaf. Qed.

Lemma probe_verdict_found (startForce : F) (w w' : World F) (found : bool) :
  probe_verdict startForce w = Some (found, w') ->
  found = true -> continueFlag w' = true.
Proof.
  unfold probe_verdict. intros H Hfound.
  apply bind_inv in H. destruct H as ([] & w1 & H1 & H). apply modify_inv in H1.
  apply bind_inv in H. destruct H as ([] & w2 & H2 & H). inversion H2 as [E2]; clear H2.
  apply bind_inv in H. destruct H as (flag & w3 & H3 & H).
  apply gets_inv in H3. destruct H3 as [Hflag ->].
  assert (Hend : forall text (b : bool) (wa : World F),
            (printLcd text EmptyString ;; delay 1000 ;; ret b) wa = Some (found, w') ->
            b = found /\ continueFlag w' = continueFlag wa).
  { intros text b wa Hr.
    apply bind_inv in Hr. destruct Hr as ([] & wb & Hb & Hr).
    apply printLcd_nreads in Hb. destruct Hb as [_ Hb].
    apply bind_inv in Hr. destruct Hr as ([] & wc & Hc & Hr).
    inversion Hc as [Ec]; clear Hc. apply ret_inv in Hr. destruct Hr as [-> ->].
    split; [reflexivity|]. rewrite <- Ec. exact Hb. }
  destruct flag.
  - apply bind_inv in H. destruct H as (uf & w3 & H3 & H).
    apply gets_inv in H3. destruct H3 as [_ ->].
    match type of H with (if ?c then _ else _) _ = _ => destruct c end;
      apply Hend in H; destruct H as [_ H]; rewrite H; symmetry; exact Hflag.
  - apply Hend in H. destruct H as [H _]. congruence.
Qed.

(** X12: From a position inside the range of the servo [checkServo] returns,
    whether or not the button is pressed; it has only shown, waited and
    commanded positions from 0 to 180, it leaves the servo at 0, it has
    announced itself once, and it reports the servo found only with the flag
    still set. *)
Theorem checkServo_returns (w : World F) :
  0 <= servoPos w <= 180 ->
  exists found w', checkServo env w = Some (found, w') /\
    servoPos w' = 0 /\ only (start_event false true) w w' /\
    probes w' = S (probes w) /\
    (found = true -> continueFlag w' = true).
Proof.
  intros Hw. destruct (total_checkServo w Hw) as (found & w' & H & Ho & _).
  exists found, w'. split; [exact H|].
  destruct (checkServo_effect _ _ _ H) as (Hp & Hz & _).
  split; [exact Hz|]. split; [exact Ho|]. split; [exact Hp|].
  expose H. apply bind_inv in H. destruct H as (sf & w1 & _ & H).
  eapply probe_verdict_found. exact H.
Qed.

(** ** One step of a test *)

Lemma sync_or_abort_delay (w w' : World F) (aborted : bool) :
  sync_or_abort cfg env w = Some (aborted, w') ->
  delayed (trace w') - delayed (trace w) = (if aborted then 5000 else 0) /\
  (CONT_SYNC cfg = false -> aborted = false).
Proof.
  unfold sync_or_abort. intros H. destruct (CONT_SYNC cfg).
  - apply bind_inv in H. destruct H as (ok & w1 & H1 & H). inversion H1 as [[Eok E1]]; clear H1.
    assert (Ht1 : trace w1 = trace w) by (rewrite <- E1; reflexivity).
    destruct (negb ok).
    + apply bind_inv in H. destruct H as ([] & w2 & H2 & H).
      apply (only_of_quiet no_delay _ (quiet_printLcd _ _ _ idle_no_delay_display)) in H2.
      apply delayed_no_delay in H2.
      apply bind_inv in H. destruct H as ([] & w3 & H3 & H). inversion H3 as [E3]; clear H3.
      assert (Hd3 : delayed (trace w3) = 5000 + delayed (trace w2))
        by (rewrite <- E3; reflexivity).
      apply bind_inv in H. destruct H as ([] & w4 & H4 & H). apply modify_inv in H4.
      apply bind_inv in H. destruct H as (checked & w5 & H5 & H).
      apply gets_inv in H5. destruct H5 as [_ ->].
      apply bind_inv in H. destruct H as (active & w5 & H5 & H).
      apply gets_inv in H5. destruct H5 as [_ ->].
      apply bind_inv in H. destruct H as ([] & w5 & H5 & H).
      apply ret_inv in H. destruct H as [-> <-].
      assert (Hd5 : delayed (trace w') = delayed (trace w4)).
      { apply delayed_no_delay.
        assert (Hp : preserves (only no_delay)
                       (when (checked && active)
                          (modify (set_servoStep 0) ;; modify (set_servoPos 0) ;;
                           @servo_write F 0))).
        { pres; try (apply only_same; reflexivity). apply only_emit. reflexivity. }
        eapply Hp. exact H5. }
      assert (Hd4 : delayed (trace w4) = delayed (trace w3))
        by (rewrite H4; reflexivity).
      split; [|discriminate]. rewrite Hd5, Hd4, Hd3, H2, Ht1. lia.
    + apply ret_inv in H. destruct H as [-> <-]. split; [|reflexivity]. rewrite Ht1. lia.
  - apply ret_inv in H. destruct H as [-> <-]. split; [lia | reflexivity].
Qed.

Lemma log_sample_delay (pos : Z) (w w' : World F) (aborted : bool) :
  log_sample cfg env pos w = Some (aborted, w') ->
  delayed (trace w') - delayed (trace w) = (if aborted then 5000 else 0) /\
  (CONT_SYNC cfg = false -> aborted = false).
Proof.
  unfold log_sample. intros H.
  apply bind_inv in H. destruct H as (card & w0 & H0 & H).
  apply gets_inv in H0. destruct H0 as [_ ->]. destruct card.
  - apply bind_inv in H. destruct H as (time & w0 & H0 & H).
    apply gets_inv in H0. destruct H0 as [_ ->].
    apply bind_inv in H. destruct H as (force & w0 & H0 & H).
    apply gets_inv in H0. destruct H0 as [_ ->].
    apply bind_inv in H. destruct H as ([] & w1 & H1 & H). inversion H1 as [E1]; clear H1.
    apply sync_or_abort_delay in H. rewrite <- E1 in H. exact H.
  - apply ret_inv in H. destruct H as [-> <-]. split; [lia | reflexivity].
Qed.

Lemma advance_servo_delay (pos : Z) (w w' : World F) :
  advance_servo pos w = Some (tt, w') -> delayed (trace w') = delayed (trace w).
Proof.
  intros H. apply delayed_no_delay.
  assert (Hp : preserves (only no_delay) (@advance_servo F pos)).
  { unfold advance_servo. pres; try (apply only_same; reflexivity).
    apply only_emit. reflexivity. }
  eapply Hp. exact H.
Qed.

Lemma returns_log_and_advance :
  returns (pos <- gets (@servoPos F) ;;
           aborted <- log_sample cfg env (Z.min 180 pos) ;;
           if aborted then ret tt else advance_servo (Z.min 180 pos)).
Proof.
  apply returns_of_total.
  unfold log_sample, sync_or_abort, advance_servo, writeData, servo_write, delay.
  tot; try (split; exact I); apply total_of_returns;
    first [ apply returns_emit | apply returns_file_sync_ok | apply returns_printLcd ].
Qed.

Lemma stepTest_returns (w : World F) :
  steady_sample env w -> exists w', stepTest cfg env w = Some (tt, w').
Proof.
  intros Hs. destruct (take_sample_returns w Hs) as (w1 & H1).
  destruct (returns_log_and_advance w1) as ([] & w' & H).
  exists w'. unfold stepTest. rewrite (bind_run _ _ _ _ _ H1). exact H.
Qed.

(** X13: While the clock holds still enough between the two readings of line
    546, [stepTest] returns.  The time it spends in [delay] is at most
    250 ms, and 5000 ms more when a forced sync of the log fails, which the
    build without CONT_SYNC never tries. *)
Theorem stepTest_period (w : World F) :
  steady_sample env w ->
  exists w', stepTest cfg env w = Some (tt, w') /\
             within 5250 w w' /\ (CONT_SYNC cfg = false -> within 250 w w').
Proof.
  intros Hst. destruct (stepTest_returns w Hst) as (w' & H). exists w'. split; [exact H|].
  unfold stepTest in H.
  apply bind_inv in H. destruct H as ([] & w1 & H1 & H).
  apply (take_sample_delay _ _ Hst) in H1. destruct H1 as [H1 _].
  apply bind_inv in H. destruct H as (pos & w0 & H0 & H).
  apply gets_inv in H0. destruct H0 as [_ ->].
  apply bind_inv in H. destruct H as (aborted & w2 & H2 & H).
  apply log_sample_delay in H2. destruct H2 as [H2 Hc].
  assert (H3 : delayed (trace w') = delayed (trace w2)).
  { destruct aborted.
    - apply ret_inv in H. destruct H as [_ <-]. reflexivity.
    - apply advance_servo_delay in H. exact H. }
  unfold within in *. rewrite H3. split.
  - destruct aborted; lia.
  - intros Hs. rewrite (Hc Hs) in H2. lia.
Qed.

(** ** What a step, a start and an end of a test touch *)

Lemma display_idle : allows (@is_display F) is_idle_event.
Proof. intros e He. destruct e; simpl in *; try discriminate; reflexivity. Qed.

Lemma delay_idle : allows (@is_delay F) is_idle_event.
Proof. intros e He. destruct e; simpl in *; try discriminate; reflexivity. Qed.

Lemma idle_step_event card drv pos : allows (@is_idle_event F) (step_event card drv pos).
Proof. intros e He. destruct e; simpl in *; try discriminate; reflexivity. Qed.

Lemma idle_start_event card probe : allows (@is_idle_event F) (start_event card probe).
Proof. intros e He. destruct e; simpl in *; try discriminate; reflexivity. Qed.

Lemma idle_end_event card : allows (@is_idle_event F) (end_event card).
Proof. intros e He. destruct e; simpl in *; try discriminate; reflexivity. Qed.

Lemma guard_inv {S : Type} (f1 f2 : S -> bool) (g : bool -> bool -> bool)
      (body : M S unit) (s s' : S) :
  (a <- gets f1 ;; b <- gets f2 ;; when (g a b) body) s = Some (tt, s') ->
  (g (f1 s) (f2 s) = true /\ body s = Some (tt, s')) \/
  (g (f1 s) (f2 s) = false /\ s' = s).
Proof.
  intros H. apply bind_inv in H. destruct H as (a & s0 & H0 & H).
  apply gets_inv in H0. destruct H0 as [-> ->].
  apply bind_inv in H. destruct H as (b & s0 & H0 & H).
  apply gets_inv in H0. destruct H0 as [-> ->].
  apply when_inv in H. exact H.
Qed.

(** The fields that decide what a step may touch. *)
Lemma advance_servo_effect (pos : Z) (w w' : World F) :
  advance_servo pos w = Some (tt, w') ->
  (driven w = false /\ w' = w) \/
  (driven w = true /\ trace w' = EvServoWrite pos :: trace w /\
   servoChecked w' = servoChecked w /\ servoActive w' = servoActive w /\
   cardExists w' = cardExists w).
Proof.
  unfold advance_servo. intros H.
  apply (guard_inv _ _ andb) in H. destruct H as [[Hg H] | [Hg H]]; [right | left; auto].
  split; [exact Hg|].
  apply bind_inv in H. destruct H as (p & w0 & H0 & H).
  apply gets_inv in H0. destruct H0 as [_ ->].
  apply bind_inv in H. destruct H as (st & w0 & H0 & H).
  apply gets_inv in H0. destruct H0 as [_ ->].
  apply bind_inv in H. destruct H as ([] & w1 & H1 & H). apply modify_inv in H1.
  apply bind_inv in H. destruct H as ([] & w2 & H2 & H). inversion H2 as [E2]; clear H2.
  assert (Hlast : trace w' = trace w2 /\ servoChecked w' = servoChecked w2 /\
                  servoActive w' = servoActive w2 /\ cardExists w' = cardExists w2).
  { destruct (wrap16 (p + st) >=? maxServoPos).
    - apply modify_inv in H. subst w'. repeat split.
    - destruct (wrap16 (p + st) <=? 0).
      + apply bind_inv in H. destruct H as ([] & w3 & H3 & H).
        apply modify_inv in H3. apply modify_inv in H. subst w' w3. repeat split.
      + apply ret_inv in H. destruct H as [_ ->]. repeat split. }
  destruct Hlast as (Ht & Hc & Ha & Hx). rewrite Ht, Hc, Ha, Hx, <- E2, H1.
  repeat split.
Qed.

#[local] Instance touches_pre (P : Event F -> bool) : Pre (touches P).
Proof.
  split.
  - intros w. split; [apply pre_refl | auto].
  - intros a b c (H1 & A1 & B1 & C1 & D1) (H2 & A2 & B2 & C2 & D2).
    split; [eapply pre_trans; eassumption|]. repeat split; congruence.
Qed.

#[local] Instance steps_pre (P : Event F -> bool) : Pre (steps P).
Proof.
  split.
  - intros w. split; [apply pre_refl | auto].
  - intros a b c (H1 & B1 & C1 & D1 & E1) (H2 & B2 & C2 & D2 & E2).
    split; [eapply pre_trans; eassumption|].
    split; [congruence|]. split; [congruence|]. split; [congruence|].
    intros Hd. rewrite E2, E1; [reflexivity | exact Hd |].
    unfold driven in *. rewrite B1, C1. exact Hd.
Qed.

Lemma steps_of_touches (P : Event F -> bool) (w w' : World F) :
  touches P w w' -> steps P w w'.
Proof. intros (H & A & B & C & D). split; [exact H | auto]. Qed.

Lemma touches_same (P : Event F -> bool) (w w' : World F) :
  trace w' = trace w -> servoPos w' = servoPos w -> servoChecked w' = servoChecked w ->
  servoActive w' = servoActive w -> cardExists w' = cardExists w -> touches P w w'.
Proof. intros H A B C D. split; [apply only_same; exact H | auto]. Qed.

Lemma touches_quiet {A : Type} (P : Event F -> bool) (m : M (World F) A) :
  preserves (quiet P) m -> preserves (touches P) m.
Proof.
  intros Hm w a w' H. apply Hm in H. destruct H as [Ho Hf].
  split; [exact Ho|]. unfold frame in Hf. inversion Hf. auto.
Qed.

Lemma touches_emit (P : Event F -> bool) (e : Event F) :
  P e = true -> preserves (touches P) (emit e).
Proof. intros He. apply touches_quiet. apply quiet_emit. exact He. Qed.

Lemma steps_weaken (P Q : Event F -> bool) (w w' : World F) :
  allows P Q -> steps P w w' -> steps Q w w'.
Proof. intros HPQ (H & R). split; [eapply only_weaken; eassumption | exact R]. Qed.

Lemma allows_trans (P Q R : Event F -> bool) : allows P Q -> allows Q R -> allows P R.
Proof. intros H1 H2 e He. apply H2, H1, He. Qed.

(** A leaf that only shows, waits or reads the clock or the load cell. *)
Ltac touch_idle :=
  apply touches_quiet;
  first [ apply quiet_millis | apply quiet_get_units
        | apply quiet_printLcd; eapply allows_trans; [apply display_idle | eassumption]
        | apply quiet_delayCheckButton; eapply allows_trans; [apply delay_idle | eassumption]
        | apply quiet_delay; eapply allows_trans; [apply delay_idle | eassumption]
        | apply quiet_printLcdScroll;
          [ eapply allows_trans; [apply display_idle | eassumption]
          | eapply allows_trans; [apply delay_idle | eassumption] ] ].

Ltac touch_leaf :=
  first [ solve [ apply touches_same; reflexivity ] | touch_idle ].

Lemma touches_take_sample (P : Event F -> bool) :
  allows is_idle_event P -> preserves (touches P) (take_sample env).
Proof. intros HP. unfold take_sample, sample_wait, min_200_elapsed, elapsed_since_read, read_sample. pres; touch_leaf. Qed.

Lemma sync_or_abort_effect (w w' : World F) (aborted : bool) :
  sync_or_abort cfg env w = Some (aborted, w') ->
  steps (step_event false (driven w) 0) w w'.
Proof.
  intros H. expose H.
  pose proof (idle_step_event false (driven w) 0) as HP.
  apply if_inv in H. destruct H as [[_ H] | [_ H]];
    [|apply ret_inv in H; destruct H as [_ ->]; apply pre_refl].
  apply bind_inv in H. destruct H as (ok & w1 & H1 & H).
  assert (T1 : touches (step_event false (driven w) 0) w w1).
  { inversion H1; subst. apply touches_same; reflexivity. }
  clear H1.
  apply if_inv in H. destruct H as [[_ H] | [_ H]];
    [|apply ret_inv in H; destruct H as [_ ->]; apply steps_of_touches; exact T1].
  apply bind_inv in H. destruct H as ([] & w2 & H2 & H).
  assert (T2 : touches (step_event false (driven w) 0) w1 w2).
  { revert H2. apply (touches_quiet _ (printLcd _ _)). apply quiet_printLcd.
    eapply allows_trans; [apply display_idle | exact HP]. }
  clear H2.
  apply bind_inv in H. destruct H as ([] & w3 & H3 & H).
  assert (T3 : touches (step_event false (driven w) 0) w2 w3).
  { revert H3. apply (touches_emit _ (EvDelay 5000)). reflexivity. }
  clear H3.
  apply bind_inv in H. destruct H as ([] & w4 & H4 & H).
  assert (T4 : touches (step_event false (driven w) 0) w3 w4).
  { apply modify_inv in H4. subst w4. apply touches_same; reflexivity. }
  clear H4.
  assert (T : touches (step_event false (driven w) 0) w w4).
  { eapply pre_trans; [exact T1|]. eapply pre_trans; [exact T2|].
    eapply pre_trans; [exact T3 | exact T4]. }
  clear T1 T2 T3 T4.
  apply bind_inv in H. destruct H as (checked & w5 & H5 & H).
  apply gets_inv in H5. destruct H5 as [-> ->].
  apply bind_inv in H. destruct H as (active & w5 & H5 & H).
  apply gets_inv in H5. destruct H5 as [-> ->].
  apply bind_inv in H. destruct H as ([] & w5 & H5 & H).
  apply ret_inv in H. destruct H as [_ <-].
  destruct T as (To & Tp & Tc & Ta & Tx).
  assert (Hd : servoChecked w4 && servoActive w4 = driven w)
    by (unfold driven; rewrite Tc, Ta; reflexivity).
  apply when_inv in H5. destruct H5 as [[Hg H5] | [Hg ->]].
  - apply bind_inv in H5. destruct H5 as ([] & wa & Ha & H5). apply modify_inv in Ha.
    apply bind_inv in H5. destruct H5 as ([] & wb & Hb & H5). apply modify_inv in Hb.
    assert (E5 : w' = set_trace (EvServoWrite 0 :: trace wb) wb)
      by (inversion H5; reflexivity).
    clear H5.
    assert (Ht : trace w' = [EvServoWrite 0] ++ trace w4)
      by (rewrite E5, Hb, Ha; reflexivity).
    split.
    + eapply pre_trans; [exact To|]. exists [EvServoWrite 0]. split; [exact Ht|].
      cbn [forallb step_event]. rewrite <- Hd, Hg. reflexivity.
    + rewrite E5, Hb, Ha. fields. rewrite <- Hd, Hg.
      split; [exact Tc|]. split; [exact Ta|]. split; [exact Tx | discriminate].
  - split; [exact To | auto].
Qed.

Lemma step_event_zero (card drv : bool) (pos : Z) :
  allows (@step_event F false drv 0) (step_event card drv pos).
Proof.
  intros e He. destruct e; simpl in *; try assumption; try discriminate.
  destruct drv; [|discriminate]. simpl in *.
  apply orb_true_iff in He. destruct He as [He | He]; rewrite He; reflexivity.
Qed.

Lemma log_sample_effect (pos : Z) (w w' : World F) (aborted : bool) :
  log_sample cfg env pos w = Some (aborted, w') ->
  steps (step_event (cardExists w) (driven w) pos) w w'.
Proof.
  unfold log_sample. intros H.
  apply bind_inv in H. destruct H as (card & w0 & H0 & H).
  apply gets_inv in H0. destruct H0 as [-> ->].
  destruct (cardExists w) eqn:Ec.
  - apply bind_inv in H. destruct H as (time & w0 & H0 & H).
    apply gets_inv in H0. destruct H0 as [_ ->].
    apply bind_inv in H. destruct H as (force & w0 & H0 & H).
    apply gets_inv in H0. destruct H0 as [_ ->].
    apply bind_inv in H. destruct H as ([] & w1 & H1 & H).
    assert (T1 : touches (step_event true (driven w) pos) w w1).
    { revert H1. apply (touches_emit _ (EvRow time pos force)).
      simpl. apply Z.eqb_refl. }
    apply sync_or_abort_effect in H.
    destruct T1 as (To & Tp & Tc & Ta & Tx).
    assert (Hd : driven w1 = driven w) by (unfold driven; rewrite Tc, Ta; reflexivity).
    rewrite Hd in H. apply (steps_weaken _ _ _ _ (step_event_zero true (driven w) pos)) in H.
    eapply pre_trans; [|exact H]. apply steps_of_touches.
    split; [exact To | auto].
  - apply ret_inv in H. destruct H as [_ ->]. apply pre_refl.
Qed.

Lemma stepTest_steps (w w' : World F) :
  stepTest cfg env w = Some (tt, w') ->
  steps (step_event (cardExists w) (driven w) (Z.min 180 (servoPos w))) w w'.
Proof.
  intros H. expose H.
  apply bind_inv in H. destruct H as ([] & w1 & H1 & H).
  apply (touches_take_sample _ (idle_step_event (cardExists w) (driven w)
                                    (Z.min 180 (servoPos w)))) in H1.
  apply bind_inv in H. destruct H as (pos & w0 & H0 & H).
  apply gets_inv in H0. destruct H0 as [-> ->].
  apply bind_inv in H. destruct H as (aborted & w2 & H2 & H).
  apply log_sample_effect in H2.
  pose proof H1 as (To & Tp & Tc & Ta & Tx).
  assert (Hd : driven w1 = driven w) by (unfold driven; rewrite Tc, Ta; reflexivity).
  rewrite Hd, Tx, Tp in H2.
  pose proof H2 as (So & Sc & Sa & Sx & Sp).
  eapply pre_trans; [apply steps_of_touches; exact H1|].
  eapply pre_trans; [exact H2|].
  destruct aborted.
  - apply ret_inv in H. destruct H as [_ ->]. apply pre_refl.
  - apply advance_servo_effect in H. destruct H as [[_ ->] | (Hg & Ht & Hc & Ha & Hx)].
    + apply pre_refl.
    + assert (Hd2 : driven w2 = driven w)
        by (unfold driven; rewrite Sc, Sa, Tc, Ta; reflexivity).
      split.
      * exists [EvServoWrite (Z.min 180 (servoPos w))].
        split; [rewrite Ht, Tp; reflexivity|].
        cbn [forallb step_event]. rewrite <- Hd2, Hg, Z.eqb_refl, orb_true_r. reflexivity.
      * split; [exact Hc|]. split; [exact Ha|]. split; [exact Hx|].
        rewrite Hg. discriminate.
Qed.

(** *** The start and the end of a test *)

Lemma touches_open_dir (P : Event F -> bool) :
  P EvDirScan = true -> preserves (touches P) (open_dir env).
Proof.
  intros HP w x w' H. inversion H; subst. split; [|repeat split].
  exists [EvDirScan]. split; [reflexivity | simpl; rewrite HP; reflexivity].
Qed.

Lemma touches_file_open (P : Event F -> bool) name :
  (forall ok, P (EvFileOpen name ok) = true) -> preserves (touches P) (file_open env name).
Proof.
  intros HP w x w' H. inversion H; subst. split; [|repeat split].
  exists [EvFileOpen name (file_open_in env (nopens w))].
  split; [reflexivity | simpl; rewrite HP; reflexivity].
Qed.

Lemma touches_getFileName (P : Event F -> bool) fuel :
  allows (start_event true false) P -> preserves (touches P) (getFileName env fuel).
Proof.
  intros HP.
  assert (HI : allows is_idle_event P)
    by (eapply allows_trans; [apply idle_start_event | exact HP]).
  unfold getFileName, scan_directory.
  pres; first [ touch_leaf | apply touches_open_dir; apply HP; reflexivity ].
Qed.

Lemma open_log_effect fuel (probe : bool) (w w' : World F) :
  open_log env fuel w = Some (tt, w') ->
  touches (start_event (cardExists w) probe) w w'.
Proof.
  intros H. expose H.
  apply bind_inv in H. destruct H as ([] & w1 & H1 & H). apply modify_inv in H1.
  apply bind_inv in H. destruct H as (card & w0 & H0 & H).
  apply gets_inv in H0. destruct H0 as [-> ->].
  assert (Hc1 : cardExists w1 = cardExists w) by (rewrite H1; reflexivity).
  rewrite Hc1 in H.
  apply (pre_trans w w1 w'); [rewrite H1; apply touches_same; reflexivity|].
  clear H1 Hc1. revert H.
  pose proof (idle_start_event (cardExists w) probe) as HI.
  destruct (cardExists w); cbv beta iota delta [when].
  - assert (HP : allows (@start_event F true false) (start_event true probe)).
    { intros e He. destruct e; simpl in *; try reflexivity; try discriminate. }
    match goal with
    | |- ?m _ = _ -> _ =>
        assert (Hp : preserves (touches (start_event true probe)) m); [|apply Hp]
    end.
    pres; first [ touch_leaf | apply (touches_getFileName _ _ HP)
                | apply touches_file_open; reflexivity
                | apply touches_emit; reflexivity ].
  - match goal with
    | |- ?m _ = _ -> _ =>
        assert (Hp : preserves (touches (start_event false probe)) m); [|apply Hp]
    end.
    pres; touch_leaf.
Qed.

Lemma touches_start_clock (P : Event F -> bool) : preserves (touches P) (start_clock env).
Proof.
  unfold start_clock. pres; first [ solve [apply touches_same; reflexivity]
                                  | apply touches_quiet; apply quiet_millis ].
Qed.

Lemma detect_servo_effect (card : bool) (w w' : World F) :
  (probe_due w = true -> servo_bounded w) ->
  detect_servo env w = Some (tt, w') ->
  only (start_event card (probe_due w)) w w' /\
  servoActive w' = servoActive w /\ cardExists w' = cardExists w /\
  (if probe_due w then servoPos w' = 0
   else servoPos w' = servoPos w /\ servoChecked w' = servoChecked w).
Proof.
  intros Hb H. destruct (probe_due w) eqn:E.
  - destruct (detect_servo_runs _ _ E H) as (found & w1 & H1 & H2).
    destruct (total_sound _ _ _ _ _ _ total_checkServo (Hb eq_refl) H1) as [Ho _].
    destruct (checkServo_effect _ _ _ H1) as (_ & Hz & Hv).
    assert (T : touches (@start_event F card true) (set_servoChecked found w1) w').
    { pose proof (idle_start_event card true) as HI. revert H2.
      match goal with
      | |- ?m _ = _ -> _ =>
          let Hp := fresh "Hp" in
          assert (Hp : preserves (touches (start_event card true)) m); [|apply Hp]
      end.
      destruct found; pres; touch_leaf. }
    destruct T as (To & Tp & Tc & Ta & Tx).
    unfold view_probe in Hv. inversion Hv as [[V1 V2 V3 V4 V5 V6 V7 V8 V9 V10]].
    split.
    + apply (pre_trans w w1 w').
      * eapply only_weaken; [|exact Ho].
        intros e He. destruct e; simpl in *; try reflexivity; try discriminate. exact He.
      * destruct To as (evs & Ht & Hp). exists evs. split; [exact Ht | exact Hp].
    + fields. repeat split; congruence.
  - apply (detect_servo_idle _ _ E) in H. subst w'.
    split; [apply pre_refl | auto].
Qed.

Lemma startTest_touch fuel (w w' : World F) :
  (probe_due w = true -> servo_bounded w) ->
  startTest env fuel w = Some (tt, w') ->
  only (start_event (cardExists w) (probe_due w)) w w' /\
  servoActive w' = servoActive w /\ cardExists w' = cardExists w /\
  (if probe_due w then servoPos w' = 0
   else servoPos w' = servoPos w /\ servoChecked w' = servoChecked w).
Proof.
  intros Hb H. expose H.
  apply bind_inv in H. destruct H as ([] & w1 & H1 & H).
  apply (open_log_effect fuel (probe_due w)) in H1.
  destruct H1 as (To & Tp & Tc & Ta & Tx).
  apply bind_inv in H. destruct H as ([] & w2 & H2 & H).
  assert (Hd : probe_due w1 = probe_due w) by (unfold probe_due; rewrite Tc, Ta; reflexivity).
  apply (detect_servo_effect (cardExists w)) in H2;
    [|rewrite Hd; unfold servo_bounded; rewrite Tp; exact Hb].
  rewrite Hd in H2. destruct H2 as (Do & Da & Dx & Dp).
  apply (touches_start_clock (start_event (cardExists w) (probe_due w))) in H.
  destruct H as (So & Sp & Sc & Sa & Sx).
  split; [eapply pre_trans; [exact To|]; eapply pre_trans; [exact Do | exact So]|].
  split; [congruence|]. split; [congruence|].
  destruct (probe_due w); [congruence|].
  destruct Dp as [Dp Dc]. split; congruence.
Qed.

Lemma endTest_effect (w w' : World F) :
  endTest w = Some (tt, w') -> touches (end_event (cardExists w)) w w'.
Proof.
  intros H. expose H.
  apply bind_inv in H. destruct H as (card & w0 & H0 & H).
  apply gets_inv in H0. destruct H0 as [-> ->].
  pose proof (idle_end_event (cardExists w)) as HI.
  revert H. destruct (cardExists w); cbv beta iota delta [when].
  - match goal with
    | |- ?m _ = _ -> _ =>
        assert (Hp : preserves (touches (@end_event F true)) m); [|apply Hp]
    end.
    pres; first [ touch_leaf | apply touches_emit; reflexivity ].
  - match goal with
    | |- ?m _ = _ -> _ =>
        assert (Hp : preserves (touches (@end_event F false)) m); [|apply Hp]
    end.
    pres; touch_leaf.
Qed.

(** X14: The start of a test lists the card and opens a log only when there is a
    card, and commands the servo only when the probe is due; when it is
    not, the servo position and the result of the probe stay as they are,
    and when it is, the servo is left at 0. *)
Theorem startTest_effect (fuel : nat) (w w' : World F) :
  (probe_due w = true -> 0 <= servoPos w <= 180) ->
  startTest env fuel w = Some (tt, w') ->
  exists evs, trace w' = evs ++ trace w /\
    (forall e, In e evs -> is_file_event e = true -> cardExists w = true) /\
    (forall pos, In (EvServoWrite pos) evs -> probe_due w = true /\ 0 <= pos <= 180) /\
    (probe_due w = false -> servoPos w' = servoPos w /\ servoChecked w' = servoChecked w) /\
    (probe_due w = true -> servoPos w' = 0).
Proof.
  intros Hb H. destruct (startTest_touch fuel w w' Hb H) as ((evs & Ht & Hp) & _ & _ & Hq).
  exists evs. split; [exact Ht|]. rewrite forallb_forall in Hp.
  split; [|split; [|split]].
  - intros e He Hf. apply Hp in He. destruct e; simpl in *; try discriminate; exact He.
  - intros pos He. apply Hp in He. simpl in He.
    apply andb_true_iff in He. destruct He as [Hd Hr].
    apply andb_true_iff in Hr. destruct Hr as [H1 H2].
    apply Z.leb_le in H1. apply Z.leb_le in H2. split; [exact Hd | lia].
  - intros Hd. rewrite Hd in Hq. exact Hq.
  - intros Hd. rewrite Hd in Hq. exact Hq.
Qed.

(** X15: One step of a test prints to the card only when there is one: a row at
    the position min(180, servoPos); it commands the servo, to that
    position or to 0, only when the servo is checked and active, and otherwise
    leaves the position as it is.  The switches stay as they are. *)
Theorem stepTest_effect (w w' : World F) :
  stepTest cfg env w = Some (tt, w') ->
  exists evs, trace w' = evs ++ trace w /\
    (forall e, In e evs -> is_file_event e = true ->
       cardExists w = true /\
       exists time force, e = EvRow time (Z.min 180 (servoPos w)) force) /\
    (forall pos, In (EvServoWrite pos) evs ->
       driven w = true /\ (pos = 0 \/ pos = Z.min 180 (servoPos w))) /\
    (driven w = false -> servoPos w' = servoPos w) /\
    servoChecked w' = servoChecked w /\ servoActive w' = servoActive w /\
    cardExists w' = cardExists w.
Proof.
  intros H. destruct (stepTest_steps w w' H) as ((evs & Ht & Hp) & Hc & Ha & Hx & Hs).
  exists evs. split; [exact Ht|]. rewrite forallb_forall in Hp.
  split; [|split; [|split; [exact Hs | auto]]].
  - intros e He Hf. apply Hp in He. destruct e; simpl in *; try discriminate.
    apply andb_true_iff in He. destruct He as [Hcard Hpos].
    apply Z.eqb_eq in Hpos. subst pos. split; [exact Hcard|].
    exists time, force. reflexivity.
  - intros pos He. apply Hp in He. simpl in He.
    apply andb_true_iff in He. destruct He as [Hd Hr]. split; [exact Hd|].
    apply orb_true_iff in Hr. destruct Hr as [Hr | Hr]; apply Z.eqb_eq in Hr; auto.
Qed.

(** ** What holds throughout a run *)

#[local] Instance guarded_pre (G : World F -> Prop) (P : Event F -> bool) :
  Pre (guarded G P).
Proof.
  split.
  - intros w HG. split; [exact HG | apply pre_refl].
  - intros a b c H1 H2 HG. destruct (H1 HG) as [Gb O1]. destruct (H2 Gb) as [Gc O2].
    split; [exact Gc | eapply pre_trans; eassumption].
Qed.

Section Modes.

Variables nocard manual ranged : bool.

Lemma mode_event_idle : allows (@is_idle_event F) (mode_event nocard manual ranged).
Proof.
  intros e He. unfold mode_event.
  destruct e; simpl in *; try discriminate;
    destruct ranged, nocard, manual; reflexivity.
Qed.

Lemma mode_ok_mono (k k' : Z) (w : World F) :
  k <= k' -> mode_ok nocard manual ranged k w -> mode_ok nocard manual ranged k' w.
Proof.
  intros Hk (Hl & Hrest). split; [|exact Hrest].
  intros Hrg. destruct (Hl Hrg) as [Hlog Hb]. split; [exact Hlog | lia].
Qed.

Section Budget.

Variable k : Z.

Lemma mode_ok_snapshot (w w' : World F) :
  snapshot w' = snapshot w ->
  mode_ok nocard manual ranged k w -> mode_ok nocard manual ranged k w'.
Proof.
  unfold snapshot. intros Hs (Hl & Hr & Hc & Hm). inversion Hs as [[S1 S2 S3 S4 S5 S6]].
  split.
  { intros Hrg. destruct (Hl Hrg) as [Hlog Hb].
    split; [eapply log_ok_ext; [ | | | exact Hlog]; congruence | rewrite S1; exact Hb]. }
  split; [unfold at_rest in *; rewrite S1, S3; exact Hr|].
  split; [intros Hn; rewrite S6; auto|].
  intros Hn. destruct (Hm Hn) as [Ha Hp]. split; congruence.
Qed.

Lemma guarded_keep {A : Type} (m : M (World F) A) :
  preserves (keeps (@snapshot F)) m -> preserves (quiet is_idle_event) m ->
  preserves (guarded (mode_ok nocard manual ranged k) (mode_event nocard manual ranged)) m.
Proof.
  intros Hk Hq w a w' H HG. split.
  - eapply mode_ok_snapshot; [|exact HG]. eapply Hk. exact H.
  - eapply only_weaken; [apply mode_event_idle|]. apply Hq in H. destruct H as [H _]. exact H.
Qed.

Lemma mode_event_start (w : World F) :
  mode_ok nocard manual ranged k w ->
  allows (@start_event F (cardExists w) (probe_due w)) (mode_event nocard manual ranged).
Proof.
  intros (Hl & Hr & Hc & Hm) e He. unfold mode_event.
  assert (Hcard : cardExists w = true -> nocard = false).
  { intros Hx. destruct nocard; [|reflexivity]. rewrite Hc in Hx by reflexivity.
    discriminate Hx. }
  assert (Hprobe : probe_due w = true -> manual = false).
  { intros Hx. destruct manual; [|reflexivity]. destruct (Hm eq_refl) as [Ha _].
    unfold probe_due in Hx. rewrite Ha, andb_false_r in Hx. discriminate Hx. }
  destruct e; simpl in *; try discriminate;
    try (destruct ranged, nocard, manual; reflexivity);
    try (rewrite (Hcard He); destruct ranged, manual; reflexivity).
  apply andb_true_iff in He. destruct He as [Hd Hrange].
  rewrite Hrange, (Hprobe Hd). destruct ranged, nocard; reflexivity.
Qed.

Lemma mode_event_step (w : World F) :
  mode_ok nocard manual ranged k w ->
  allows (@step_event F (cardExists w) (driven w) (Z.min 180 (servoPos w)))
         (mode_event nocard manual ranged).
Proof.
  intros (Hl & Hr & Hc & Hm) e He. unfold mode_event.
  assert (Hcard : cardExists w = true -> nocard = false).
  { intros Hx. destruct nocard; [|reflexivity]. rewrite Hc in Hx by reflexivity.
    discriminate Hx. }
  assert (Hdriven : driven w = true -> manual = false).
  { intros Hx. destruct manual; [|reflexivity]. destruct (Hm eq_refl) as [Ha _].
    unfold driven in Hx. rewrite Ha, andb_false_r in Hx. discriminate Hx. }
  destruct e; simpl in *; try discriminate;
    try (destruct ranged, nocard, manual; reflexivity).
  - apply andb_true_iff in He. destruct He as [Hd Hp].
    rewrite (Hdriven Hd).
    assert (Hin : implb ranged ((0 <=? pos) && (pos <=? 180)) = true).
    { destruct ranged; [|reflexivity]. destruct (Hl eq_refl) as [[(H0 & _) _] _].
      apply andb_true_iff.
      apply orb_true_iff in Hp. destruct Hp as [Hp | Hp]; apply Z.eqb_eq in Hp;
        split; apply Z.leb_le; lia. }
    rewrite Hin. destruct nocard; reflexivity.
  - apply andb_true_iff in He. destruct He as [Hx _]. rewrite (Hcard Hx).
    destruct ranged, manual; reflexivity.
Qed.

Lemma mode_event_end (w : World F) :
  mode_ok nocard manual ranged k w ->
  allows (@end_event F (cardExists w)) (mode_event nocard manual ranged).
Proof.
  intros (Hl & Hr & Hc & Hm) e He. unfold mode_event.
  destruct e; simpl in *; try discriminate;
    try (destruct ranged, nocard, manual; reflexivity).
  destruct nocard; [rewrite Hc in He by reflexivity; discriminate He|].
  destruct ranged, manual; reflexivity.
Qed.

Lemma guarded_startTest fuel :
  preserves (guarded (mode_ok nocard manual ranged k) (mode_event nocard manual ranged))
            (startTest env fuel).
Proof.
  intros w [] w' H HG. pose proof HG as (Hl & Hr & Hc & Hm).
  assert (Hb : probe_due w = true -> servo_bounded w).
  { intros Hd. unfold probe_due in Hd. apply andb_true_iff in Hd. destruct Hd as [Hd _].
    apply negb_true_iff in Hd. unfold servo_bounded. rewrite (Hr Hd). lia. }
  destruct (startTest_touch fuel w w' Hb H) as (Ho & Ha & Hx & Hp).
  split; [|eapply only_weaken; [apply mode_event_start; exact HG | exact Ho]].
  split; [|split; [|split]].
  - intros Hrg. destruct (Hl Hrg) as [Hlog Hbd].
    split; [eapply log_okR_startTest; eassumption|].
    destruct (probe_due w).
    + rewrite Hp. destruct Hlog as [(H0 & _) _]. lia.
    + destruct Hp as [Hp _]. rewrite Hp. exact Hbd.
  - unfold at_rest. destruct (probe_due w); [auto|].
    destruct Hp as [Hp1 Hp2]. rewrite Hp1, Hp2. exact Hr.
  - intros Hn. rewrite Hx. auto.
  - intros Hn. destruct (Hm Hn) as [Ha0 Hp0]. split; [congruence|].
    unfold probe_due in Hp. rewrite Ha0, andb_false_r in Hp. destruct Hp as [Hp _].
    congruence.
Qed.

(** A step of a test takes one pass of the budget. *)
Lemma guarded_stepTest (w w' : World F) :
  (ranged = true -> k < 16383) ->
  mode_ok nocard manual ranged k w ->
  stepTest cfg env w = Some (tt, w') ->
  mode_ok nocard manual ranged (k + 1) w' /\ only (mode_event nocard manual ranged) w w'.
Proof.
  intros Hk HG H. pose proof HG as (Hl & Hr & Hc & Hm).
  destruct (stepTest_steps w w' H) as (Ho & Hck & Ha & Hx & Hp).
  split; [|eapply only_weaken; [apply mode_event_step; exact HG | exact Ho]].
  split; [|split; [|split]].
  - intros Hrg. destruct (Hl Hrg) as [Hlog Hbd]. specialize (Hk Hrg).
    destruct (stepTest_log_ok w w' Hlog ltac:(lia) H) as [Hlog' Hb'].
    split; [exact Hlog' | lia].
  - unfold at_rest. rewrite Hck. intros Hd. rewrite Hp; [auto|].
    unfold driven. rewrite Hd. reflexivity.
  - intros Hn. rewrite Hx. auto.
  - intros Hn. destruct (Hm Hn) as [Ha0 Hp0]. split; [congruence|].
    rewrite Hp; [exact Hp0|]. unfold driven. rewrite Ha0. apply andb_false_r.
Qed.

Lemma guarded_endTest :
  preserves (guarded (mode_ok nocard manual ranged k) (mode_event nocard manual ranged))
            endTest.
Proof.
  intros w [] w' H HG. split.
  - eapply mode_ok_snapshot; [|exact HG]. eapply keeps_endTest. exact H.
  - apply endTest_effect in H. destruct H as [Ho _].
    eapply only_weaken; [apply mode_event_end; exact HG | exact Ho].
Qed.

Lemma mode_ok_update (f : World F -> World F) (w : World F) :
  servoPos (f w) = servoPos w -> servoStep (f w) = servoStep w ->
  servoChecked (f w) = servoChecked w -> servoActive (f w) = servoActive w ->
  cardExists (f w) = cardExists w -> trace (f w) = trace w ->
  guarded (mode_ok nocard manual ranged k) (mode_event nocard manual ranged) w (f w).
Proof.
  intros Hp Hs Hk Ha Hx Ht (Hl & Hr & Hc & Hm).
  split; [|apply only_same; exact Ht].
  split.
  { intros Hrg. destruct (Hl Hrg) as [Hlog Hb].
    split; [eapply log_ok_ext; [ | | | exact Hlog]; congruence | rewrite Hp; exact Hb]. }
  split; [unfold at_rest in *; rewrite Hp, Hk; exact Hr|].
  split; [intros Hn; rewrite Hx; auto|].
  intros Hn. destruct (Hm Hn). split; congruence.
Qed.

Ltac mode_leaf :=
  first
    [ apply guarded_startTest | apply guarded_endTest
    | solve [ apply (mode_ok_update _ _); reflexivity ]
    | apply guarded_keep;
      [ first [ apply keeps_delay | apply keeps_delayCheckButton
              | apply keeps_printLcd; reflexivity | apply keeps_ready ]
      | first [ apply quiet_printLcdScroll; [apply display_idle | apply delay_idle]
              | apply quiet_delay; apply delay_idle
              | apply quiet_delayCheckButton; apply delay_idle
              | apply quiet_printLcd; apply display_idle ] ] ].

Ltac setup_leaf :=
  first
    [ solve [ apply (mode_ok_update _ _); reflexivity ]
    | apply guarded_keep;
      [ first [ apply keeps_delay | apply keeps_printLcd; reflexivity
              | apply keeps_card_failed ]
      | first [ apply quiet_delay; apply delay_idle
              | apply quiet_printLcd; apply display_idle
              | apply quiet_printLcdScroll; [apply display_idle | apply delay_idle] ] ] ].

Lemma guarded_loop_prompt fuel :
  preserves (guarded (mode_ok nocard manual ranged k) (mode_event nocard manual ranged))
            (loop_prompt env fuel).
Proof. unfold loop_prompt. pres; mode_leaf. Qed.

Lemma guarded_loop_toggle fuel :
  preserves (guarded (mode_ok nocard manual ranged k) (mode_event nocard manual ranged))
            (loop_toggle env fuel).
Proof. unfold loop_toggle. pres; mode_leaf. Qed.

(** Lines 643-647 take one pass of the budget. *)
Lemma guarded_loop_step (w w' : World F) :
  (ranged = true -> k < 16383) ->
  mode_ok nocard manual ranged k w ->
  loop_step cfg env w = Some (tt, w') ->
  mode_ok nocard manual ranged (k + 1) w' /\ only (mode_event nocard manual ranged) w w'.
Proof.
  intros Hk HG H. expose H.
  apply bind_inv in H. destruct H as (running & w0 & H0 & H).
  apply gets_inv in H0. destruct H0 as [_ ->].
  apply bind_inv in H. destruct H as (flag & w0 & H0 & H).
  apply gets_inv in H0. destruct H0 as [_ ->].
  destruct (running && flag).
  - exact (guarded_stepTest w w' Hk HG H).
  - assert (Hq : preserves (guarded (mode_ok nocard manual ranged k)
                                    (mode_event nocard manual ranged))
                           (delayCheckButton env 250 false)) by mode_leaf.
    destruct (Hq _ _ _ H HG) as [G1 O1].
    split; [apply (mode_ok_mono k); [lia | exact G1] | exact O1].
Qed.

Lemma guarded_loop fuel (w w' : World F) :
  (ranged = true -> k < 16383) ->
  mode_ok nocard manual ranged k w ->
  loop cfg env fuel w = Some (tt, w') ->
  mode_ok nocard manual ranged (k + 1) w' /\ only (mode_event nocard manual ranged) w w'.
Proof.
  intros Hk HG H. expose H.
  apply bind_inv in H. destruct H as ([] & w1 & H1 & H).
  apply bind_inv in H. destruct H as ([] & w2 & H2 & H3).
  destruct (guarded_loop_prompt fuel _ _ _ H1 HG) as [G1 O1].
  destruct (guarded_loop_toggle fuel _ _ _ H2 G1) as [G2 O2].
  destruct (guarded_loop_step w2 w' Hk G2 H3) as [G3 O3].
  split; [exact G3|].
  eapply pre_trans; [exact O1|]. eapply pre_trans; [exact O2 | exact O3].
Qed.

Lemma guarded_setup fuel :
  (nocard = true -> sd_begin_in env = false) ->
  preserves (guarded (mode_ok nocard manual ranged k) (mode_event nocard manual ranged))
            (setup env fuel).
Proof.
  intros Hn. unfold setup, setupLcd, setupCard, setupCard_begin.
  destruct (sd_begin_in env) eqn:Eb; cbv beta iota delta [when].
  - assert (Hno : nocard = false) by (destruct nocard; [discriminate (Hn eq_refl) | reflexivity]).
    pres; first [ setup_leaf | idtac ].
    intros (Hl & Hr & Hc & Hm). split; [|apply only_same; reflexivity].
    split.
    { intros Hrg. destruct (Hl Hrg) as [Hlog Hb].
      split; [eapply log_ok_ext; [ | | | exact Hlog]; reflexivity | exact Hb]. }
    split; [exact Hr|]. split; [rewrite Hno; discriminate | exact Hm].
  - pres; setup_leaf.
Qed.

End Budget.

Lemma guarded_loops fuel n : forall (k : Z) (w w' : World F),
  (ranged = true -> k + Z.of_nat n <= 16383) ->
  mode_ok nocard manual ranged k w ->
  loops cfg env fuel n w = Some (tt, w') ->
  mode_ok nocard manual ranged (k + Z.of_nat n) w' /\
  only (mode_event nocard manual ranged) w w'.
Proof.
  induction n as [|n IH]; intros k w w' Hk HG H.
  - change (loops cfg env fuel 0 w) with (@ret (World F) unit tt w) in H.
    apply ret_inv in H. destruct H as [_ ->].
    replace (k + Z.of_nat 0) with k by lia. split; [exact HG | apply pre_refl].
  - change (loops cfg env fuel (S n) w)
      with ((loop cfg env fuel ;; loops cfg env fuel n) w) in H.
    apply bind_inv in H. destruct H as ([] & w1 & H1 & H2).
    rewrite Nat2Z.inj_succ in *.
    destruct (guarded_loop k fuel w w1 ltac:(intros Hrg; specialize (Hk Hrg); lia) HG H1)
      as [G1 O1].
    destruct (IH (k + 1) w1 w' ltac:(intros Hrg; specialize (Hk Hrg); lia) G1 H2)
      as [G2 O2].
    replace (k + Z.succ (Z.of_nat n)) with (k + 1 + Z.of_nat n) by lia.
    split; [exact G2 | eapply pre_trans; eassumption].
Qed.

Lemma mode_ok_power_on :
  (manual = true -> AUTO_TEST cfg = false) ->
  mode_ok nocard manual ranged 0 (power_on cfg).
Proof.
  intros Hm. split; [intros _; split; [apply log_ok_power_on | simpl; lia]|].
  split; [intros _; reflexivity|].
  split; [intros _; reflexivity|]. intros Hn. split; [exact (Hm Hn) | reflexivity].
Qed.

Lemma run_mode (fuel n : nat) (w : World F) :
  (nocard = true -> sd_begin_in env = false) ->
  (manual = true -> AUTO_TEST cfg = false) ->
  (ranged = true -> Z.of_nat n <= 16383) ->
  run cfg env fuel n = Some w ->
  mode_ok nocard manual ranged (Z.of_nat n) w /\
  forall e, In e (trace w) -> mode_event nocard manual ranged e = true.
Proof.
  intros Hn Hm Hr H. destruct (run_inv fuel n w H) as (w1 & H1 & H2).
  destruct (guarded_setup 0 fuel Hn _ _ _ H1 (mode_ok_power_on Hm)) as [G1 O1].
  destruct (guarded_loops fuel n 0 _ _ ltac:(intros Hrg; specialize (Hr Hrg); lia) G1 H2)
    as [G2 O2].
  split; [exact G2|].
  destruct (pre_trans _ _ _ O1 O2) as (evs & Ht & Hp).
  replace (trace (power_on cfg)) with (@nil (Event F)) in Ht by reflexivity.
  rewrite app_nil_r in Ht. rewrite Ht. rewrite forallb_forall in Hp. exact Hp.
Qed.

End Modes.

(** X5: In the first 16383 passes of [loop] after power-on the position
    variable stays even, not negative and at most twice the number of
    passes, so an automatic sweep that has come back down stands at
    exactly 0. *)
Theorem sweep_ends_at_zero (fuel n : nat) (w : World F) :
  Z.of_nat n <= 16383 ->
  run cfg env fuel n = Some w ->
  0 <= servoPos w <= 2 * Z.of_nat n /\ servoPos w mod 2 = 0 /\
  (sweep_ended w -> servoPos w = 0).
Proof.
  intros Hn H.
  destruct (run_mode false false true fuel n w ltac:(discriminate) ltac:(discriminate)
              (fun _ => Hn) H) as [(Hl & _) _].
  destruct (Hl eq_refl) as [[(H0 & Hev & _) _] Hb].
  split; [lia|]. split; [exact Hev|].
  intros (_ & _ & _ & Hle). lia.
Qed.

(** X29: In the first 16383 passes of [loop] after power-on the
    servo-position field of every logged row is between 0 and 180. *)
Theorem early_rows_in_range (fuel n : nat) (w : World F)
        (time pos : Z) (force : F) :
  Z.of_nat n <= 16383 ->
  run cfg env fuel n = Some w ->
  In (EvRow time pos force) (trace w) ->
  0 <= pos <= 180.
Proof.
  intros Hn H Hin.
  destruct (run_mode false false true fuel n w ltac:(discriminate) ltac:(discriminate)
              (fun _ => Hn) H) as [(Hl & _) _].
  destruct (Hl eq_refl) as [[_ Hrows] _]. apply logged_row in Hin.
  exact (proj1 (Forall_forall _ _) Hrows pos Hin).
Qed.

(** X16: In the first 16383 passes of [loop] after power-on each position
    written to the servo lies between 0 and 180. *)
Theorem servo_commands_in_range (fuel n : nat) (w : World F) (pos : Z) :
  Z.of_nat n <= 16383 ->
  run cfg env fuel n = Some w ->
  In (EvServoWrite pos) (trace w) ->
  0 <= pos <= 180.
Proof.
  intros Hn H Hin.
  destruct (run_mode false false true fuel n w ltac:(discriminate) ltac:(discriminate)
              (fun _ => Hn) H) as [_ Hp].
  apply Hp in Hin. unfold mode_event in Hin. simpl in Hin.
  rewrite !andb_true_r in Hin. apply andb_true_iff in Hin. destruct Hin as [H1 H2].
  apply Z.leb_le in H1. apply Z.leb_le in H2. lia.
Qed.

(** X17: When the card does not mount, no run ever lists the card, opens,
    writes or closes a file, and [cardExists] stays false. *)
Theorem no_card_no_file_access (fuel n : nat) (w : World F) :
  sd_begin_in env = false ->
  run cfg env fuel n = Some w ->
  cardExists w = false /\
  forall e, In e (trace w) -> is_file_event e = false.
Proof.
  intros Hb H.
  destruct (run_mode true false false fuel n w (fun _ => Hb) ltac:(discriminate)
              ltac:(discriminate) H)
    as [(_ & _ & Hc & _) Hp].
  split; [apply Hc; reflexivity|].
  intros e He. apply Hp in He. unfold mode_event in He. simpl in He.
  rewrite andb_true_r in He. unfold no_file_event in He.
  apply negb_true_iff in He. exact He.
Qed.

(** X18: In the build without AUTO_TEST no run ever writes to the servo, and
    the position stays 0. *)
Theorem manual_build_leaves_servo (fuel n : nat) (w : World F) :
  AUTO_TEST cfg = false ->
  run cfg env fuel n = Some w ->
  servoPos w = 0 /\ servoActive w = false /\
  forall pos, ~ In (EvServoWrite pos) (trace w).
Proof.
  intros Ha H.
  destruct (run_mode false true false fuel n w ltac:(discriminate) (fun _ => Ha)
              ltac:(discriminate) H)
    as [(_ & _ & _ & Hm) Hp].
  destruct (Hm eq_refl) as [Hact Hpos]. split; [exact Hpos|]. split; [exact Hact|].
  intros pos Hin. apply Hp in Hin. discriminate Hin.
Qed.

(** ** An idle pass of the main loop *)

Lemma quiet_loop_prompt fuel : preserves (quiet is_idle_event) (loop_prompt env fuel).
Proof.
  unfold loop_prompt. pres.
  apply quiet_printLcdScroll; [apply display_idle | apply delay_idle].
Qed.

Lemma scaleActive_of_frame (w w' : World F) :
  frame w' = frame w -> scaleActive w' = scaleActive w.
Proof. unfold frame. intros H. inversion H. congruence. Qed.

(** X19: What a pass of [loop] does to the running state: an idle tester always
    leaves the pass with a test started, and if the flag was set on entry
    the button was read pressed during the pass; a running test goes on
    exactly when the flag is set on entry. *)
Theorem loop_mode_transition (fuel : nat) (w w' : World F) :
  loop cfg env fuel w = Some (tt, w') ->
  scaleActive w' = negb (scaleActive w) || continueFlag w /\
  (scaleActive w = false -> continueFlag w = true -> pressed_between env w w').
Proof.
  intros H. expose H.
  apply bind_inv in H. destruct H as ([] & wa & Ha & H).
  apply bind_inv in H. destruct H as ([] & wb & Hb & H).
  pose proof (flagR_loop_prompt _ _ _ _ Ha) as [Hra Hpa].
  pose proof (flagR_loop_toggle _ _ _ _ Hb) as [Hrb _].
  pose proof (loop_toggle_scaleActive _ _ _ Hb) as Sb.
  destruct (loop_step_frame _ _ H) as [Sc Hrc].
  pose proof (quiet_loop_prompt _ _ _ _ Ha) as [_ Fa].
  pose proof (scaleActive_of_frame _ _ Fa) as Sa.
  unfold loop_prompt in Ha. pose proof (while_exit _ _ _ _ _ Ha) as Hx.
  cbv beta in Hx. rewrite Sa in Hx.
  destruct (scaleActive w) eqn:Es.
  - apply while_skip in Ha; [|cbv beta; rewrite Es; apply andb_false_r]. subst wa.
    split; [|discriminate]. rewrite Sc, Sb, Es. simpl.
    destruct (continueFlag w); reflexivity.
  - rewrite andb_true_r in Hx. split.
    + rewrite Sc, Sb, Sa, Hx. reflexivity.
    + intros _ Hc. destruct (Hpa Hx) as [Hf | Hp]; [congruence|].
      eapply pressed_between_mono; [apply Nat.le_refl | | exact Hp]. lia.
Qed.

(** ** How long a scrolled text is shown *)

Lemma printLcd_run a b (w : World F) :
  exists w', printLcd a b w = Some (tt, w') /\ delayed (trace w') = delayed (trace w).
Proof.
  destruct (printLcd_total a b w) as [w' H]. exists w'. split; [exact H|].
  apply delayed_no_delay.
  apply (only_of_quiet no_delay _ (quiet_printLcd _ a b idle_no_delay_display)) in H.
  exact H.
Qed.

Lemma delayCheckButton_run (w : World F) :
  exists w', delayCheckButton env 2000 false w = Some (tt, w') /\ within 2000 w w'.
Proof.
  destruct (delayCheckButton_total 2000 false w ltac:(lia)) as [w' H].
  exists w'. split; [exact H|].
  apply (delayCheckButton_delay 2000 false) in H; [|lia]. destruct H as [H _]. exact H.
Qed.

Lemma scroll_run (n : nat) :
  forall tokens (w : World F), (List.length tokens <= n)%nat ->
  exists w', scroll env tokens w = Some (tt, w') /\
             within (2000 * Z.of_nat (Nat.div2 (S (List.length tokens)))) w w'.
Proof.
  induction n as [|n IH]; intros [|t1 [|t2 rest]] w Hl; simpl in Hl; try lia.
  - exists w. split; [reflexivity|]. unfold within. simpl. lia.
  - exists w. split; [reflexivity|]. unfold within. simpl. lia.
  - destruct (printLcd_run t1 EmptyString w) as (w1 & H1 & D1).
    destruct (delayCheckButton_run w1) as (w2 & H2 & D2).
    exists w2. split.
    + cbn [scroll]. rewrite (bind_run _ _ _ _ _ H1). exact H2.
    + unfold within in *. cbn [List.length Nat.div2]. lia.
  - destruct (printLcd_run t1 EmptyString w) as (w1 & H1 & D1).
    destruct (printLcd_run EmptyString t2 w1) as (w2 & H2 & D2).
    destruct (delayCheckButton_run w2) as (w3 & H3 & D3).
    destruct (IH rest w3 ltac:(lia)) as (w4 & H4 & D4).
    exists w4. split.
    + cbn [scroll]. rewrite (bind_run _ _ _ _ _ H1), (bind_run _ _ _ _ _ H2),
        (bind_run _ _ _ _ _ H3). exact H4.
    + unfold within in *. cbn [List.length]. 
      change (Nat.div2 (S (S (S (List.length rest)))))
        with (S (Nat.div2 (S (List.length rest)))).
      lia.
Qed.

(** X20: [printLcdScroll] always returns, and the time it has spent waiting is
    at most 2000 ms for each pair of lines of the text. *)
Theorem printLcdScroll_bounded (text : string) (w : World F) :
  exists w', printLcdScroll env text w = Some (tt, w') /\
    within (2000 * Z.of_nat (Nat.div2 (S (List.length
                (strtok_lines (c_str text) EmptyString))))) w w'.
Proof.
  unfold printLcdScroll.
  apply (scroll_run (List.length (strtok_lines (c_str text) EmptyString))). lia.
Qed.

(** ** The calibration sketch *)

Lemma wrap32_fold (l : list ascii) (a b : Z) :
  wrap32 a = wrap32 b ->
  wrap32 (fold_left (fun acc c => 10 * acc + digit_val c) l a)
  = wrap32 (fold_left (fun acc c => 10 * acc + digit_val c) l b).
Proof.
  revert a b. induction l as [|c l IH]; intros a b H; simpl; [exact H|].
  apply IH. unfold wrap32 in *.
  rewrite (Z.add_mod (10 * a)), (Z.add_mod (10 * b)) by lia.
  rewrite (Z.mul_mod 10 a), (Z.mul_mod 10 b) by lia. rewrite H. reflexivity.
Qed.

Lemma read_weight_line (line rest : list ascii) :
  Calibration.no_newline line ->
  forall weight, 0 <= weight < 2 ^ 32 ->
  Calibration.read_weight (line ++ newline :: rest) weight
  = Some (wrap32 (fold_left (fun acc c => 10 * acc + digit_val c)
                            (filter isdigit line) weight),
          newline :: rest).
Proof.
  induction line as [|ch line IH]; intros Hn weight Hw.
  - cbn [app Calibration.read_weight filter fold_left]. rewrite Ascii.eqb_refl.
    rewrite wrap32_small by exact Hw. reflexivity.
  - assert (Hch : Ascii.eqb ch newline = false) by (apply Hn; left; reflexivity).
    assert (Hn' : Calibration.no_newline line)
      by (intros c Hc; apply Hn; right; exact Hc).
    cbn [app Calibration.read_weight filter]. rewrite Hch.
    destruct (isdigit ch) eqn:Ed.
    + rewrite (IH Hn') by (apply Z.mod_pos_bound; lia). f_equal. f_equal.
      cbn [fold_left]. apply wrap32_fold. unfold wrap32.
      rewrite Z.mod_mod by lia. rewrite Z.add_mod_idemp_l by lia.
      f_equal. lia.
    + apply (IH Hn'). exact Hw.
Qed.

(** X21: The entry of the weight reads a line up to its newline, which it leaves
    in the buffer, and returns the number written by the digits of the line,
    modulo 2^32; every other character of the line is skipped. *)
Theorem weight_entry_reads_the_digits (line rest : list ascii) :
  Calibration.no_newline line ->
  Calibration.enter_weight (line ++ newline :: rest)
  = Some (digits_value (Calibration.digits_of line) mod 2 ^ 32, newline :: rest).
Proof.
  intros Hn. unfold Calibration.enter_weight.
  rewrite (read_weight_line line rest Hn 0) by lia.
  unfold digits_value, Calibration.digits_of. rewrite list_ascii_of_string_of_list_ascii.
  reflexivity.
Qed.

(** X22: Without a newline the entry never ends. *)
Theorem weight_entry_waits_for_newline (input : list ascii) (weight : Z) :
  Calibration.no_newline input -> Calibration.read_weight input weight = None.
Proof.
  revert weight. induction input as [|ch input IH]; intros weight Hn; [reflexivity|].
  assert (Hch : Ascii.eqb ch newline = false) by (apply Hn; left; reflexivity).
  assert (Hn' : Calibration.no_newline input)
    by (intros c Hc; apply Hn; right; exact Hc).
  cbn [Calibration.read_weight]. rewrite Hch.
  destruct (isdigit ch); apply IH; exact Hn'.
Qed.

(** ** The ten-byte buffer of the file name *)

Lemma length_append_s (a b : string) :
  String.length (a ++ b) = (String.length a + String.length b)%nat.
Proof. induction a as [|c a IH]; simpl; [reflexivity | rewrite IH; reflexivity]. Qed.

Lemma append_assoc_s (a b c : string) : ((a ++ b) ++ c = a ++ (b ++ c))%string.
Proof. induction a as [|x a IH]; simpl; [reflexivity | rewrite IH; reflexivity]. Qed.

Lemma all_digits_append (a b : string) :
  all_digits (a ++ b) = all_digits a && all_digits b.
Proof.
  unfold all_digits. induction a as [|c a IH]; simpl; [reflexivity|].
  rewrite IH. apply andb_assoc.
Qed.

Lemma isdigit_of_digit (d : Z) :
  0 <= d <= 9 -> isdigit (ascii_of_nat (Z.to_nat (48 + d))) = true.
Proof.
  intros H. unfold isdigit. rewrite nat_ascii_embedding by lia.
  rewrite Z2Nat.id by lia. apply andb_true_iff. split; apply Z.leb_le; lia.
Qed.

Lemma pow10_succ (k : nat) : 10 ^ Z.of_nat (S k) = 10 * 10 ^ Z.of_nat k.
Proof. rewrite Nat2Z.inj_succ, Z.pow_succ_r by lia. reflexivity. Qed.

Lemma pow2_succ (k : nat) : 2 ^ Z.of_nat (S k) = 2 * 2 ^ Z.of_nat k.
Proof. rewrite Nat2Z.inj_succ, Z.pow_succ_r by lia. reflexivity. Qed.

Lemma dec_digits_spec (fuel : nat) :
  forall n acc, 0 <= n < 2 ^ Z.of_nat fuel ->
  exists ds, dec_digits fuel n acc = (ds ++ acc)%string /\ all_digits ds = true /\
             forall k, 10 ^ Z.of_nat k <= n -> (k < String.length ds)%nat.
Proof.
  induction fuel as [|fuel IH]; intros n acc Hn.
  - exists EmptyString. split; [reflexivity|]. split; [reflexivity|].
    intros k Hk. pose proof (Z.pow_pos_nonneg 10 (Z.of_nat k) ltac:(lia) ltac:(lia)).
    simpl in Hn. lia.
  - rewrite pow2_succ in Hn. cbn [dec_digits]. cbv zeta.
    pose proof (Z.mod_pos_bound n 10 ltac:(lia)) as Hmod.
    destruct (n <? 10) eqn:E.
    + apply Z.ltb_lt in E.
      exists (String (ascii_of_nat (Z.to_nat (48 + n mod 10))) EmptyString).
      split; [reflexivity|]. split.
      * unfold all_digits. cbn [list_ascii_of_string forallb].
        rewrite isdigit_of_digit by lia. reflexivity.
      * intros k Hk. cbn [String.length]. destruct k as [|k]; [lia|]. exfalso.
        rewrite pow10_succ in Hk.
        pose proof (Z.pow_pos_nonneg 10 (Z.of_nat k) ltac:(lia) ltac:(lia)). lia.
    + apply Z.ltb_ge in E.
      assert (Hq : 0 <= n / 10 < 2 ^ Z.of_nat fuel).
      { split; [apply Z.div_pos; lia|].
        apply Z.div_lt_upper_bound; lia. }
      destruct (IH (n / 10) (String (ascii_of_nat (Z.to_nat (48 + n mod 10))) acc) Hq)
        as (ds & Heq & Hd & Hk).
      exists (ds ++ String (ascii_of_nat (Z.to_nat (48 + n mod 10))) EmptyString)%string.
      split; [rewrite Heq, append_assoc_s; reflexivity|]. split.
      * rewrite all_digits_append, Hd. unfold all_digits.
        cbn [list_ascii_of_string forallb].
        rewrite isdigit_of_digit by lia. reflexivity.
      * intros k Hle. rewrite length_append_s. cbn [String.length].
        destruct k as [|k]; [lia|]. rewrite pow10_succ in Hle.
        assert (Hk' : (k < String.length ds)%nat).
        { apply Hk. apply Z.div_le_lower_bound; lia. }
        lia.
Qed.

Lemma dec_thousand (n : Z) :
  1000 <= n ->
  exists d1 d2 d3 d4 r,
    dec n = String d1 (String d2 (String d3 (String d4 r))) /\
    isdigit d1 = true /\ isdigit d2 = true /\ isdigit d3 = true /\ isdigit d4 = true.
Proof.
  intros Hn. unfold dec. rewrite (proj2 (Z.ltb_ge n 0)) by lia.
  assert (Hb : 0 <= n < 2 ^ Z.of_nat (S (Z.to_nat (Z.log2 n)))).
  { rewrite Nat2Z.inj_succ, Z2Nat.id by apply Z.log2_nonneg.
    pose proof (Z.log2_spec n ltac:(lia)). lia. }
  destruct (dec_digits_spec _ n EmptyString Hb) as (ds & Heq & Hd & Hk).
  rewrite Heq. specialize (Hk 3%nat ltac:(simpl; lia)).
  destruct ds as [|d1 [|d2 [|d3 [|d4 r]]]]; simpl in Hk; try lia.
  exists d1, d2, d3, d4, (r ++ EmptyString)%string. split; [reflexivity|].
  unfold all_digits in Hd. simpl in Hd.
  repeat (apply andb_true_iff in Hd; destruct Hd as [? Hd]). auto.
Qed.

Lemma c_str_length_le (s : string) : (String.length (c_str s) <= String.length s)%nat.
Proof.
  induction s as [|c s IH]; simpl; [lia|].
  destruct (Ascii.eqb c NUL); simpl; lia.
Qed.

Lemma substring_length_le (n : nat) : forall (s : string),
  (String.length (String.substring 0 n s) <= n)%nat.
Proof.
  induction n as [|n IH]; intros [|c s]; simpl; try lia.
  specialize (IH s). lia.
Qed.

(** X23: The buffer of ten bytes holds the names of the numbers 0 to 999 and of
    no others: a name written for any other number is not accepted by
    [isMatchingFormat]. *)
Theorem name_fits_buffer (n : Z) :
  isMatchingFormat (formatFileName n) = true <-> 0 <= n <= 999.
Proof.
  split.
  - intros Hm. rewrite <- isMatchingFormat_c_str in Hm.
    apply (matches_log_name _ (c_str_idem _)) in Hm.
    destruct Hm as (ds & Heq & Hl & Hd).
    destruct (Z.lt_ge_cases n 0) as [Hneg | Hpos].
    + exfalso. unfold formatFileName, dec, snprintf in Heq.
      rewrite (proj2 (Z.ltb_lt n 0) Hneg) in Heq.
      set (x := dec_digits _ _ _) in Heq. simpl in Heq.
      destruct ds as [|a ds]; [simpl in Hl; lia|].
      simpl in Heq. inversion Heq as [[Ha Hrest]]. subst a.
      unfold all_digits in Hd. simpl in Hd. discriminate Hd.
    + destruct (Z.le_gt_cases n 999) as [Hle | Hgt]; [lia|]. exfalso.
      destruct (dec_thousand n ltac:(lia)) as (d1 & d2 & d3 & d4 & r & Hdec & H1 & H2 & H3 & H4).
      unfold formatFileName, snprintf in Heq. rewrite Hdec in Heq.
      simpl in Heq.
      rewrite (digit_not_nul d1 H1), (digit_not_nul d2 H2), (digit_not_nul d3 H3),
        (digit_not_nul d4 H4) in Heq.
      pose proof (c_str_length_le (String.substring 0 3 (r ++ ".csv"))) as Hc.
      pose proof (substring_length_le 3 (r ++ ".csv")) as Hs.
      set (u := c_str (String.substring 0 3 (r ++ ".csv"))) in *.
      destruct ds as [|a1 [|a2 [|a3 [|a4 [|a5 ds]]]]]; simpl in Hl; try lia;
        simpl in Heq; inversion Heq; subst.
      * apply (digit_not_dot _ H2). reflexivity.
      * apply (digit_not_dot _ H3). reflexivity.
      * apply (digit_not_dot _ H4). reflexivity.
      * match goal with H : u = _ |- _ => rewrite H in Hc end. simpl in Hc. lia.
  - intros Hr. destruct (Z.eq_dec n 0) as [-> | Hn]; [reflexivity|].
    apply name_roundtrip. lia.
Qed.

(** ** An uninterrupted automatic sweep *)

Lemma advance_servo_exact (pos : Z) (w w' : World F) :
  driven w = true ->
  advance_servo pos w = Some (tt, w') ->
  servoPos w' = wrap16 (servoPos w + servoStep w) /\
  servoStep w' = (if wrap16 (servoPos w + servoStep w) >=? 192 then -2
                  else if wrap16 (servoPos w + servoStep w) <=? 0 then 0
                       else servoStep w) /\
  continueFlag w' = (if wrap16 (servoPos w + servoStep w) >=? 192 then continueFlag w
                     else if wrap16 (servoPos w + servoStep w) <=? 0 then false
                          else continueFlag w) /\
  servoChecked w' = servoChecked w /\ servoActive w' = servoActive w /\
  scaleActive w' = scaleActive w /\ nreads w' = nreads w.
Proof.
  unfold advance_servo. intros Hd H.
  apply (guard_inv _ _ andb) in H. destruct H as [[_ H] | [Hg _]];
    [|unfold driven in Hd; congruence].
  apply bind_inv in H. destruct H as (p & w0 & H0 & H).
  apply gets_inv in H0. destruct H0 as [-> ->].
  apply bind_inv in H. destruct H as (st & w0 & H0 & H).
  apply gets_inv in H0. destruct H0 as [-> ->].
  apply bind_inv in H. destruct H as ([] & w1 & H1 & H). apply modify_inv in H1.
  apply bind_inv in H. destruct H as ([] & w2 & H2 & H).
  assert (E2 : w2 = set_trace (EvServoWrite pos :: trace w1) w1)
    by (inversion H2; reflexivity).
  clear H2. change maxServoPos with 192 in H.
  destruct (wrap16 (servoPos w + servoStep w) >=? 192).
  - apply modify_inv in H. rewrite H, E2, H1. repeat split.
  - destruct (wrap16 (servoPos w + servoStep w) <=? 0).
    + apply bind_inv in H. destruct H as ([] & w3 & H3 & H).
      apply modify_inv in H3. apply modify_inv in H. rewrite H, H3, E2, H1. repeat split.
    + apply ret_inv in H. destruct H as [_ ->]. rewrite E2, H1. repeat split.
Qed.

Lemma log_sample_plain (pos : Z) (w w' : World F) (aborted : bool) :
  CONT_SYNC cfg = false ->
  log_sample cfg env pos w = Some (aborted, w') ->
  aborted = false /\ sweep_view w' = sweep_view w.
Proof.
  intros Hc H. unfold log_sample in H.
  apply bind_inv in H. destruct H as (card & w0 & H0 & H).
  apply gets_inv in H0. destruct H0 as [_ ->]. destruct card.
  - apply bind_inv in H. destruct H as (time & w0 & H0 & H).
    apply gets_inv in H0. destruct H0 as [_ ->].
    apply bind_inv in H. destruct H as (force & w0 & H0 & H).
    apply gets_inv in H0. destruct H0 as [_ ->].
    apply bind_inv in H. destruct H as ([] & w1 & H1 & H).
    assert (E1 : w1 = set_trace (EvRow time pos force :: trace w) w)
      by (inversion H1; reflexivity).
    clear H1. expose H. rewrite Hc in H.
    apply ret_inv in H. destruct H as [-> ->]. rewrite E1. split; reflexivity.
  - apply ret_inv in H. destruct H as [-> ->]. split; reflexivity.
Qed.

Lemma take_sample_unpressed (w w' : World F) :
  continueFlag w = true ->
  (forall i, (nreads w <= i)%nat -> digitalRead_in env i = HIGH) ->
  take_sample env w = Some (tt, w') ->
  servoPos w' = servoPos w /\ servoStep w' = servoStep w /\ continueFlag w' = true /\
  servoChecked w' = servoChecked w /\ servoActive w' = servoActive w /\
  scaleActive w' = scaleActive w /\ (nreads w <= nreads w')%nat.
Proof.
  intros Hf Hu H.
  pose proof (keeps_take_sample _ _ _ H) as Hk.
  pose proof (flagR_take_sample _ _ _ H) as [Hn Hp].
  unfold keeps, snapshot in Hk. inversion Hk as [[K1 K2 K3 K4 K5]].
  repeat split; try assumption.
  destruct (continueFlag w') eqn:E; [reflexivity|].
  destruct (Hp eq_refl) as [Hc | Hc]; [congruence|].
  exfalso. exact (unpressed_between _ _ Hu Hc).
Qed.

Lemma stepTest_unpressed (w w' : World F) :
  CONT_SYNC cfg = false -> driven w = true -> continueFlag w = true ->
  (forall i, (nreads w <= i)%nat -> digitalRead_in env i = HIGH) ->
  stepTest cfg env w = Some (tt, w') ->
  servoPos w' = wrap16 (servoPos w + servoStep w) /\
  servoStep w' = (if wrap16 (servoPos w + servoStep w) >=? 192 then -2
                  else if wrap16 (servoPos w + servoStep w) <=? 0 then 0
                       else servoStep w) /\
  continueFlag w' = (if wrap16 (servoPos w + servoStep w) >=? 192 then true
                     else negb (wrap16 (servoPos w + servoStep w) <=? 0)) /\
  driven w' = true /\ scaleActive w' = scaleActive w /\ (nreads w <= nreads w')%nat.
Proof.
  intros Hc Hd Hf Hu H. expose H.
  apply bind_inv in H. destruct H as ([] & w1 & H1 & H).
  apply (take_sample_unpressed _ _ Hf Hu) in H1.
  destruct H1 as (P1 & S1 & F1 & C1 & A1 & X1 & N1).
  apply bind_inv in H. destruct H as (pos & w0 & H0 & H).
  apply gets_inv in H0. destruct H0 as [_ ->].
  apply bind_inv in H. destruct H as (aborted & w2 & H2 & H).
  apply (log_sample_plain _ _ _ _ Hc) in H2. destruct H2 as [-> V2].
  unfold sweep_view in V2. inversion V2 as [[P2 S2 F2 C2 A2 X2 N2]].
  assert (Hd2 : driven w2 = true) by (unfold driven in *; congruence).
  apply (advance_servo_exact _ _ _ Hd2) in H.
  destruct H as (P3 & S3 & F3 & C3 & A3 & X3 & N3).
  rewrite P2, S2, P1, S1 in P3, S3, F3. rewrite F2, F1 in F3.
  split; [exact P3|]. split; [exact S3|].
  split; [rewrite F3; destruct (wrap16 (servoPos w + servoStep w) >=? 192);
          [reflexivity | destruct (wrap16 (servoPos w + servoStep w) <=? 0); reflexivity]|].
  split; [unfold driven in *; congruence|]. split; [congruence | lia].
Qed.

Lemma loop_running (fuel : nat) (w : World F) :
  scaleActive w = true -> continueFlag w = true ->
  loop cfg env (S fuel) w = stepTest cfg env w.
Proof.
  intros Hs Hf. unfold loop.
  rewrite (bind_run _ _ w w tt).
  2:{ unfold loop_prompt. apply while_step_false. rewrite Hs. apply andb_false_r. }
  rewrite (bind_run _ _ w w tt).
  2:{ unfold loop_toggle. rewrite (bind_run _ _ w w (continueFlag w)) by reflexivity.
      rewrite Hf. reflexivity. }
  unfold loop_step.
  rewrite (bind_run _ _ w w (scaleActive w)) by reflexivity.
  rewrite (bind_run _ _ w w (continueFlag w)) by reflexivity.
  rewrite Hs, Hf. reflexivity.
Qed.

Lemma sweep_step_position (k : Z) :
  0 <= k < 192 ->
  let p := sweep_position k + (if k <? 96 then 2 else -2) in
  p = sweep_position (k + 1) /\
  (if p >=? 192 then -2 else if p <=? 0 then 0 else (if k <? 96 then 2 else -2))
  = (if k + 1 <? 96 then 2 else if k + 1 <? 192 then -2 else 0) /\
  (if p >=? 192 then true else negb (p <=? 0)) = (k + 1 <? 192).
Proof.
  intros Hk. cbv zeta. unfold sweep_position.
  destruct (k <? 96) eqn:E1; [apply Z.ltb_lt in E1 | apply Z.ltb_ge in E1];
    destruct (k <=? 96) eqn:E2; [apply Z.leb_le in E2 | apply Z.leb_gt in E2
                                | apply Z.leb_le in E2 | apply Z.leb_gt in E2];
    try lia;
    destruct (k + 1 <=? 96) eqn:E3; [apply Z.leb_le in E3 | apply Z.leb_gt in E3
                                    | apply Z.leb_le in E3 | apply Z.leb_gt in E3
                                    | apply Z.leb_le in E3 | apply Z.leb_gt in E3];
    try lia;
    repeat match goal with
           | |- context [?a >=? ?b] =>
               let E := fresh "E" in
               destruct (a >=? b) eqn:E;
               [apply Z.geb_le in E | rewrite Z.geb_leb in E; apply Z.leb_gt in E]
           | |- context [?a <=? ?b] =>
               let E := fresh "E" in
               destruct (a <=? b) eqn:E; [apply Z.leb_le in E | apply Z.leb_gt in E]
           | |- context [?a <? ?b] =>
               let E := fresh "E" in
               destruct (a <? b) eqn:E; [apply Z.ltb_lt in E | apply Z.ltb_ge in E]
           end;
    try lia; repeat split; try reflexivity; try lia.
Qed.

Lemma sweep_position_range (k : Z) : 0 <= k <= 192 -> 0 <= sweep_position k <= 192.
Proof.
  intros Hk. unfold sweep_position.
  destruct (k <=? 96) eqn:E; [apply Z.leb_le in E | apply Z.leb_gt in E]; lia.
Qed.

Lemma sweep_run (fuel : nat) :
  CONT_SYNC cfg = false ->
  forall (k : nat) (j : Z) (w w' : World F),
  0 <= j -> j + Z.of_nat k <= 192 ->
  sweep_at j w ->
  (forall i, (nreads w <= i)%nat -> digitalRead_in env i = HIGH) ->
  loops cfg env (S fuel) k w = Some (tt, w') ->
  sweep_at (j + Z.of_nat k) w' /\ (nreads w <= nreads w')%nat.
Proof.
  intros Hc. induction k as [|k IH]; intros j w w' Hj Hle Hat Hu H.
  - change (loops cfg env (S fuel) 0 w) with (@ret (World F) unit tt w) in H.
    apply ret_inv in H. destruct H as [_ ->].
    rewrite Z.add_0_r. split; [exact Hat | lia].
  - destruct Hat as (X0 & D0 & P0 & S0 & F0).
    assert (Hj1 : 0 <= j < 192) by lia.
    assert (F0' : continueFlag w = true) by (rewrite F0; apply Z.ltb_lt; lia).
    change (loops cfg env (S fuel) (S k) w)
      with ((loop cfg env (S fuel) ;; loops cfg env (S fuel) k) w) in H.
    apply bind_inv in H. destruct H as ([] & w1 & H1 & H).
    rewrite loop_running in H1 by assumption.
    destruct (stepTest_unpressed _ _ Hc D0 F0' Hu H1) as (P1 & S1 & F1 & D1 & X1 & N1).
    assert (Hst : servoStep w = if j <? 96 then 2 else -2).
    { rewrite S0. destruct (j <? 96); [reflexivity|].
      rewrite (proj2 (Z.ltb_lt _ _)) by lia. reflexivity. }
    rewrite P0, Hst in P1, S1, F1.
    destruct (sweep_step_position j Hj1) as (E1 & E2 & E3).
    cbv zeta in E1, E2, E3.
    rewrite wrap16_small in P1, S1, F1
      by (rewrite E1; pose proof (sweep_position_range (j + 1) ltac:(lia)); lia).
    rewrite E1 in P1. rewrite E2 in S1. rewrite E3 in F1.
    assert (Hat1 : sweep_at (j + 1) w1).
    { split; [congruence|]. split; [exact D1|]. split; [exact P1|].
      split; [exact S1 | exact F1]. }
    destruct (IH (j + 1) w1 w' ltac:(lia) ltac:(lia) Hat1) as (Hat' & N').
    { intros i Hi. apply Hu. lia. }
    { exact H. }
    replace (j + Z.of_nat (S k)) with (j + 1 + Z.of_nat k) by lia.
    split; [exact Hat' | lia].
Qed.

(** X24: An automatic sweep that is not interrupted, in the build without
    CONT_SYNC: from position 0 with step 2, [k] passes of [loop] that return
    are [k] steps of the test and bring the position to 2k on the way up to
    192 and to 384 - 2k on the way down; the flag stays set for 191 passes
    and is cleared by pass 192, with the servo back at 0 and the step 0. *)
Theorem automatic_sweep_profile (fuel k : nat) (w w' : World F) :
  CONT_SYNC cfg = false ->
  scaleActive w = true -> continueFlag w = true ->
  servoChecked w = true -> servoActive w = true ->
  servoPos w = 0 -> servoStep w = 2 ->
  (forall i, (nreads w <= i)%nat -> digitalRead_in env i = HIGH) ->
  (k <= 192)%nat ->
  loops cfg env (S fuel) k w = Some (tt, w') ->
  servoPos w' = sweep_position (Z.of_nat k) /\
  continueFlag w' = (Z.of_nat k <? 192) /\
  (k = 192%nat -> servoPos w' = 0 /\ servoStep w' = 0 /\ sweep_ended w').
Proof.
  intros Hc Hs Hf Hk Ha Hp Hst Hu Hle H.
  assert (Hat : sweep_at 0 w).
  { split; [exact Hs|]. split; [unfold driven; rewrite Hk, Ha; reflexivity|].
    split; [exact Hp|]. split; [exact Hst | exact Hf]. }
  destruct (sweep_run fuel Hc k 0 w w' ltac:(lia) ltac:(lia) Hat Hu H)
    as ((X & D & P & S' & F') & N).
  rewrite Z.add_0_l in P, S', F'.
  split; [exact P|]. split; [exact F'|].
  intros ->. change (Z.of_nat 192) with 192 in *.
  change (sweep_position 192) with 0 in P. change (192 <? 96) with false in S'.
  change (192 <? 192) with false in S'. cbv iota in S'.
  split; [exact P|]. split; [exact S'|].
  unfold driven in D. apply andb_true_iff in D. destruct D as [D1 D2].
  unfold sweep_ended. rewrite P. repeat split; auto. lia.
Qed.

(** ** A new log does not take the name of an old one *)

Lemma getFileNum_c_str (s : string) : getFileNum (c_str s) = getFileNum s.
Proof. unfold getFileNum, num_span, strstr. rewrite c_str_idem. reflexivity. Qed.

(** X25: On the first call after power-on, when the largest number among the
    logs on the card is at most 998, the name that [getFileName] returns is
    not the name of any file that the listing shows. *)
Theorem new_log_name_is_fresh (fuel : nat) (w w' : World F)
        (entries : list DirEntry) (name : string) :
  maxFileNum w = 0 ->
  dir_in env (nscans w) = Some entries ->
  last_number env w <= 998 ->
  getFileName env fuel w = Some (name, w') ->
  forall e, In e entries -> entryIsDir e = false -> c_str (entryName e) <> name.
Proof.
  intros H0 Hdir Hl H e He Hfile Heq.
  destruct (getFileName_next fuel w Hl) as (w1 & G & _).
  rewrite G in H. inversion H as [[Hname Hw]]. clear H G Hw.
  assert (Hm : last_number env w = fold_left scan_entry entries 0).
  { unfold last_number. rewrite H0, Hdir. reflexivity. }
  destruct (fold_scan_entry entries 0) as (Hge & Hall & _). cbv zeta in Hge, Hall.
  rewrite <- Hm in Hge, Hall.
  destruct (name_roundtrip (last_number env w + 1) ltac:(lia)) as [Ha Hb].
  rewrite Hname, <- Heq in Ha, Hb.
  rewrite isMatchingFormat_c_str in Ha. rewrite getFileNum_c_str in Hb.
  assert (Hin : In (last_number env w + 1) (listed_numbers (Some entries))).
  { unfold listed_numbers. apply in_map_iff. exists e. split; [exact Hb|].
    apply filter_In. split; [exact He|]. rewrite Hfile, Ha. reflexivity. }
  apply Hall in Hin. lia.
Qed.

(** ** The end of a test *)

Lemma returns_endTest : returns (@endTest F FO).
Proof.
  apply returns_of_total. unfold endTest. tot; try (split; exact I);
    apply total_of_returns; first [ apply returns_emit | apply returns_printLcd ].
Qed.

Lemma endTest_resets (w w' : World F) :
  endTest w = Some (tt, w') ->
  maxForce w' = of_int 0 /\ delayed (trace w') - delayed (trace w) = 2000.
Proof.
  intros H. expose H.
  apply bind_inv in H. destruct H as (card & w0 & H0 & H).
  apply gets_inv in H0. destruct H0 as [_ ->].
  apply bind_inv in H. destruct H as ([] & w1 & H1 & H).
  assert (D1 : delayed (trace w1) = delayed (trace w)).
  { apply delayed_no_delay.
    assert (Hp : preserves (only no_delay) (when card (@emit F EvFileClose)))
      by (pres; apply only_emit; reflexivity).
    eapply Hp. exact H1. }
  apply bind_inv in H. destruct H as ([] & w2 & H2 & H).
  apply (only_of_quiet no_delay _ (quiet_printLcd _ _ _ idle_no_delay_display)) in H2.
  apply delayed_no_delay in H2.
  apply bind_inv in H. destruct H as ([] & w3 & H3 & H).
  assert (D3 : delayed (trace w3) = 2000 + delayed (trace w2))
    by (inversion H3; reflexivity).
  apply bind_inv in H. destruct H as (name & w4 & H4 & H).
  apply gets_inv in H4. destruct H4 as [_ ->].
  apply bind_inv in H. destruct H as ([] & w5 & H5 & H).
  assert (D5 : delayed (trace w5) = delayed (trace w3)).
  { apply delayed_no_delay.
    assert (Hp : preserves (only no_delay) (when card (@printLcd F "Data Saved to:" name))).
    { pres. apply only_of_quiet. apply quiet_printLcd. apply idle_no_delay_display. }
    eapply Hp. exact H5. }
  apply modify_inv in H. rewrite H. fields. split; [reflexivity | lia].
Qed.

(** X26: [endTest] always returns.  It resets [maxForce], waits 2000 ms, closes
    the file only when there is a card and reaches the card in no other way;
    it leaves the servo, the switches and the file number as they are. *)
Theorem endTest_outcome (w : World F) :
  exists w', endTest w = Some (tt, w') /\
    maxForce w' = of_int 0 /\
    delayed (trace w') - delayed (trace w) = 2000 /\
    snapshot w' = snapshot w /\
    exists evs, trace w' = evs ++ trace w /\
      forall e, In e evs -> is_file_event e = true ->
                e = EvFileClose /\ cardExists w = true.
Proof.
  destruct (returns_endTest w) as ([] & w' & H). exists w'. split; [exact H|].
  destruct (endTest_resets w w' H) as [Hm Hd].
  split; [exact Hm|]. split; [exact Hd|].
  split; [exact (keeps_endTest _ _ _ H)|].
  destruct (endTest_effect w w' H) as ((evs & Ht & Hp) & _).
  exists evs. split; [exact Ht|]. rewrite forallb_forall in Hp.
  intros e He Hf. apply Hp in He. destruct e; simpl in *; try discriminate.
  split; [reflexivity | exact He].
Qed.

(** ** The verdict of the probe *)

Lemma cell_emit (e : Event F) : preserves (keeps (@cell_view F)) (emit e).
Proof. intros w x w' H. inversion H; subst. reflexivity. Qed.

Lemma cell_printLcd a b : preserves (keeps (@cell_view F)) (printLcd a b).
Proof. unfold printLcd. pres; apply cell_emit. Qed.

Lemma cell_digitalRead : preserves (keeps (@cell_view F)) (digitalRead env).
Proof. intros w x w' H. inversion H; subst. reflexivity. Qed.

Lemma cell_wait_press fuel dt total :
  preserves (keeps (@cell_view F)) (wait_press env fuel dt total).
Proof.
  revert total. induction fuel as [|fuel IH]; intros total; simpl; pres;
    try reflexivity; try apply cell_digitalRead; try apply IH.
  apply cell_emit.
Qed.

Lemma cell_wait_release fuel dt total full :
  preserves (keeps (@cell_view F)) (wait_release env fuel dt total full).
Proof.
  revert total. induction fuel as [|fuel IH]; intros total; simpl; pres;
    try reflexivity; try apply cell_digitalRead; try apply IH.
  apply cell_emit.
Qed.

Lemma cell_delayCheckButton dt full :
  preserves (keeps (@cell_view F)) (delayCheckButton env dt full).
Proof.
  unfold delayCheckButton. pres; try reflexivity.
  - apply cell_wait_press.
  - apply cell_wait_release.
Qed.

Lemma cell_ramp_loop fuel setPos step dt :
  preserves (keeps (@cell_view F)) (ramp_loop env fuel setPos step dt).
Proof.
  induction fuel as [|fuel IH]; simpl; pres; try reflexivity;
    first [ apply cell_emit | apply cell_delayCheckButton | exact IH ].
Qed.

Lemma cell_rampServo setPos dt : preserves (keeps (@cell_view F)) (rampServo env setPos dt).
Proof. unfold rampServo. pres. apply cell_ramp_loop. Qed.

Lemma flag_of_cell_quiet (w w' : World F) (text : string) (ms : Z) (b found : bool) :
  (printLcd text EmptyString ;; delay ms ;; ret b) w = Some (found, w') ->
  found = b /\ continueFlag w' = continueFlag w /\ cell_view w' = cell_view w.
Proof.
  intros H.
  apply bind_inv in H. destruct H as ([] & w1 & H1 & H).
  pose proof (cell_printLcd _ _ _ _ _ H1) as C1.
  apply printLcd_nreads in H1. destruct H1 as [_ F1].
  apply bind_inv in H. destruct H as ([] & w2 & H2 & H).
  pose proof (cell_emit _ _ _ _ H2) as C2.
  assert (F2 : continueFlag w2 = continueFlag w1) by (inversion H2; reflexivity).
  apply ret_inv in H. destruct H as [-> ->].
  unfold keeps in *. split; [reflexivity|]. split; congruence.
Qed.

Lemma probe_verdict_rule (startForce : F) (w w' : World F) (found : bool) :
  probe_verdict startForce w = Some (found, w') ->
  continueFlag w' = continueFlag w /\ cell_view w' = cell_view w /\
  found = continueFlag w
          && fltb (of_int MIN_TEST_FORCE) (float_abs (fsub (unitForce w) startForce)).
Proof.
  unfold probe_verdict. intros H.
  apply bind_inv in H. destruct H as ([] & w1 & H1 & H). apply modify_inv in H1.
  apply bind_inv in H. destruct H as ([] & w2 & H2 & H).
  assert (E2 : w2 = set_trace (EvServoWrite 0 :: trace w1) w1)
    by (inversion H2; reflexivity).
  clear H2.
  apply bind_inv in H. destruct H as (flag & w3 & H3 & H).
  apply gets_inv in H3. destruct H3 as [Hflag ->].
  assert (Hf : continueFlag w2 = continueFlag w) by (rewrite E2, H1; reflexivity).
  assert (Hc : cell_view w2 = cell_view w) by (rewrite E2, H1; reflexivity).
  assert (Hu : unitForce w2 = unitForce w) by (rewrite E2, H1; reflexivity).
  rewrite Hf in Hflag. subst flag.
  destruct (continueFlag w) eqn:Ef; cbv beta iota delta [negb] in H.
  - apply bind_inv in H. destruct H as (uf & w3 & H3 & H).
    apply gets_inv in H3. destruct H3 as [-> ->]. rewrite Hu in H.
    destruct (fltb (of_int MIN_TEST_FORCE) (float_abs (fsub (unitForce w) startForce)));
      apply flag_of_cell_quiet in H; destruct H as (-> & Hf' & Hc');
      (split; [congruence|]; split; [congruence | reflexivity]).
  - apply flag_of_cell_quiet in H. destruct H as (-> & Hf' & Hc').
    split; [congruence|]. split; [congruence | reflexivity].
Qed.

Lemma probe_sweep_readings (w w' : World F) (startForce : F) :
  probe_sweep env w = Some (startForce, w') ->
  startForce = get_units_in env (nunits w) /\
  unitForce w' = get_units_in env (S (nunits w)) /\
  nunits w' = S (S (nunits w)).
Proof.
  unfold probe_sweep. intros H.
  apply bind_inv in H. destruct H as ([] & w1 & H1 & H). apply modify_inv in H1.
  assert (C1 : cell_view w1 = cell_view w) by (rewrite H1; reflexivity).
  apply bind_inv in H. destruct H as ([] & w2 & H2 & H). apply cell_printLcd in H2.
  apply bind_inv in H. destruct H as ([] & w3 & H3 & H). apply cell_emit in H3.
  apply bind_inv in H. destruct H as ([] & w4 & H4 & H). apply cell_printLcd in H4.
  apply bind_inv in H. destruct H as ([] & w5 & H5 & H). apply cell_delayCheckButton in H5.
  assert (C5 : nunits w5 = nunits w).
  { unfold keeps, cell_view in *.
    assert (E : (nunits w5, unitForce w5) = (nunits w, unitForce w)) by congruence.
    inversion E. reflexivity. }
  clear H1 C1 H2 H3 H4 H5.
  apply bind_inv in H. destruct H as (sf & w6 & H6 & H).
  assert (E6 : sf = get_units_in env (nunits w5) /\ w6 = set_nunits (S (nunits w5)) w5)
    by (inversion H6; auto).
  destruct E6 as [Esf E6]. clear H6.
  assert (N6 : nunits w6 = S (nunits w)) by (rewrite E6, <- C5; reflexivity).
  apply bind_inv in H. destruct H as ([] & w7 & H7 & H). apply cell_rampServo in H7.
  apply bind_inv in H. destruct H as ([] & w8 & H8 & H). apply cell_delayCheckButton in H8.
  assert (N8 : nunits w8 = S (nunits w)).
  { unfold keeps, cell_view in *.
    assert (E : (nunits w8, unitForce w8) = (nunits w6, unitForce w6)) by congruence.
    inversion E. congruence. }
  clear H7 H8.
  apply bind_inv in H. destruct H as (f & w9 & H9 & H).
  assert (E9 : f = get_units_in env (nunits w8) /\ w9 = set_nunits (S (nunits w8)) w8)
    by (inversion H9; auto).
  destruct E9 as [Ef E9]. clear H9.
  apply bind_inv in H. destruct H as ([] & w10 & H10 & H). apply modify_inv in H10.
  apply bind_inv in H. destruct H as ([] & w11 & H11 & H). apply cell_rampServo in H11.
  apply ret_inv in H. destruct H as [-> <-].
  unfold keeps, cell_view in H11. inversion H11 as [[N11 U11]].
  rewrite N11, U11, H10, E9. fields. rewrite N8, C5 in *.
  split; [exact Esf|]. split; [exact Ef | reflexivity].
Qed.

(** X27: The decision of the probe: [checkServo] reads the load cell exactly
    twice, before the ramp up and after the hold, stores the second reading,
    and reports the servo found exactly when the flag is still set on
    return and the two readings differ by more than MIN_TEST_FORCE. *)
Theorem checkServo_verdict (w w' : World F) (found : bool) :
  checkServo env w = Some (found, w') ->
  nunits w' = S (S (nunits w)) /\
  unitForce w' = get_units_in env (S (nunits w)) /\
  found = continueFlag w'
          && fltb (of_int MIN_TEST_FORCE)
                  (float_abs (fsub (get_units_in env (S (nunits w)))
                                   (get_units_in env (nunits w)))).
Proof.
  intros H. expose H.
  apply bind_inv in H. destruct H as (sf & w1 & H1 & H).
  apply probe_sweep_readings in H1. destruct H1 as (-> & U1 & N1).
  apply probe_verdict_rule in H. destruct H as (Hf & Hc & Hfound).
  unfold cell_view in Hc. inversion Hc as [[N2 U2]].
  rewrite N1, U1 in *. rewrite Hf. auto.
Qed.
(** ** The flag on entry to a wait *)








(** ** The probe: what it decides and how long that stands *)

#[local] Instance settledR_pre : Pre (@settledR F).
Proof.
  split; unfold settledR.
  - intros w. split; [reflexivity|]. split; [lia | auto].
  - intros a b c (A1 & P1 & C1) (A2 & P2 & C2).
    split; [congruence|]. split; [lia|].
    intros Hp. assert (Hb : probes b = probes a) by lia.
    rewrite C2 by lia. apply C1. exact Hb.
Qed.

Ltac settled_view :=
  let Hv := fresh "Hv" in
  intros ? ? Hv; view_open; inversion Hv; unfold settledR;
  split; [congruence|]; split; [lia | intros; congruence].

Ltac settled_auto :=
  pres; first [ solve [unfold settledR; simpl; auto]
              | eapply preserves_from; [ solve [auto with keepdb] | settled_view ]
              | idtac ].

Lemma set_flag_same (w : World F) : set_continueFlag (continueFlag w) w = w.
Proof. destruct w; reflexivity. Qed.

(** A probe ends with the flag cleared only after a press. *)
Lemma checkServo_skipped (w w' : World F) (found : bool) :
  checkServo env w = Some (found, w') ->
  (nreads w <= nreads w')%nat /\
  (continueFlag w' = false -> pressed_between env w w').
Proof.
  intros H.
  assert (H' : checkServo env (set_continueFlag true w) = Some (found, w')).
  { rewrite <- (checkServo_sets_flag (continueFlag w)), set_flag_same. exact H. }
  destruct (flagR_checkServo _ _ _ H') as [Hn Hf]. split; [exact Hn|].
  intros Hc. destruct (Hf Hc) as [Hx | Hp]; [discriminate Hx | exact Hp].
Qed.

Lemma checkServo_rule (w w' : World F) (found : bool) :
  checkServo env w = Some (found, w') ->
  found = continueFlag w'
          && fltb (of_int MIN_TEST_FORCE)
                  (float_abs (fsub (get_units_in env (S (nunits w)))
                                   (get_units_in env (nunits w)))).
Proof.
  intros H. expose H.
  apply bind_inv in H. destruct H as (sf & w1 & H1 & H).
  apply probe_sweep_readings in H1. destruct H1 as (-> & U1 & N1).
  apply probe_verdict_rule in H. destruct H as (Hf & Hc & Hfound).
  rewrite U1 in Hfound. rewrite Hf. exact Hfound.
Qed.

Lemma notice_quiet (text : string) (ms : Z) (w w' : World F) :
  not_probe_text text ->
  (printLcd text EmptyString ;; delay ms) w = Some (tt, w') ->
  snapshot w' = snapshot w /\ nreads w' = nreads w /\ continueFlag w' = continueFlag w.
Proof.
  intros Ht H. apply bind_inv in H. destruct H as ([] & w1 & H1 & H2).
  pose proof (keeps_printLcd _ _ Ht _ _ _ H1) as K1.
  apply printLcd_nreads in H1. destruct H1 as [N1 F1].
  pose proof (keeps_delay _ _ _ _ H2) as K2.
  assert (E : nreads w' = nreads w1 /\ continueFlag w' = continueFlag w1)
    by (inversion H2; auto).
  destruct E as [N2 F2]. unfold keeps in *. split; [congruence|]. split; congruence.
Qed.

Lemma start_clock_quiet (w w' : World F) :
  start_clock env w = Some (tt, w') ->
  snapshot w' = snapshot w /\ nreads w' = nreads w /\ continueFlag w' = continueFlag w.
Proof.
  intros H. pose proof (keeps_start_clock _ _ _ H) as K. split; [exact K|].
  unfold start_clock, bind, millis, modify in H. inversion H; subst. split; reflexivity.
Qed.

Lemma cell_scroll tokens : preserves (keeps (@cell_view F)) (scroll env tokens).
Proof.
  assert (H : forall n tokens, (List.length tokens <= n)%nat ->
              preserves (keeps (@cell_view F)) (scroll env tokens)).
  { induction n as [|n IH]; intros [|t1 [|t2 rest]] Hl; simpl in *;
      pres; try lia; try reflexivity;
      try apply cell_delayCheckButton; try apply cell_printLcd.
    apply IH; lia. }
  apply (H (List.length tokens)). lia.
Qed.

Lemma cell_open_log fuel : preserves (keeps (@cell_view F)) (open_log env fuel).
Proof.
  unfold open_log, getFileName, scan_directory, writeHeader, printLcdScroll, delay.
  pres; try reflexivity;
    first [ apply cell_emit | apply cell_printLcd | apply cell_scroll
          | intros w x w' H; inversion H; subst; reflexivity ].
Qed.

Lemma flagR_open_log fuel : preserves (flagR env) (open_log env fuel).
Proof. unfold open_log, writeHeader, delay. flagR_auto. Qed.

(** A test start with the probe due runs it once and keeps its verdict. *)
Lemma startTest_verdict fuel (w w' : World F) :
  servoChecked w = false -> servoActive w = true ->
  startTest env fuel w = Some (tt, w') ->
  probes w' = S (probes w) /\ servoActive w' = true /\
  servoChecked w' = probe_finds env w w' /\
  (continueFlag w' = false -> pressed_between env w w').
Proof.
  intros Hc Ha H. pose proof (startTest_probes fuel w w' Hc Ha H) as Hp.
  split; [exact Hp|]. expose H.
  apply bind_inv in H. destruct H as ([] & w1 & H1 & H).
  apply bind_inv in H. destruct H as ([] & w2 & H2 & H3).
  pose proof (keeps_open_log _ _ _ _ H1) as K1. unfold keeps, view_open_log in K1.
  inversion K1 as [[K11 K12 K13 K14 K15 K16 K17 K18]].
  pose proof (cell_open_log _ _ _ _ H1) as C1. unfold keeps, cell_view in C1.
  inversion C1 as [[C11 C12]].
  destruct (flagR_open_log _ _ _ _ H1) as [N1 _].
  assert (Hg : negb (servoChecked w1) && servoActive w1 = true).
  { rewrite K12, K13, Hc, Ha. reflexivity. }
  destruct (detect_servo_runs w1 w2 Hg H2) as (found & wa & G1 & G2).
  pose proof (checkServo_rule _ _ _ G1) as Hrule.
  destruct (checkServo_skipped _ _ _ G1) as [Na Hskip].
  pose proof (keeps_checkServo _ _ _ G1) as Kp. unfold keeps, view_probe in Kp.
  inversion Kp as [[P1 P2 P3 P4]].
  assert (Q2 : snapshot w2 = snapshot (set_servoChecked found wa) /\
               nreads w2 = nreads wa /\ continueFlag w2 = continueFlag wa).
  { destruct found; apply notice_quiet in G2; try reflexivity; exact G2. }
  destruct Q2 as (S2 & N2 & F2).
  unfold snapshot in S2. inversion S2 as [[S21 S22 S23 S24]].
  destruct (start_clock_quiet _ _ H3) as (S3 & N3 & F3).
  unfold snapshot in S3. inversion S3 as [[S31 S32 S33 S34]].
  split; [congruence|]. split.
  - unfold probe_finds. rewrite S33, S23. cbn [servoChecked set_servoChecked].
    rewrite Hrule, C11, F3, F2. reflexivity.
  - intros Hf. rewrite F3, F2 in Hf.
    eapply pressed_between_mono; [exact N1 | | exact (Hskip Hf)]. lia.
Qed.

(** A test start with the probe not due does not run it. *)
Lemma startTest_no_probe fuel (w w' : World F) :
  negb (servoChecked w) && servoActive w = false ->
  startTest env fuel w = Some (tt, w') ->
  probes w' = probes w /\ servoChecked w' = servoChecked w /\
  servoActive w' = servoActive w.
Proof.
  intros Hg H. expose H.
  apply bind_inv in H. destruct H as ([] & w1 & H1 & H).
  apply bind_inv in H. destruct H as ([] & w2 & H2 & H3).
  apply keeps_open_log in H1. unfold keeps, view_open_log in H1.
  inversion H1 as [[K11 K12 K13 K14 K15 K16 K17 K18]].
  apply keeps_start_clock in H3. unfold keeps, snapshot in H3.
  inversion H3 as [[S31 S32 S33 S34]].
  assert (Hg1 : negb (servoChecked w1) && servoActive w1 = false)
    by (rewrite K12, K13; exact Hg).
  rewrite (detect_servo_idle w1 w2 Hg1 H2) in *.
  repeat split; congruence.
Qed.

Lemma settledR_startTest fuel : preserves (@settledR F) (startTest env fuel).
Proof.
  intros w [] w' H.
  destruct (negb (servoChecked w) && servoActive w) eqn:Hg.
  - apply andb_true_iff in Hg. destruct Hg as [Hc Ha]. apply negb_true_iff in Hc.
    destruct (startTest_verdict fuel w w' Hc Ha H) as (Hp & Ha' & _).
    split; [congruence|]. split; [lia|]. intros Hx. lia.
  - destruct (startTest_no_probe fuel w w' Hg H) as (Hp & Hc & Ha).
    split; [exact Ha|]. split; [lia|]. intros _. exact Hc.
Qed.

Lemma settledR_loop fuel : preserves (@settledR F) (loop cfg env fuel).
Proof.
  unfold loop, loop_toggle, loop_step. settled_auto. apply settledR_startTest.
Qed.

Lemma settledR_loops fuel n : preserves (@settledR F) (loops cfg env fuel n).
Proof.
  induction n as [|n IH]; simpl; pres; [apply settledR_loop | exact IH].
Qed.

(** C3, amended: a test start runs the probe exactly when automatic control
    is enabled and the servo has not been found ([servoChecked] is false),
    then runs it once and stores its verdict in [servoChecked]: true when
    the flag is still set at the end and the two readings of the load cell
    differ by more than MIN_TEST_FORCE, false when the probe was skipped by
    a press or the servo is absent.  The verdict stands until the next
    probe, so a probe that ended absent or skipped is run again by the next
    test start, and once a probe has found the servo no later pass of [loop]
    runs it. *)
Theorem probe_runs_until_found :
  (forall fuel w w',
     servoChecked w = false -> servoActive w = true ->
     startTest env fuel w = Some (tt, w') ->
     probes w' = S (probes w) /\ servoActive w' = true /\
     servoChecked w' = probe_finds env w w' /\
     (continueFlag w' = false -> pressed_between env w w')) /\
  (forall fuel w w',
     negb (servoChecked w) && servoActive w = false ->
     startTest env fuel w = Some (tt, w') ->
     probes w' = probes w /\ servoChecked w' = servoChecked w) /\
  (forall fuel n w w',
     loops cfg env fuel n w = Some (tt, w') ->
     servoActive w' = servoActive w /\
     (probes w' = probes w -> servoChecked w' = servoChecked w) /\
     (servoChecked w = true -> servoChecked w' = true /\ probes w' = probes w)).
Proof.
  split; [|split].
  - exact startTest_verdict.
  - intros fuel w w' Hg H. destruct (startTest_no_probe fuel w w' Hg H) as (Hp & Hc & _).
    split; assumption.
  - intros fuel n w w' H.
    destruct (settledR_loops fuel n _ _ _ H) as (Ha & _ & Hs).
    split; [exact Ha|]. split; [exact Hs|].
    intros Hc. exact (probeR_loops fuel n w tt w' H Hc).
Qed.

End Proofs.

(** * Concrete runs *)

Lemma never_pressed_between (listing : option (list DirEntry)) (force : nat -> Z)
      (w w' : World Z) :
  ~ pressed_between (bench never_pressed force listing) w w'.
Proof. intros (i & _ & HL). discriminate HL. Qed.

Lemma no_write_error (button : nat -> level) (listing : option (list DirEntry))
      (force : nat -> Z) (w w' : World Z) :
  ~ write_error_between (bench button force listing) w w'.
Proof. intros (i & _ & HL). discriminate HL. Qed.

Lemma pressed_at_0_later (i : nat) : (0 < i)%nat -> pressed_at [0%nat] i = HIGH.
Proof. destruct i; [lia | reflexivity]. Qed.

(** C1 as stated fails: in the run of the shipped build in which the probe
    finds the servo and the button is only pressed to start the test, pass
    192 of [loop] ends the sweep: it is entered with the flag set and
    returns with it cleared, though the button was not read LOW in it and
    no sync failed. *)
Lemma flag_cleared_without_press_or_error :
  exists w w',
    run shipped (bench_found [0%nat]) 5 191 = Some w /\
    exec shipped (bench_found [0%nat]) (Loop 5) w = Some (tt, w') /\
    continueFlag w = true /\ continueFlag w' = false /\
    ~ pressed_between (bench_found [0%nat]) w w' /\
    ~ write_error_between (bench_found [0%nat]) w w'.
Proof.
  eexists. eexists. split; [vm_compute; reflexivity|].
  split; [vm_compute; reflexivity|].
  split; [reflexivity|]. split; [reflexivity|]. split.
  - intros (i & Hi & HL). cbn [nreads] in Hi.
    unfold bench_found, bench in HL. cbn [digitalRead_in] in HL.
    rewrite pressed_at_0_later in HL by lia. discriminate HL.
  - apply no_write_error.
Qed.

(** A wait cut by a press: the amended C1 at a concrete input. *)
Lemma flag_cleared_only_by_witness :
  exec shipped bench_press (DelayCheckButton 250 false) (power_on shipped)
  = Some (tt, outcome (exec shipped bench_press (DelayCheckButton 250 false)
                            (power_on shipped))) /\
  cleared_by bench_press (DelayCheckButton 250 false) (power_on shipped)
    (outcome (exec shipped bench_press (DelayCheckButton 250 false) (power_on shipped))).
Proof.
  assert (H : exec shipped bench_press (DelayCheckButton 250 false) (power_on shipped)
              = Some (tt, outcome (exec shipped bench_press (DelayCheckButton 250 false)
                                        (power_on shipped))))
    by (vm_compute; reflexivity).
  split; [exact H|].
  apply (flag_cleared_only_by shipped bench_press _ _ _ H);
    vm_compute; reflexivity.
Defined.



(** C3 as stated fails: with a probe that does not find the servo, the
    second test start of the same power cycle runs the probe again. *)
Lemma probe_runs_twice :
  exists w,
    run shipped (bench_absent [0; 425; 432]%nat) 5 6 = Some w /\
    probes w = 2%nat /\ servoChecked w = false.
Proof. eexists. split; [vm_compute; reflexivity|]. split; reflexivity. Qed.

Lemma probe_runs_until_found_witness :
  servoChecked (power_on shipped) = false /\
  servoActive (power_on shipped) = true /\
  startTest bench_idle 0 (power_on shipped)
  = Some (tt, outcome (startTest bench_idle 0 (power_on shipped))) /\
  probes (outcome (startTest bench_idle 0 (power_on shipped)))
  = S (probes (power_on shipped)) /\
  servoActive (outcome (startTest bench_idle 0 (power_on shipped))) = true /\
  servoChecked (outcome (startTest bench_idle 0 (power_on shipped)))
  = probe_finds bench_idle (power_on shipped)
      (outcome (startTest bench_idle 0 (power_on shipped))) /\
  (continueFlag (outcome (startTest bench_idle 0 (power_on shipped))) = false ->
   pressed_between bench_idle (power_on shipped)
     (outcome (startTest bench_idle 0 (power_on shipped)))).
Proof.
  assert (H : startTest bench_idle 0 (power_on shipped)
              = Some (tt, outcome (startTest bench_idle 0 (power_on shipped))))
    by (vm_compute; reflexivity).
  split; [reflexivity|]. split; [reflexivity|]. split; [exact H|].
  exact (proj1 (probe_runs_until_found shipped bench_idle)
           0%nat (power_on shipped) _ eq_refl eq_refl H).
Defined.

(** C4, the code against its own comment: a full wait of 250 ms in which the
    button is read LOW and then HIGH returns without any delay at all, where
    the untouched wait takes the 250 ms. *)
Theorem full_wait_returns_early :
  (exists w',
     delayCheckButton (bench (pressed_at [0%nat]) (fun _ => 0) None) 250 true
       (power_on shipped) = Some (tt, w') /\
     delayed (trace w') = 0 /\ nreads w' = 2%nat /\ continueFlag w' = false) /\
  (exists w',
     delayCheckButton bench_idle 250 true (power_on shipped) = Some (tt, w') /\
     delayed (trace w') = 250).
Proof.
  split; eexists; (split; [vm_compute; reflexivity|]); repeat split; reflexivity.
Qed.

(** C5, the code against its own safe-state paths: a test of the shipped
    build in which the probe finds the servo and the button is pressed
    during the fourth sample ends with the sequencer idle, the servo
    position at 8 and the last command to the servo at 6. *)
Theorem cancelled_test_leaves_servo_up :
  exists w,
    run shipped (bench_found [0; 425]%nat) 5 5 = Some w /\
    scaleActive w = false /\ continueFlag w = true /\
    servoPos w = 8 /\ hd 0 (servo_writes (trace w)) = 6.
Proof. eexists. split; [vm_compute; reflexivity|]. repeat split; reflexivity. Qed.

(** C6, the code against its own comment (X from 0 to 999): a name with four
    digits is accepted, and its number is read as 1234. *)
Theorem four_digit_name_accepted :
  isMatchingFormat "t_1234.csv" = true /\ getFileNum "t_1234.csv" = 1234.
Proof. split; reflexivity. Qed.

(** C7 as stated fails at 998: the second call does not return t_1000.csv;
    it waits for the button and returns t_1.csv. *)
Lemma second_name_after_998 :
  max_number card_998 998 /\
  exists w1 w2,
    getFileName (bench_card card_998) 5 (power_on shipped) = Some ("t_999.csv", w1) /\
    getFileName (bench_card card_998) 5 w1 = Some ("t_1.csv", w2) /\
    "t_1.csv" <> ("t_" ++ CString.dec (998 + 2) ++ ".csv")%string.
Proof.
  split.
  - unfold max_number. change (listed_numbers card_998) with [998].
    split; [intros n [Hn | []]; lia|]. split; [discriminate | intros _; left; reflexivity].
  - eexists. eexists. split; [vm_compute; reflexivity|].
    split; [vm_compute; reflexivity | discriminate].
Qed.

Lemma max_number_card_12 : max_number card_12 12.
Proof.
  unfold max_number. change (listed_numbers card_12) with [3; 12].
  split; [intros n [Hn | [Hn | []]]; lia|].
  split; [discriminate | intros _; right; left; reflexivity].
Qed.

Lemma next_names_follow_the_maximum_witness :
  maxFileNum (power_on shipped) = 0 /\
  max_number card_12 12 /\ 0 <= 12 <= 997 /\
  exists w1 w2,
    getFileName (bench_card card_12) 0 (power_on shipped) = Some ("t_13.csv", w1) /\
    getFileName (bench_card card_12) 0 w1 = Some ("t_14.csv", w2) /\
    scans w1 = S (scans (power_on shipped)) /\ scans w2 = scans w1 /\
    nscans w2 = nscans w1.
Proof.
  split; [reflexivity|]. split; [exact max_number_card_12|]. split; [lia|].
  exact (next_names_follow_the_maximum (bench_card card_12) 0 (power_on shipped) 12
           eq_refl max_number_card_12 ltac:(lia)).
Defined.

Lemma wraparound_waits_for_the_button_witness :
  999 <= last_number bench_press card_full /\
  (forall fuel name w',
     getFileName bench_press fuel card_full = Some (name, w') ->
     pressed_between bench_press card_full w' /\ name = "t_1.csv" /\ maxFileNum w' = 1 /\
     forall fuel2, exists w2, getFileName bench_press fuel2 w' = Some ("t_2.csv", w2)) /\
  ((exists k, (nreads card_full <= k)%nat /\ digitalRead_in bench_press k = LOW) ->
   exists fuel name w', getFileName bench_press fuel card_full = Some (name, w')).
Proof.
  assert (H : 999 <= last_number bench_press card_full) by (vm_compute; discriminate).
  split; [exact H|].
  exact (wraparound_waits_for_the_button bench_press card_full H).
Defined.

(** C9, the code against its own clamp: with the button stuck down, every
    test is cancelled in its first step and started again, and each of them
    leaves the position 2 higher.  After 32767 passes of [loop] the [int]
    has wrapped from 32766 to -32768, and the next test logs a row whose
    servo-position field is -32768. *)
Theorem stuck_button_logs_negative_position :
  position_and_newest_row (run shipped bench_stuck 5 (Z.to_nat 32769))
  = Some (-32766, Some (-32768)).
Proof. vm_compute. reflexivity. Qed.

Lemma format_then_parse_witness :
  1 <= 42 <= 999 /\
  isMatchingFormat (formatFileName 42) = true /\ getFileNum (formatFileName 42) = 42.
Proof.
  split; [lia|]. exact (format_then_parse 42 ltac:(lia)).
Defined.

(** ** The further properties at concrete inputs *)

Lemma getFileNum_of_accepted_witness :
  isMatchingFormat "t_042.csv" = true /\
  exists ds, c_str "t_042.csv" = ("t_" ++ ds ++ ".csv")%string /\
             num_span "t_042.csv" = Some ds /\ (String.length ds <= 4)%nat /\
             getFileNum "t_042.csv" = digits_value ds /\
             0 <= getFileNum "t_042.csv" <= 9999.
Proof.
  split; [reflexivity|]. exact (getFileNum_of_accepted "t_042.csv" eq_refl).
Defined.

Lemma getFileName_returns_log_name_witness :
  0 <= maxFileNum (power_on shipped) /\
  getFileName (bench_card card_12) 0 (power_on shipped)
  = Some ("t_13.csv"%string,
          outcome (getFileName (bench_card card_12) 0 (power_on shipped))) /\
  exists n, 1 <= n <= 999 /\
            maxFileNum (outcome (getFileName (bench_card card_12) 0 (power_on shipped))) = n /\
            "t_13.csv"%string = ("t_" ++ dec n ++ ".csv")%string /\
            isMatchingFormat "t_13.csv" = true /\ getFileNum "t_13.csv" = n.
Proof.
  assert (H0 : 0 <= maxFileNum (power_on shipped)) by (simpl; lia).
  assert (H : getFileName (bench_card card_12) 0 (power_on shipped)
              = Some ("t_13.csv"%string,
                      outcome (getFileName (bench_card card_12) 0 (power_on shipped))))
    by (vm_compute; reflexivity).
  split; [exact H0|]. split; [exact H|].
  exact (getFileName_returns_log_name (bench_card card_12) 0 (power_on shipped) _ _ H0 H).
Defined.

Lemma run_found_3 :
  run shipped (bench_found [0%nat]) 5 3 = Some after_three_passes.
Proof. vm_compute; reflexivity. Qed.

Lemma directory_listed_at_most_once_witness :
  run shipped (bench_found [0%nat]) 5 3 = Some after_three_passes /\
  (scans after_three_passes <= 1)%nat /\ 0 <= maxFileNum after_three_passes.
Proof.
  split; [exact run_found_3|].
  exact (directory_listed_at_most_once shipped (bench_found [0%nat]) 5 3 _ run_found_3).
Defined.

Lemma run_found_95 :
  run shipped (bench_found [0%nat]) 5 95 = Some after_hold.
Proof. vm_compute; reflexivity. Qed.

Lemma run_found_192 :
  run shipped (bench_found [0%nat]) 5 192 = Some after_sweep.
Proof. vm_compute; reflexivity. Qed.

Lemma sweep_ends_at_zero_witness :
  Z.of_nat 192 <= 16383 /\
  run shipped (bench_found [0%nat]) 5 192 = Some after_sweep /\
  0 <= servoPos after_sweep <= 2 * Z.of_nat 192 /\
  servoPos after_sweep mod 2 = 0 /\
  (sweep_ended after_sweep -> servoPos after_sweep = 0).
Proof.
  assert (Hn : Z.of_nat 192 <= 16383) by (vm_compute; discriminate).
  split; [exact Hn|]. split; [exact run_found_192|].
  exact (sweep_ends_at_zero shipped (bench_found [0%nat]) 5 192 _ Hn run_found_192).
Defined.

Lemma early_rows_in_range_witness :
  Z.of_nat 95 <= 16383 /\
  run shipped (bench_found [0%nat]) 5 95 = Some after_hold /\
  In (EvRow 57000 180 100) (trace after_hold) /\
  0 <= 180 <= 180.
Proof.
  assert (Hn : Z.of_nat 95 <= 16383) by (vm_compute; discriminate).
  assert (Hin : In (EvRow 57000 180 100) (trace after_hold))
    by (apply (nth_error_In _ 1); vm_compute; reflexivity).
  split; [exact Hn|]. split; [exact run_found_95|]. split; [exact Hin|].
  exact (early_rows_in_range shipped (bench_found [0%nat]) 5 95 _ 57000 180 100
           Hn run_found_95 Hin).
Defined.

Lemma setupCard_outcome_witness :
  setupCard bench_press 5 (power_on shipped)
  = Some (tt, outcome (setupCard bench_press 5 (power_on shipped))) /\
  continueFlag (outcome (setupCard bench_press 5 (power_on shipped))) = true /\
  cardExists (outcome (setupCard bench_press 5 (power_on shipped)))
  = (sd_begin_in bench_press || cardExists (power_on shipped)) /\
  (sd_begin_in bench_press = true ->
   nreads (outcome (setupCard bench_press 5 (power_on shipped))) = nreads (power_on shipped) /\
   trace (outcome (setupCard bench_press 5 (power_on shipped))) = trace (power_on shipped)) /\
  (sd_begin_in bench_press = false -> continueFlag (power_on shipped) = true ->
   pressed_between bench_press (power_on shipped)
     (outcome (setupCard bench_press 5 (power_on shipped)))).
Proof.
  assert (H : setupCard bench_press 5 (power_on shipped)
              = Some (tt, outcome (setupCard bench_press 5 (power_on shipped))))
    by (vm_compute; reflexivity).
  split; [exact H|].
  exact (setupCard_outcome bench_press 5 (power_on shipped) _ H).
Defined.

Lemma loop_toggle_outcome_witness :
  loop_toggle bench_idle 5 (set_continueFlag false (power_on shipped))
  = Some (tt, outcome (loop_toggle bench_idle 5 (set_continueFlag false (power_on shipped)))) /\
  continueFlag (outcome (loop_toggle bench_idle 5 (set_continueFlag false (power_on shipped))))
  = true /\
  scaleActive (outcome (loop_toggle bench_idle 5 (set_continueFlag false (power_on shipped))))
  = xorb (scaleActive (set_continueFlag false (power_on shipped)))
         (negb (continueFlag (set_continueFlag false (power_on shipped)))) /\
  (continueFlag (set_continueFlag false (power_on shipped)) = true ->
   outcome (loop_toggle bench_idle 5 (set_continueFlag false (power_on shipped)))
   = set_continueFlag false (power_on shipped)).
Proof.
  assert (H : loop_toggle bench_idle 5 (set_continueFlag false (power_on shipped))
              = Some (tt, outcome (loop_toggle bench_idle 5
                                     (set_continueFlag false (power_on shipped)))))
    by (vm_compute; reflexivity).
  split; [exact H|].
  exact (loop_toggle_outcome bench_idle 5 _ _ H).
Defined.

Lemma cleared_flag_skips_the_wait_witness :
  continueFlag (set_continueFlag false (power_on shipped)) = false /\
  delayCheckButton bench_press 2000 false (set_continueFlag false (power_on shipped))
  = Some (tt, set_buttonState HIGH (set_continueFlag false (power_on shipped))) /\
  (forall setPos d,
     rampServo bench_press setPos d (set_continueFlag false (power_on shipped))
     = Some (tt, set_continueFlag false (power_on shipped))).
Proof.
  split; [reflexivity|].
  exact (cleared_flag_skips_the_wait bench_press 2000
           (set_continueFlag false (power_on shipped)) eq_refl).
Defined.

Lemma loop_mode_transition_witness :
  loop shipped bench_press 5 (power_on shipped) = Some (tt, after_first_pass) /\
  scaleActive after_first_pass
  = negb (scaleActive (power_on shipped)) || continueFlag (power_on shipped) /\
  (scaleActive (power_on shipped) = false -> continueFlag (power_on shipped) = true ->
   pressed_between bench_press (power_on shipped) after_first_pass).
Proof.
  assert (H : loop shipped bench_press 5 (power_on shipped) = Some (tt, after_first_pass))
    by (vm_compute; reflexivity).
  split; [exact H|].
  exact (loop_mode_transition shipped bench_press 5 _ _ H).
Defined.

Lemma delayCheckButton_bounded_witness :
  0 <= 250 <= 2 ^ 32 - 50 /\
  exists w', delayCheckButton bench_idle 250 false (power_on shipped) = Some (tt, w') /\
    within 250 (power_on shipped) w' /\
    (continueFlag (power_on shipped) = true ->
     (forall i, (nreads (power_on shipped) <= i)%nat -> digitalRead_in bench_idle i = HIGH) ->
     delayed (trace w') - delayed (trace (power_on shipped)) = 250 /\
     continueFlag w' = true).
Proof.
  assert (H : 0 <= 250 <= 2 ^ 32 - 50) by lia.
  split; [exact H|].
  exact (delayCheckButton_bounded bench_idle 250 false (power_on shipped) H).
Defined.

Lemma rampServo_reaches_witness :
  int_range (servoPos (power_on shipped)) /\ int_range 90 /\
  int_range (90 - servoPos (power_on shipped)) /\ 0 <= 60 <= 32767 /\
  exists w', rampServo bench_idle 90 60 (power_on shipped) = Some (tt, w') /\
    Z.min (servoPos (power_on shipped)) 90 <= servoPos w'
      <= Z.max (servoPos (power_on shipped)) 90 /\
    (continueFlag w' = true -> servoPos w' = 90) /\
    only (ramp_event (Z.min (servoPos (power_on shipped)) 90)
                     (Z.max (servoPos (power_on shipped)) 90)) (power_on shipped) w'.
Proof.
  assert (H1 : int_range (servoPos (power_on shipped))) by (unfold int_range; simpl; lia).
  assert (H2 : int_range 90) by (unfold int_range; lia).
  assert (H3 : int_range (90 - servoPos (power_on shipped)))
    by (unfold int_range; simpl; lia).
  assert (H4 : 0 <= 60 <= 32767) by lia.
  split; [exact H1|]. split; [exact H2|]. split; [exact H3|]. split; [exact H4|].
  exact (rampServo_reaches bench_idle 90 60 (power_on shipped) H1 H2 H3 H4).
Defined.

Lemma checkServo_returns_witness :
  0 <= servoPos (power_on shipped) <= 180 /\
  exists found w', checkServo bench_idle (power_on shipped) = Some (found, w') /\
    servoPos w' = 0 /\ only (start_event false true) (power_on shipped) w' /\
    probes w' = S (probes (power_on shipped)) /\
    (found = true -> continueFlag w' = true).
Proof.
  assert (H : 0 <= servoPos (power_on shipped) <= 180) by (simpl; lia).
  split; [exact H|].
  exact (checkServo_returns bench_idle (power_on shipped) H).
Defined.

Lemma stepTest_effect_witness :
  stepTest shipped bench_idle sweep_start = Some (tt, after_first_step) /\
  exists evs, trace after_first_step = evs ++ trace sweep_start /\
    (forall e, In e evs -> is_file_event e = true ->
       cardExists sweep_start = true /\
       exists time force, e = EvRow time (Z.min 180 (servoPos sweep_start)) force) /\
    (forall pos, In (EvServoWrite pos) evs ->
       driven sweep_start = true /\
       (pos = 0 \/ pos = Z.min 180 (servoPos sweep_start))) /\
    (driven sweep_start = false -> servoPos after_first_step = servoPos sweep_start) /\
    servoChecked after_first_step = servoChecked sweep_start /\
    servoActive after_first_step = servoActive sweep_start /\
    cardExists after_first_step = cardExists sweep_start.
Proof.
  assert (H : stepTest shipped bench_idle sweep_start = Some (tt, after_first_step))
    by (vm_compute; reflexivity).
  split; [exact H|].
  exact (stepTest_effect shipped bench_idle _ _ H).
Defined.

Lemma startTest_effect_witness :
  (probe_due (power_on shipped) = true -> 0 <= servoPos (power_on shipped) <= 180) /\
  startTest bench_idle 5 (power_on shipped) = Some (tt, after_start) /\
  exists evs, trace after_start = evs ++ trace (power_on shipped) /\
    (forall e, In e evs -> is_file_event e = true -> cardExists (power_on shipped) = true) /\
    (forall pos, In (EvServoWrite pos) evs ->
       probe_due (power_on shipped) = true /\ 0 <= pos <= 180) /\
    (probe_due (power_on shipped) = false ->
     servoPos after_start = servoPos (power_on shipped) /\
     servoChecked after_start = servoChecked (power_on shipped)) /\
    (probe_due (power_on shipped) = true -> servoPos after_start = 0).
Proof.
  assert (Hb : probe_due (power_on shipped) = true -> 0 <= servoPos (power_on shipped) <= 180)
    by (intros _; simpl; lia).
  assert (H : startTest bench_idle 5 (power_on shipped) = Some (tt, after_start))
    by (vm_compute; reflexivity).
  split; [exact Hb|]. split; [exact H|].
  exact (startTest_effect bench_idle 5 _ _ Hb H).
Defined.

Lemma servo_commands_in_range_witness :
  Z.of_nat 95 <= 16383 /\
  run shipped (bench_found [0%nat]) 5 95 = Some after_hold /\
  In (EvServoWrite 180) (trace after_hold) /\
  0 <= 180 <= 180.
Proof.
  assert (Hn : Z.of_nat 95 <= 16383) by (vm_compute; discriminate).
  assert (Hin : In (EvServoWrite 180) (trace after_hold))
    by (apply (nth_error_In _ 0); vm_compute; reflexivity).
  split; [exact Hn|]. split; [exact run_found_95|]. split; [exact Hin|].
  exact (servo_commands_in_range shipped (bench_found [0%nat]) 5 95 _ 180
           Hn run_found_95 Hin).
Defined.

Lemma no_card_no_file_access_witness :
  sd_begin_in (bench_bare (pressed_at [0%nat; 2%nat])) = false /\
  run shipped (bench_bare (pressed_at [0%nat; 2%nat])) 5 1 = Some after_bare_pass /\
  cardExists after_bare_pass = false /\
  forall e, In e (trace after_bare_pass) -> is_file_event e = false.
Proof.
  assert (H : run shipped (bench_bare (pressed_at [0%nat; 2%nat])) 5 1 = Some after_bare_pass)
    by (vm_compute; reflexivity).
  split; [reflexivity|]. split; [exact H|].
  exact (no_card_no_file_access shipped (bench_bare (pressed_at [0%nat; 2%nat])) 5 1 _
           eq_refl H).
Defined.

Lemma manual_build_leaves_servo_witness :
  AUTO_TEST manual_build = false /\
  run manual_build (bench_found [0%nat]) 5 3 = Some after_manual_passes /\
  servoPos after_manual_passes = 0 /\ servoActive after_manual_passes = false /\
  forall pos, ~ In (EvServoWrite pos) (trace after_manual_passes).
Proof.
  assert (H : run manual_build (bench_found [0%nat]) 5 3 = Some after_manual_passes)
    by (vm_compute; reflexivity).
  split; [reflexivity|]. split; [exact H|].
  exact (manual_build_leaves_servo manual_build (bench_found [0%nat]) 5 3 _ eq_refl H).
Defined.

Lemma no_newline_12_kg : Calibration.no_newline (list_ascii_of_string "12 kg").
Proof.
  intros c Hc. simpl in Hc.
  repeat (destruct Hc as [Hc | Hc]; [subst c; reflexivity|]). destruct Hc.
Qed.

Lemma weight_entry_reads_the_digits_witness :
  Calibration.no_newline (list_ascii_of_string "12 kg") /\
  Calibration.enter_weight (list_ascii_of_string "12 kg" ++ newline :: [])
  = Some (digits_value (Calibration.digits_of (list_ascii_of_string "12 kg")) mod 2 ^ 32,
          newline :: []).
Proof.
  split; [exact no_newline_12_kg|].
  exact (weight_entry_reads_the_digits (list_ascii_of_string "12 kg") [] no_newline_12_kg).
Defined.

Lemma weight_entry_waits_for_newline_witness :
  Calibration.no_newline (list_ascii_of_string "12 kg") /\
  Calibration.read_weight (list_ascii_of_string "12 kg") 0 = None.
Proof.
  split; [exact no_newline_12_kg|].
  exact (weight_entry_waits_for_newline (list_ascii_of_string "12 kg") 0 no_newline_12_kg).
Defined.

Lemma bench_idle_unpressed (w : World Z) :
  forall i, (nreads w <= i)%nat -> digitalRead_in bench_idle i = HIGH.
Proof. intros i _. reflexivity. Qed.

Lemma automatic_sweep_profile_witness :
  CONT_SYNC shipped = false /\
  scaleActive sweep_start = true /\ continueFlag sweep_start = true /\
  servoChecked sweep_start = true /\ servoActive sweep_start = true /\
  servoPos sweep_start = 0 /\ servoStep sweep_start = 2 /\
  (forall i, (nreads sweep_start <= i)%nat -> digitalRead_in bench_idle i = HIGH) /\
  (192 <= 192)%nat /\
  loops shipped bench_idle 1 192 sweep_start = Some (tt, after_profile) /\
  servoPos after_profile = sweep_position (Z.of_nat 192) /\
  continueFlag after_profile = (Z.of_nat 192 <? 192) /\
  (192%nat = 192%nat ->
   servoPos after_profile = 0 /\ servoStep after_profile = 0 /\ sweep_ended after_profile).
Proof.
  assert (H : loops shipped bench_idle 1 192 sweep_start = Some (tt, after_profile))
    by (vm_compute; reflexivity).
  do 7 (split; [reflexivity|]).
  split; [exact (bench_idle_unpressed sweep_start)|].
  split; [apply Nat.le_refl|]. split; [exact H|].
  exact (automatic_sweep_profile shipped bench_idle 0 192 sweep_start after_profile
           eq_refl eq_refl eq_refl eq_refl eq_refl eq_refl eq_refl
           (bench_idle_unpressed sweep_start) (Nat.le_refl 192) H).
Defined.

Lemma steady_stuck_start : steady_sample bench_stuck sweep_start.
Proof. unfold steady_sample. intros _. vm_compute. discriminate. Qed.

Lemma sample_wait_bounded_witness :
  steady_sample bench_stuck sweep_start /\
  exists w', take_sample bench_stuck sweep_start = Some (tt, w') /\
             within 250 sweep_start w' /\
             (continueFlag sweep_start = true ->
              (forall i, (nreads sweep_start <= i)%nat ->
                         digitalRead_in bench_stuck i = HIGH) ->
              delayed (trace w') - delayed (trace sweep_start)
              = waitRemaining (elapsed_at bench_stuck sweep_start (nmillis sweep_start))
                              (elapsed_at bench_stuck sweep_start
                                 (S (nmillis sweep_start)))).
Proof.
  split; [exact steady_stuck_start|].
  exact (sample_wait_bounded bench_stuck sweep_start steady_stuck_start).
Defined.

Lemma stepTest_period_witness :
  steady_sample bench_stuck sweep_start /\
  exists w', stepTest shipped bench_stuck sweep_start = Some (tt, w') /\
             within 5250 sweep_start w' /\
             (CONT_SYNC shipped = false -> within 250 sweep_start w').
Proof.
  split; [exact steady_stuck_start|].
  exact (stepTest_period shipped bench_stuck sweep_start steady_stuck_start).
Defined.

Lemma new_log_name_is_fresh_witness :
  maxFileNum (power_on shipped) = 0 /\
  dir_in (bench_card card_12) (nscans (power_on shipped))
  = Some [file_entry "t_3.csv"; file_entry "notes.txt"; file_entry "t_12.csv";
          {| entryIsDir := true; entryName := "t_50.csv" |}] /\
  last_number (bench_card card_12) (power_on shipped) <= 998 /\
  getFileName (bench_card card_12) 0 (power_on shipped)
  = Some ("t_13.csv"%string,
          outcome (getFileName (bench_card card_12) 0 (power_on shipped))) /\
  forall e,
    In e [file_entry "t_3.csv"; file_entry "notes.txt"; file_entry "t_12.csv";
          {| entryIsDir := true; entryName := "t_50.csv" |}] ->
    entryIsDir e = false -> c_str (entryName e) <> "t_13.csv"%string.
Proof.
  assert (Hl : last_number (bench_card card_12) (power_on shipped) <= 998)
    by (vm_compute; discriminate).
  assert (H : getFileName (bench_card card_12) 0 (power_on shipped)
              = Some ("t_13.csv"%string,
                      outcome (getFileName (bench_card card_12) 0 (power_on shipped))))
    by (vm_compute; reflexivity).
  split; [reflexivity|]. split; [reflexivity|]. split; [exact Hl|]. split; [exact H|].
  exact (new_log_name_is_fresh (bench_card card_12) 0 (power_on shipped) _ _ _
           eq_refl eq_refl Hl H).
Defined.

Lemma checkServo_verdict_witness :
  checkServo (bench_found []) (power_on shipped) = Some (true, after_probe) /\
  nunits after_probe = S (S (nunits (power_on shipped))) /\
  unitForce after_probe
  = get_units_in (bench_found []) (S (nunits (power_on shipped))) /\
  true = continueFlag after_probe
         && fltb (of_int MIN_TEST_FORCE)
                 (float_abs (fsub (get_units_in (bench_found [])
                                     (S (nunits (power_on shipped))))
                                  (get_units_in (bench_found [])
                                     (nunits (power_on shipped))))).
Proof.
  assert (H : checkServo (bench_found []) (power_on shipped) = Some (true, after_probe))
    by (vm_compute; reflexivity).
  split; [exact H|].
  exact (checkServo_verdict (bench_found []) _ _ _ H).
Defined.
